(** * Artisan Apparel backend: payment reconciliation and order lifecycle

    A shallow embedding of the payment-handling code of the backend:

    - the Payment model ([models/Payment.js]: the record and
      [isAmountSufficient]),
    - the Order model (the record and [canBeCancelled]),
    - the Decred service ([services/decredService.js]: [checkPayment],
      [startMonitoring], [stopMonitoring] and the two timer callbacks),
    - the order controller ([controllers/orderController.js]:
      [handlePaymentUpdate], [createPrintfulOrder]),
    - the payment controller ([verifyPayment], [cleanupExpiredPayments]).

    Conventions of the embedding.

    - Status fields are the strings the code stores and compares.
    - Amounts are JavaScript numbers in the source, that is IEEE 754
      doubles.  A double is embedded as the rational [Q] it denotes; every
      arithmetic operation of the source ([+], [-], [*], [/]) and every
      conversion of a decimal string to a number rounds its exact result to
      53 significant bits, ties to even ([Double.round]).  Comparisons are
      exact.  The exponent range is not bounded: the embedding is that of
      the source as long as no result leaves the range of normal doubles
      (between 2^-1022 and 2^1024 in magnitude), which holds for amounts of
      eight decimals, rates and percentages.  A nullable amount is an
      [Amount]: absent, a number, or the decimal string the database driver
      returns for a DECIMAL column.
    - [payment.update] and [order.update] are Sequelize's: a key whose value
      is [undefined] is left out of the update, and the validators of the
      written columns run before anything is stored.
    - The database is a pair of tables.  [orders] is keyed by [order_id]
      (the column is unique); [payments] is a list of rows, because the schema
      allows several payments per order and [Payment.findOne] takes the first.
    - Everything the code asks of a collaborator (fulfillment provider, mail,
      monitor, logger) is recorded, in order, in a list of [Effect]s.
    - What the outside world answers (the wallet RPC, the fulfillment
      provider, the clock) is an explicit argument.  Database reads and writes
      themselves are taken to succeed. *)

From Stdlib Require Import QArith Qround Qpower Lqa.
From stdpp Require Import gmap strings list.

Local Open Scope string_scope.
Local Open Scope list_scope.

(* ===================================================================== *)
(** * JavaScript numbers *)
(* ===================================================================== *)

Module Double.

(** [2^e], for any integer [e]. *)
Definition pow2 (e : Z) : Q := (2 ^ e)%Q.

(** The binary exponent of a positive number: the [e] with
    [2^e <= x < 2^(e+1)]. *)
Definition exponent (x : Q) : Z :=
  let e := (Z.log2 (Qnum x) - Z.log2 (Zpos (Qden x)))%Z in
  if Qle_bool (pow2 e) x then e else (e - 1)%Z.

(** The nearest integer, ties to even. *)
Definition nearest_even (q : Q) : Z :=
  let f := Qfloor q in
  match (q - inject_Z f ?= 1 # 2)%Q with
  | Lt => f
  | Gt => (f + 1)%Z
  | Eq => if Z.even f then f else (f + 1)%Z
  end.

(** A positive number rounded to 53 significant bits. *)
Definition round_pos (x : Q) : Q :=
  let ulp := pow2 (exponent x - 52) in
  (inject_Z (nearest_even (x / ulp)) * ulp)%Q.

(** The double nearest to [x] (round to nearest, ties to even). *)
Definition round (x : Q) : Q :=
  let x := Qred x in
  match Qnum x with
  | Z0 => 0%Q
  | Zpos _ => Qred (round_pos x)
  | Zneg _ => Qred (- round_pos (- x))
  end.

(** The arithmetic of the source on numbers. *)
Definition add (x y : Q) : Q := round (x + y).
Definition sub (x y : Q) : Q := round (x - y).
Definition mul (x y : Q) : Q := round (x * y).
Definition div (x y : Q) : Q := round (x / y).

End Double.

(* ===================================================================== *)
(** * Data model *)
(* ===================================================================== *)

(** A nullable amount as JavaScript sees it. *)
Inductive Amount : Type :=
| Absent                (* null or undefined *)
| Num (q : Q)           (* a JavaScript number *)
| Dec (q : Q).          (* a non-empty decimal string read from the database *)

(** JavaScript truthiness of an amount: [null], [undefined] and the number
    zero are falsy; a non-empty string is truthy whatever it spells. *)
Definition truthy (a : Amount) : bool :=
  match a with
  | Absent => false
  | Num q => negb (Qeq_bool q 0)
  | Dec _ => true
  end.

(** [parseFloat] on an amount that is present: a decimal string becomes
    the nearest number. *)
Definition parseFloat (a : Amount) : Q :=
  match a with
  | Absent => 0
  | Num q => q
  | Dec q => Double.round q
  end.

Module Payment.

Record t : Type := mk {
  order_id : string;
  cryptocurrency : string;
  payment_address : string;
  expected_amount : Q;
  received_amount : Amount;
  transaction_hash : option string;
  confirmations : option Z;
  status : string;
  expires_at : Z;
  detected_at : option Z;
  confirmed_at : option Z;
}.

(** Field assignments, the building blocks of [payment.update({...})]. *)
Definition set_status (v : string) (p : t) : t :=
  mk (order_id p) (cryptocurrency p) (payment_address p) (expected_amount p)
     (received_amount p) (transaction_hash p) (confirmations p) v
     (expires_at p) (detected_at p) (confirmed_at p).

Definition set_received_amount (v : Amount) (p : t) : t :=
  mk (order_id p) (cryptocurrency p) (payment_address p) (expected_amount p)
     v (transaction_hash p) (confirmations p) (status p)
     (expires_at p) (detected_at p) (confirmed_at p).

Definition set_transaction_hash (v : option string) (p : t) : t :=
  mk (order_id p) (cryptocurrency p) (payment_address p) (expected_amount p)
     (received_amount p) v (confirmations p) (status p)
     (expires_at p) (detected_at p) (confirmed_at p).

Definition set_confirmations (v : option Z) (p : t) : t :=
  mk (order_id p) (cryptocurrency p) (payment_address p) (expected_amount p)
     (received_amount p) (transaction_hash p) v (status p)
     (expires_at p) (detected_at p) (confirmed_at p).

Definition set_detected_at (v : option Z) (p : t) : t :=
  mk (order_id p) (cryptocurrency p) (payment_address p) (expected_amount p)
     (received_amount p) (transaction_hash p) (confirmations p) (status p)
     (expires_at p) v (confirmed_at p).

Definition set_confirmed_at (v : option Z) (p : t) : t :=
  mk (order_id p) (cryptocurrency p) (payment_address p) (expected_amount p)
     (received_amount p) (transaction_hash p) (confirmations p) (status p)
     (expires_at p) (detected_at p) v.

(** [isExpired()] : [new Date() > new Date(this.expires_at)]. *)
Definition isExpired (now : Z) (p : t) : bool := (expires_at p <? now)%Z.

(** [isAmountSufficient(tolerance = 1)].  The argument is [None] when the
    caller leaves it out.  [expected_amount] is a DECIMAL column, a string
    that [*] (and unary [-]) turns into the nearest number. *)
Definition isAmountSufficient (tolerance : option Q) (p : t) : bool :=
  let tolerance := default 1%Q tolerance in
  if negb (truthy (received_amount p)) then false
  else
    let minAccepted :=
      Double.mul (Double.round (expected_amount p))
                 (Double.sub 1 (Double.div tolerance 100)) in
    Qle_bool minAccepted (parseFloat (received_amount p)).

(** [getPaymentDifference()]: positive when overpaid, negative when
    underpaid. *)
Definition getPaymentDifference (p : t) : Q :=
  if negb (truthy (received_amount p))
  then (- Double.round (expected_amount p))%Q
  else Double.sub (parseFloat (received_amount p))
                  (parseFloat (Dec (expected_amount p))).

(** The validator of the [confirmations] column, [validate: { min: 0 }].
    It runs on a value that is written; a key that is left out, or null,
    is not validated. *)
Definition valid_confirmations (v : option Z) : bool :=
  match v with
  | Some n => (0 <=? n)%Z
  | None => true
  end.

(** A key of [payment.update({...})] whose value may be [undefined]: the
    key is then left out and the stored value stays. *)
Definition assign_received_amount (v : Amount) (p : t) : t :=
  match v with
  | Absent => p
  | _ => set_received_amount v p
  end.

Definition assign_transaction_hash (v : option string) (p : t) : t :=
  match v with
  | Some _ => set_transaction_hash v p
  | None => p
  end.

Definition assign_confirmations (v : option Z) (p : t) : t :=
  match v with
  | Some _ => set_confirmations v p
  | None => p
  end.

(** [getTimeRemaining()], in milliseconds. *)
Definition getTimeRemaining (now : Z) (p : t) : Z := (expires_at p - now)%Z.

End Payment.

Module Order.

Record t : Type := mk {
  order_id : string;
  customer_email : string;
  payment_status : string;
  order_status : string;
  transaction_hash : option string;
  printful_order_id : option string;
  notes : option string;
}.

(** Field assignments, the building blocks of [order.update({...})]. *)
Definition set_payment_status (v : string) (o : t) : t :=
  mk (order_id o) (customer_email o) v (order_status o)
     (transaction_hash o) (printful_order_id o) (notes o).

Definition set_order_status (v : string) (o : t) : t :=
  mk (order_id o) (customer_email o) (payment_status o) v
     (transaction_hash o) (printful_order_id o) (notes o).

Definition set_transaction_hash (v : option string) (o : t) : t :=
  mk (order_id o) (customer_email o) (payment_status o) (order_status o)
     v (printful_order_id o) (notes o).

Definition set_printful_order_id (v : option string) (o : t) : t :=
  mk (order_id o) (customer_email o) (payment_status o) (order_status o)
     (transaction_hash o) v (notes o).

(** A key of [order.update({...})] whose value may be [undefined]. *)
Definition assign_transaction_hash (v : option string) (o : t) : t :=
  match v with
  | Some _ => set_transaction_hash v o
  | None => o
  end.

(** [canBeCancelled()]. *)
Definition canBeCancelled (o : t) : bool :=
  String.eqb (order_status o) "pending_payment"
  || String.eqb (order_status o) "pending".

(** [isPaid()]. *)
Definition isPaid (o : t) : bool := String.eqb (payment_status o) "confirmed".

Definition set_notes (v : option string) (o : t) : t :=
  mk (order_id o) (customer_email o) (payment_status o) (order_status o)
     (transaction_hash o) (printful_order_id o) v.

(** [isComplete()]. *)
Definition isComplete (o : t) : bool := String.eqb (order_status o) "delivered".

End Order.

(** The observation a monitor hands to the controller ([paymentData]).
    [Absent] and [None] stand for a key the caller leaves out. *)
Record PaymentData : Type := mkPaymentData {
  pd_status : string;
  pd_received : Amount;
  pd_txHash : option string;
  pd_confirmations : option Z;
  pd_pending : Amount;
}.

(** Requests made to collaborators, in the order the code makes them. *)
Inductive Effect : Type :=
| PrintfulCreateOrder (externalId : string)
| SendOrderConfirmation (orderId : string)
| SendOrderCancellation (orderId reason : string)
| CallStopMonitoring (orderId : string)
| CryptoRateCleanup (keepHours : Z)
| LogPayment (event orderId : string)
| LogOrder (event orderId : string)
| LogError (message subject : string)
| LogInfo (message : string).

Definition is_log (e : Effect) : bool :=
  match e with
  | LogPayment _ _ | LogOrder _ _ | LogError _ _ | LogInfo _ => true
  | _ => false
  end.

Definition is_fulfillment_request (e : Effect) : bool :=
  match e with PrintfulCreateOrder _ => true | _ => false end.

Definition is_cancellation_notice (e : Effect) : bool :=
  match e with SendOrderCancellation _ _ => true | _ => false end.

Definition is_monitor_stop (e : Effect) : bool :=
  match e with CallStopMonitoring _ => true | _ => false end.

(** The two tables. *)
Record Db : Type := mkDb {
  orders : gmap string Order.t;
  payments : list Payment.t;
}.

(** [Payment.findOne({ where: { order_id } })]: the first row of the order,
    with its position in the table. *)
Definition Payment_findOne (orderId : string) (db : Db)
  : option (nat * Payment.t) :=
  list_find (fun p => Payment.order_id p = orderId) (payments db).

(** [Order.findOne({ where: { order_id } })]. *)
Definition Order_findOne (orderId : string) (db : Db) : option Order.t :=
  orders db !! orderId.

(** [payment.update(fields)] on the row at position [i]. *)
Definition Payment_update (i : nat) (f : Payment.t -> Payment.t) (db : Db) : Db :=
  mkDb (orders db) (alter f i (payments db)).

(** [order.update(fields)] / [Order.update(fields, { where: { order_id } })]. *)
Definition Order_update (orderId : string) (f : Order.t -> Order.t) (db : Db) : Db :=
  mkDb (alter f orderId (orders db)) (payments db).

(* ===================================================================== *)
(** * services/decredService.js *)
(* ===================================================================== *)

Module DecredService.

(** The value stored in [monitoredAddresses]: the two timer handles. *)
Record Monitor : Type := mkMonitor {
  checkInterval : nat;
  timeout : nat;
}.

(** A pending timer of the runtime, with what its callback closes over. *)
Inductive Timer : Type :=
| IntervalTimer (address : string) (expectedAmount : Q) (orderId : string)
                (everyMs : Z)
| TimeoutTimer (orderId : string) (afterMs : Z).

(** The service object together with the runtime's timer table.  Handles
    are allocated from [next_timer]. *)
Record t : Type := mk {
  minConfirmations : Z;
  monitoredAddresses : gmap string Monitor;
  timers : gmap nat Timer;
  next_timer : nat;
}.

(** [setInterval] / [setTimeout]: register the timer under a new handle. *)
Definition setTimer (tm : Timer) (s : t) : nat * t :=
  (next_timer s,
   mk (minConfirmations s) (monitoredAddresses s)
      (<[next_timer s := tm]> (timers s)) (S (next_timer s))).

(** [clearInterval] / [clearTimeout]. *)
Definition clearTimer (h : nat) (s : t) : t :=
  mk (minConfirmations s) (monitoredAddresses s)
     (delete h (timers s)) (next_timer s).

(** [stopMonitoring(orderId)]. *)
Definition stopMonitoring (orderId : string) (s : t) : t * list Effect :=
  match monitoredAddresses s !! orderId with
  | Some monitor =>
      let s1 := clearTimer (checkInterval monitor) s in
      let s2 := clearTimer (timeout monitor) s1 in
      (mk (minConfirmations s2) (delete orderId (monitoredAddresses s2))
          (timers s2) (next_timer s2),
       [LogPayment "monitoring_stopped" orderId])
  | None => (s, [])
  end.

(** [startMonitoring(address, expectedAmount, orderId, callback,
    timeoutMinutes = 60)].  The callback is the controller's
    [handlePaymentUpdate]; it is applied by whoever fires the timers. *)
Definition startMonitoring (address : string) (expectedAmount : Q)
    (orderId : string) (timeoutMinutes : option Z) (s : t)
  : t * list Effect :=
  let timeoutMinutes := default 60%Z timeoutMinutes in
  let '(s1, e1) := stopMonitoring orderId s in
  let '(checkInterval, s2) :=
    setTimer (IntervalTimer address expectedAmount orderId 30000) s1 in
  let '(timeout, s3) :=
    setTimer (TimeoutTimer orderId (timeoutMinutes * 60 * 1000)) s2 in
  (mk (minConfirmations s3)
      (<[orderId := mkMonitor checkInterval timeout]> (monitoredAddresses s3))
      (timers s3) (next_timer s3),
   e1 ++ [LogPayment "monitoring_started" orderId]).

(** One transaction as [listTransactions] returns it. *)
Record Tx : Type := mkTx {
  hash : option string;
  tx_confirmations : option Z;
  category : string;
}.

(** What the wallet answers during one tick; [None] is a failed call. *)
Record RpcReplies : Type := mkRpc {
  received_confirmed : option Q;    (* getreceivedbyaddress addr minconf *)
  received_unconfirmed : option Q;  (* getreceivedbyaddress addr 0 *)
  listtransactions : option (list Tx);
}.

(** The object [checkPayment] returns. *)
Record PaymentCheck : Type := mkCheck {
  received : Q;
  pending : Q;
  total : Q;
  expected : Q;
  isComplete : bool;
  isPending : bool;
  isUnderpaid : bool;
}.

(** [x || 0] on a number. *)
Definition or_zero (q : Q) : Q := if Qeq_bool q 0 then 0%Q else q.

(** [a > b] and [a < b] on numbers. *)
Definition Qgt_bool (a b : Q) : bool := negb (Qle_bool a b).
Definition Qlt_bool (a b : Q) : bool := negb (Qle_bool b a).

(** [checkPayment(address, expectedAmount)]: [None] when an RPC call
    throws (the error is logged by [rpcCall] and again here, then
    rethrown). *)
Definition checkPayment (rpc : RpcReplies) (address : string)
    (expectedAmount : Q) : option PaymentCheck * list Effect :=
  let failed :=
    [LogError "Decred RPC call failed" "getreceivedbyaddress";
     LogError "Failed to check Decred payment" address] in
  match received_confirmed rpc with
  | None => (None, failed)
  | Some received =>
    match received_unconfirmed rpc with
    | None => (None, failed)
    | Some unconfirmed =>
      let receivedAmount := or_zero received in
      let unconfirmedAmount := or_zero unconfirmed in
      let pendingAmount := Double.sub unconfirmedAmount receivedAmount in
      (Some {| received := receivedAmount;
               pending := pendingAmount;
               total := unconfirmedAmount;
               expected := expectedAmount;
               isComplete := Qle_bool expectedAmount receivedAmount;
               isPending := Qgt_bool pendingAmount 0;
               isUnderpaid := Qgt_bool unconfirmedAmount 0
                              && Qlt_bool unconfirmedAmount expectedAmount |},
       [])
    end
  end.

(** [listTransactions(orderId, count)]. *)
Definition listTransactions (rpc : RpcReplies) (orderId : string)
  : option (list Tx) * list Effect :=
  match listtransactions rpc with
  | Some txs => (Some txs, [])
  | None => (None, [LogError "Decred RPC call failed" "listtransactions";
                    LogError "Failed to list Decred transactions" orderId])
  end.

(** [tx.confirmations || this.minConfirmations]. *)
Definition confirmations_or (c : option Z) (dflt : Z) : Z :=
  match c with
  | Some n => if (n =? 0)%Z then dflt else n
  | None => dflt
  end.

(** The body of the [setInterval] callback: one poll tick.  It returns the
    observation handed to the callback, if any. *)
Definition poll_tick (rpc : RpcReplies) (address : string)
    (expectedAmount : Q) (orderId : string) (s : t)
  : t * option PaymentData * list Effect :=
  match checkPayment rpc address expectedAmount with
  | (None, e0) =>
      (s, None, e0 ++ [LogError "Payment monitoring error" orderId])
  | (Some status, e0) =>
      if isComplete status then
        let '(s1, e1) := stopMonitoring orderId s in
        match listTransactions rpc orderId with
        | (None, e2) =>
            (s1, None,
             e0 ++ e1 ++ e2 ++ [LogError "Payment monitoring error" orderId])
        | (Some transactions, e2) =>
            let tx :=
              List.find (fun t => String.eqb (category t) "receive")
                        transactions in
            (s1,
             Some {| pd_status := "confirmed";
                     pd_received := Num (received status);
                     pd_txHash := tx ≫= hash;
                     pd_confirmations :=
                       Some (confirmations_or (tx ≫= tx_confirmations)
                                              (minConfirmations s));
                     pd_pending := Absent |},
             e0 ++ e1 ++ e2)
        end
      else if isPending status then
        (s,
         Some {| pd_status := "confirming";
                 pd_received := Num (total status);
                 pd_txHash := None;
                 pd_confirmations := None;
                 pd_pending := Num (pending status) |},
         e0)
      else (s, None, e0)
  end.

(** The body of the [setTimeout] callback. *)
Definition expiry_timeout (orderId : string) (s : t)
  : t * PaymentData * list Effect :=
  let '(s1, e1) := stopMonitoring orderId s in
  (s1,
   {| pd_status := "expired"; pd_received := Absent; pd_txHash := None;
      pd_confirmations := None; pd_pending := Absent |},
   e1).

End DecredService.

(* ===================================================================== *)
(** * controllers/orderController.js *)
(* ===================================================================== *)

Module OrderController.

(** [createPrintfulOrder(order)].  [printful] is what
    [printfulService.createOrder] answers: the id of the new fulfillment
    order, or [None] when the call throws.  The boolean tells whether the
    function returned ([true]) or rethrew ([false]). *)
Definition createPrintfulOrder (printful : option string) (orderId : string)
    (db : Db) : Db * list Effect * bool :=
  match printful with
  | Some printfulId =>
      (Order_update orderId
         (fun o => Order.set_order_status "production"
                     (Order.set_printful_order_id (Some printfulId) o)) db,
       [PrintfulCreateOrder orderId;
        LogOrder "printful_order_created" orderId],
       true)
  | None =>
      (db,
       [PrintfulCreateOrder orderId;
        LogError "Printful order creation failed" orderId],
       false)
  end.

(** [handlePaymentUpdate(orderId, paymentData)].  [now] is the clock read
    by [new Date()].  In the [confirmed] branch [payment.update] writes the
    [confirmations] column, whose validator refuses a negative number: the
    update then throws before anything is stored, and the [catch] block of
    the function logs the failure.  The columns written in the other
    branches, and in [order.update], hold values their validators accept. *)
Definition handlePaymentUpdate (now : Z) (printful : option string)
    (orderId : string) (paymentData : PaymentData) (db : Db)
  : Db * list Effect :=
  match Order_findOne orderId db with
  | None => (db, [LogError "Order not found for payment update" orderId])
  | Some _ =>
    let payment := Payment_findOne orderId db in
    if String.eqb (pd_status paymentData) "confirmed" then
      let updated :=
        match payment with
        | Some (i, _) =>
            if Payment.valid_confirmations (pd_confirmations paymentData)
            then
              Some
                (Payment_update i
                   (fun p =>
                      Payment.set_confirmed_at (Some now)
                        (Payment.assign_confirmations
                           (pd_confirmations paymentData)
                           (Payment.assign_transaction_hash
                              (pd_txHash paymentData)
                              (Payment.assign_received_amount
                                 (pd_received paymentData)
                                 (Payment.set_status "confirmed" p))))) db)
            else None
        | None => Some db
        end in
      match updated with
      | None => (db, [LogError "Payment update handling failed" orderId])
      | Some db1 =>
        let db2 :=
          Order_update orderId
            (fun o =>
               Order.set_order_status "paid"
                 (Order.assign_transaction_hash (pd_txHash paymentData)
                    (Order.set_payment_status "confirmed" o))) db1 in
        match createPrintfulOrder printful orderId db2 with
        | (db3, e, true) =>
            (db3, e ++ [SendOrderConfirmation orderId;
                        LogPayment "payment_confirmed" orderId])
        | (db3, e, false) =>
            (db3, e ++ [LogError "Payment update handling failed" orderId])
        end
      end
    else if String.eqb (pd_status paymentData) "confirming" then
      let db1 :=
        match payment with
        | Some (i, _) =>
            Payment_update i
              (fun p =>
                 Payment.set_detected_at (Some now)
                   (Payment.set_status "confirming" p)) db
        | None => db
        end in
      let db2 :=
        Order_update orderId
          (Order.set_payment_status "confirming") db1 in
      (db2, [LogPayment "payment_detecting" orderId])
    else if String.eqb (pd_status paymentData) "expired" then
      let db1 :=
        match payment with
        | Some (i, _) =>
            Payment_update i
              (Payment.set_status "expired") db
        | None => db
        end in
      let db2 :=
        Order_update orderId
          (fun o =>
             Order.set_order_status "cancelled"
               (Order.set_payment_status "expired" o)) db1 in
      (db2, [SendOrderCancellation orderId
               "Payment not received within time limit";
             LogPayment "payment_expired" orderId])
    else (db, [])
  end.

(** Redelivery: the observations of a list applied one after the other,
    each with the answer the fulfillment provider gives at that time. *)
Fixpoint deliver (now : Z) (orderId : string)
    (deliveries : list (PaymentData * option string)) (db : Db)
  : Db * list Effect :=
  match deliveries with
  | [] => (db, [])
  | (paymentData, printful) :: rest =>
      let '(db1, e1) :=
        handlePaymentUpdate now printful orderId paymentData db in
      let '(db2, e2) := deliver now orderId rest db1 in
      (db2, e1 ++ e2)
  end.

End OrderController.

(* ===================================================================== *)
(** * The payment controller *)
(* ===================================================================== *)

Module PaymentController.

Inductive Response : Type :=
| Ok200
| BadRequest400
| NotFound404.

(** [a || b] on optional strings: the empty string is falsy. *)
Definition or_string (a b : option string) : option string :=
  match a with
  | Some s => if String.eqb s "" then b else Some s
  | None => b
  end.

(** [verifyPayment(req, res)], the admin's manual verification.  The
    request carries [orderId] and the body fields [transaction_hash],
    [amount] and [force] ([false] when left out). *)
Definition verifyPayment (now : Z) (orderId : string)
    (transaction_hash : option string) (amount : Amount) (force : bool)
    (db : Db) : Db * Response * list Effect :=
  match Order_findOne orderId db, Payment_findOne orderId db with
  | Some order, Some (i, payment) =>
      if String.eqb (Order.payment_status order) "confirmed" && negb force
      then (db, BadRequest400, [])
      else
        let db1 :=
          Payment_update i
            (fun p =>
               Payment.set_confirmed_at (Some now)
                 (Payment.set_received_amount
                    (if truthy amount then amount
                     else Dec (Payment.expected_amount payment))
                    (Payment.set_transaction_hash
                       (or_string transaction_hash
                                  (Payment.transaction_hash payment))
                       (Payment.set_status "confirmed" p)))) db in
        let db2 :=
          Order_update orderId
            (fun o =>
               Order.set_order_status "paid"
                 (Order.set_transaction_hash
                    (or_string transaction_hash
                               (Order.transaction_hash order))
                    (Order.set_payment_status "confirmed" o))) db1 in
        (db2, Ok200, [LogPayment "payment_manually_verified" orderId])
  | _, _ => (db, NotFound404, [])
  end.

(** The [where] clause of the sweep: pending, and past its expiry. *)
Definition expired_pending (now : Z) (p : Payment.t) : bool :=
  String.eqb (Payment.status p) "pending" && (Payment.expires_at p <? now)%Z.

(** [Payment.findAll({ where })]: the selected rows with their positions. *)
Definition Payment_findAll (sel : Payment.t -> bool) (db : Db)
  : list (nat * Payment.t) :=
  List.filter (fun ip => sel ip.2) (imap pair (payments db)).

(** The body of the [for] loop of the sweep, for one selected row. *)
Definition sweep_step (st : DecredService.t * Db * list Effect)
    (ip : nat * Payment.t) : DecredService.t * Db * list Effect :=
  let '(svc, db, e) := st in
  let orderId := Payment.order_id ip.2 in
  let db1 :=
    Payment_update ip.1 (Payment.set_status "expired") db in
  let db2 :=
    Order_update orderId
      (fun o =>
         Order.set_order_status "cancelled"
           (Order.set_payment_status "expired" o)) db1 in
  let '(svc1, e1) := DecredService.stopMonitoring orderId svc in
  (svc1, db2,
   e ++ [CallStopMonitoring orderId] ++ e1
     ++ [LogPayment "payment_expired_cleanup" orderId]).

(** [cleanupExpiredPayments()], the cron sweep.  It returns the number of
    payments it expired. *)
Definition cleanupExpiredPayments (now : Z) (svc : DecredService.t) (db : Db)
  : DecredService.t * Db * list Effect * nat :=
  let expiredPayments := Payment_findAll (expired_pending now) db in
  let '(svc1, db1, e) := foldl sweep_step (svc, db, []) expiredPayments in
  (svc1, db1,
   e ++ [CryptoRateCleanup 24; LogInfo "Payment cleanup complete"],
   length expiredPayments).

End PaymentController.

(* ===================================================================== *)
(** * The monitor wired to the controller *)
(* ===================================================================== *)

(** [createOrder] passes [handlePaymentUpdate] as the monitor's callback.
    One tick of the [setInterval] timer of an order, callback included. *)
Definition monitor_tick (now : Z) (printful : option string)
    (rpc : DecredService.RpcReplies) (address : string) (expectedAmount : Q)
    (orderId : string) (svc : DecredService.t) (db : Db)
  : DecredService.t * Db * list Effect :=
  let '(svc1, observation, e1) :=
    DecredService.poll_tick rpc address expectedAmount orderId svc in
  match observation with
  | Some paymentData =>
      let '(db1, e2) :=
        OrderController.handlePaymentUpdate now printful orderId paymentData db in
      (svc1, db1, e1 ++ e2)
  | None => (svc1, db, e1)
  end.

(** The [setTimeout] timer of an order firing, callback included. *)
Definition monitor_timeout (now : Z) (printful : option string)
    (orderId : string) (svc : DecredService.t) (db : Db)
  : DecredService.t * Db * list Effect :=
  let '(svc1, paymentData, e1) := DecredService.expiry_timeout orderId svc in
  let '(db1, e2) :=
    OrderController.handlePaymentUpdate now printful orderId paymentData db in
  (svc1, db1, e1 ++ e2).

(* ===================================================================== *)
(** * Vocabulary for the statements *)
(* ===================================================================== *)

(** The field lists [handlePaymentUpdate] writes in its branches. *)
Definition confirm_payment (now : Z) (paymentData : PaymentData)
    (p : Payment.t) : Payment.t :=
  Payment.set_confirmed_at (Some now)
    (Payment.assign_confirmations (pd_confirmations paymentData)
       (Payment.assign_transaction_hash (pd_txHash paymentData)
          (Payment.assign_received_amount (pd_received paymentData)
             (Payment.set_status "confirmed" p)))).

Definition pay_order (paymentData : PaymentData) (o : Order.t) : Order.t :=
  Order.set_order_status "paid"
    (Order.assign_transaction_hash (pd_txHash paymentData)
       (Order.set_payment_status "confirmed" o)).

(** Whether the payment update of the [confirmed] branch goes through: the
    order has no payment row, or the confirmations the observation carries
    pass the validator of the column. *)
Definition update_accepted (orderId : string) (paymentData : PaymentData)
    (db : Db) : bool :=
  match Payment_findOne orderId db with
  | Some _ => Payment.valid_confirmations (pd_confirmations paymentData)
  | None => true
  end.

Definition cancel_order (o : Order.t) : Order.t :=
  Order.set_order_status "cancelled" (Order.set_payment_status "expired" o).

(** The tables after the first payment row of the order, if any, went
    through [f]. *)
Definition on_payment (orderId : string) (db : Db)
    (f : Payment.t -> Payment.t) : Db :=
  match Payment_findOne orderId db with
  | Some (i, _) => Payment_update i f db
  | None => db
  end.

(** The confirmations a tick that finds the payment complete hands to the
    callback: those of the first [receive] transaction of the listing, or
    the service's minimum when there is none or it reports none. *)
Definition reported_confirmations (transactions : list DecredService.Tx)
    (s : DecredService.t) : Z :=
  DecredService.confirmations_or
    (List.find (fun t => String.eqb (DecredService.category t) "receive")
               transactions
     ≫= DecredService.tx_confirmations)
    (DecredService.minConfirmations s).

(* ===================================================================== *)
(** * Sample records *)
(* ===================================================================== *)

(** An order of 5 DCR, as [createOrder] stores it, in a given state. *)
Definition sample_id : string := "AA-2025-000001".

Definition sample_order (payment_status order_status : string)
    (printful_order_id : option string) : Order.t :=
  Order.mk sample_id "customer@example.com" payment_status order_status
           None printful_order_id None.

Definition sample_payment (status : string) (received : Amount) : Payment.t :=
  Payment.mk sample_id "DCR" "DsSampleAddress" 5 received None None status
             3600000 None None.

Definition sample_db (payment_status order_status : string)
    (printful_order_id : option string) (received : Amount) : Db :=
  mkDb {[ sample_id := sample_order payment_status order_status
                                    printful_order_id ]}
       [sample_payment payment_status received].

Definition observation (status : string) (received : Amount) : PaymentData :=
  mkPaymentData status received None None Absent.

(** What the tables say about one order. *)
Definition payment_status_of (orderId : string) (db : Db) : option string :=
  Order.payment_status <$> orders db !! orderId.

Definition order_status_of (orderId : string) (db : Db) : option string :=
  Order.order_status <$> orders db !! orderId.

Definition printful_id_of (orderId : string) (db : Db) : option string :=
  orders db !! orderId ≫= Order.printful_order_id.

Definition payment_row_status (i : nat) (db : Db) : option string :=
  Payment.status <$> payments db !! i.

(** How many requests of a kind a trace holds. *)
Definition count (kind : Effect -> bool) (trace : list Effect) : nat :=
  length (List.filter kind trace).

(** A service object as the constructor leaves it, and the same after
    [createOrder] started the monitor of the sample order. *)
Definition new_service (minConfirmations : Z) : DecredService.t :=
  DecredService.mk minConfirmations ∅ ∅ 0.

Definition sample_service : DecredService.t :=
  (DecredService.startMonitoring "DsSampleAddress" 5 sample_id None
     (new_service 2)).1.

(** The order a timer works for. *)
Definition timer_owner (tm : DecredService.Timer) : string :=
  match tm with
  | DecredService.IntervalTimer _ _ orderId _ => orderId
  | DecredService.TimeoutTimer orderId _ => orderId
  end.

(** [h] is one of the two handles the registry holds for [orderId]. *)
Definition registered (s : DecredService.t) (orderId : string) (h : nat) : bool :=
  match DecredService.monitoredAddresses s !! orderId with
  | Some m => (h =? DecredService.checkInterval m)%nat
              || (h =? DecredService.timeout m)%nat
  | None => false
  end.

(** The invariant of the service: handles are below the allocation
    counter, and every pending timer is one of the two handles registered
    for its order (no timer is leaked). *)
Definition wf (s : DecredService.t) : Prop :=
  map_Forall
    (fun h tm => h < DecredService.next_timer s
                 /\ registered s (timer_owner tm) h = true)
    (DecredService.timers s)
  /\ map_Forall
       (fun _ m => DecredService.checkInterval m < DecredService.next_timer s
                   /\ DecredService.timeout m < DecredService.next_timer s)
       (DecredService.monitoredAddresses s).

(** The timer table after [stopMonitoring] cleared the handles of an order. *)
Definition timers_after_stop (orderId : string) (s : DecredService.t)
  : gmap nat DecredService.Timer :=
  match DecredService.monitoredAddresses s !! orderId with
  | Some m => delete (DecredService.timeout m)
                (delete (DecredService.checkInterval m) (DecredService.timers s))
  | None => DecredService.timers s
  end.

#[local] Instance wf_dec s : Decision (wf s).
Proof. unfold wf. apply _. Defined.

(* ===================================================================== *)
(** * The admin's cancellation (order controller) *)
(* ===================================================================== *)

Module Admin.

(** The requests of the admin path: those of the payment flow, and the
    cancellation of a fulfillment order. *)
Inductive Request : Type :=
| Core (e : Effect)
| PrintfulCancelOrder (printfulOrderId : string).

(** [cancelOrder(req, res)] of the order controller, for the order id of the
    route and the [reason] of the body ([None] when the body has none).
    [printfulService.cancelOrder] and the mail service catch their own
    errors, so nothing here depends on their answers. *)
Definition cancelOrder (orderId : string) (reason : option string)
    (svc : DecredService.t) (db : Db)
  : DecredService.t * Db * PaymentController.Response * list Request :=
  match Order_findOne orderId db with
  | None => (svc, db, PaymentController.NotFound404, [])
  | Some order =>
      if negb (Order.canBeCancelled order)
      then (svc, db, PaymentController.BadRequest400, [])
      else
        let '(svc1, e1) := DecredService.stopMonitoring orderId svc in
        let e2 :=
          match Order.printful_order_id order with
          | Some printfulId =>
              if String.eqb printfulId "" then []
              else [PrintfulCancelOrder printfulId]
          | None => []
          end in
        let db1 :=
          Order_update orderId
            (fun o =>
               Order.set_notes
                 (PaymentController.or_string reason (Some "Cancelled by admin"))
                 (Order.set_order_status "cancelled" o)) db in
        (svc1, db1, PaymentController.Ok200,
         [Core (CallStopMonitoring orderId)] ++ (Core <$> e1) ++ e2
           ++ [Core (SendOrderCancellation orderId
                       (default "Payment not received" reason));
               Core (LogOrder "order_cancelled" orderId)])
  end.

End Admin.

(* ===================================================================== *)
(** * utils/crypto.js *)
(* ===================================================================== *)

Module CryptoUtils.

(** [calculateCryptoAmount(usdAmount, cryptoRate, markupPercent = 1)].
    A zero rate, which gives [Infinity] or [NaN] in the source, is outside
    the statements made about it. *)
Definition calculateCryptoAmount (usdAmount cryptoRate : Q)
    (markupPercent : option Q) : Q :=
  let markupPercent := default 1%Q markupPercent in
  let markup := Double.add 1 (Double.div markupPercent 100) in
  Double.div (Double.mul usdAmount markup) cryptoRate.

End CryptoUtils.

(* ===================================================================== *)
(** * routes/webhooks.js and the BTCPay service *)
(* ===================================================================== *)

Module Webhooks.

(** The trace of a route: what the payment flow requests, and the route's
    own warnings. *)
Inductive Entry : Type :=
| Flow (e : Effect)
| LogWarn (message subject : string).

(** The JSON answer of a route: success, with its message if any, or the
    500 answer of the [catch] block. *)
Inductive Reply : Type :=
| Success (message : option string)
| ProcessingFailed.

(** [!x] on an optional string: absent and empty are falsy. *)
Definition falsy (a : option string) : bool :=
  match a with
  | Some s => String.eqb s ""
  | None => true
  end.

(** [logger.logWebhook(source, event, data)] is
    [logger.info(`Webhook: ${source} - ${event}`, ...)]. *)
Definition logWebhook (source : string) (event : option string) : Entry :=
  Flow (LogInfo ("Webhook: " ++ source ++ " - " ++ default "undefined" event)).

(** The names every JavaScript object inherits from [Object.prototype]:
    looking one of them up in an object literal yields a function or an
    object, not [undefined]. *)
Definition inherited (s : string) : bool :=
  existsb (String.eqb s)
    ["constructor"; "__proto__"; "hasOwnProperty"; "isPrototypeOf";
     "propertyIsEnumerable"; "toLocaleString"; "toString"; "valueOf";
     "__defineGetter__"; "__defineSetter__"; "__lookupGetter__";
     "__lookupSetter__"].

(** [BTCPayService.mapStatus(btcpayStatus)]: [statusMap[s] || 'pending'].
    [None] stands for the value, not a string, that an inherited name
    yields. *)
Definition mapStatus (btcpayStatus : string) : option string :=
  if String.eqb btcpayStatus "New" then Some "pending"
  else if String.eqb btcpayStatus "Processing" then Some "confirming"
  else if String.eqb btcpayStatus "Expired" then Some "expired"
  else if String.eqb btcpayStatus "Invalid" then Some "cancelled"
  else if String.eqb btcpayStatus "Settled" then Some "confirmed"
  else if String.eqb btcpayStatus "Complete" then Some "confirmed"
  else if inherited btcpayStatus then None
  else Some "pending".

(** The body of a BTCPay webhook, as far as the route reads it. *)
Record BtcPayBody : Type := mkBtcPayBody {
  bp_type : option string;
  bp_invoiceId : option string;
  bp_orderId : option string;     (* metadata?.orderId *)
  bp_status : option string;
}.

(** The first payment of an invoice, as [getInvoicePayments] returns it. *)
Record InvoicePayment : Type := mkInvoicePayment {
  txId : option string;
  ip_confirmations : option Z;
}.

(** [POST /api/webhooks/btcpay].  [invoice] is the amount
    [getInvoiceStatus] reports, [None] when that call throws; [payment] is
    [payments[0]], [None] when the list is empty. *)
Definition btcpay (now : Z) (printful : option string) (body : BtcPayBody)
    (invoice : option Q) (payment : option InvoicePayment) (db : Db)
  : Db * list Entry * Reply :=
  let status :=
    mapStatus (if falsy (bp_status body) then "New"
               else default "" (bp_status body)) in
  let log := logWebhook "btcpay" (bp_type body) in
  if falsy (bp_orderId body)
  then (db, [log; LogWarn "BTCPay webhook without order ID"
                          (default "" (bp_invoiceId body))],
        Success (Some "No order ID"))
  else
    let orderId := default "" (bp_orderId body) in
    match Order_findOne orderId db with
    | None => (db, [log; LogWarn "BTCPay webhook for unknown order" orderId],
               Success (Some "Order not found"))
    | Some _ =>
      match invoice with
      | None =>
          (db, [log;
                Flow (LogError "Failed to get BTCPay invoice status"
                               (default "" (bp_invoiceId body)));
                Flow (LogError "BTCPay webhook processing failed" "")],
           ProcessingFailed)
      | Some amount =>
          let observed :=
            match status with
            | Some s =>
                if String.eqb s "confirmed" then
                  Some {| pd_status := "confirmed";
                          pd_received := Num amount;
                          pd_txHash := payment ≫= txId;
                          pd_confirmations :=
                            Some (DecredService.confirmations_or
                                    (payment ≫= ip_confirmations) 1);
                          pd_pending := Absent |}
                else if String.eqb s "confirming" then
                  Some {| pd_status := "confirming"; pd_received := Absent;
                          pd_txHash := None; pd_confirmations := None;
                          pd_pending := Absent |}
                else if String.eqb s "expired" then
                  Some {| pd_status := "expired"; pd_received := Absent;
                          pd_txHash := None; pd_confirmations := None;
                          pd_pending := Absent |}
                else None
            | None => None
            end in
          match observed with
          | Some paymentData =>
              let '(db1, e) :=
                OrderController.handlePaymentUpdate now printful orderId
                  paymentData db in
              (db1, log :: (Flow <$> e), Success None)
          | None => (db, [log], Success None)
          end
      end
    end.

(** [POST /api/webhooks/coinbase].  [eventType] is [event?.type],
    [orderId] is [event?.data?.metadata?.order_id], [localAmount] is
    [pricing?.local?.amount] and [transaction_id] that of the first
    payment of the charge. *)
Definition coinbase (now : Z) (printful : option string)
    (eventType orderId : option string) (localAmount : Amount)
    (transaction_id : option string) (db : Db)
  : Db * list Entry * Reply :=
  let log := logWebhook "coinbase" eventType in
  if falsy orderId then (db, [log], Success (Some "No order ID"))
  else
    let orderId := default "" orderId in
    match Order_findOne orderId db with
    | None => (db, [log], Success (Some "Order not found"))
    | Some _ =>
        let eventType := default "" eventType in
        let observed :=
          if String.eqb eventType "charge:confirmed" then
            Some {| pd_status := "confirmed";
                    pd_received :=
                      Num (if truthy localAmount then parseFloat localAmount
                           else 0);
                    pd_txHash := transaction_id;
                    pd_confirmations := Some 1%Z;
                    pd_pending := Absent |}
          else if String.eqb eventType "charge:pending" then
            Some {| pd_status := "confirming"; pd_received := Absent;
                    pd_txHash := None; pd_confirmations := None;
                    pd_pending := Absent |}
          else if String.eqb eventType "charge:failed"
                  || String.eqb eventType "charge:expired" then
            Some {| pd_status := "expired"; pd_received := Absent;
                    pd_txHash := None; pd_confirmations := None;
                    pd_pending := Absent |}
          else None in
        match observed with
        | Some paymentData =>
            let '(db1, e) :=
              OrderController.handlePaymentUpdate now printful orderId
                paymentData db in
            (db1, log :: (Flow <$> e), Success None)
        | None => (db, [log], Success None)
        end
    end.

(** [POST /api/webhooks/payment-confirmed], the internal route. *)
Definition paymentConfirmed (now : Z) (printful : option string)
    (order_id : string) (transaction_hash : option string) (amount : Amount)
    (confirmations : option Z) (db : Db) : Db * list Entry * Reply :=
  let '(db1, e) :=
    OrderController.handlePaymentUpdate now printful order_id
      {| pd_status := "confirmed"; pd_received := amount;
         pd_txHash := transaction_hash; pd_confirmations := confirmations;
         pd_pending := Absent |} db in
  (db1, logWebhook "internal" (Some "payment_confirmed") :: (Flow <$> e),
   Success None).

End Webhooks.

(* ===================================================================== *)
(** * The life of a monitor *)
(* ===================================================================== *)

(** What can happen to the service object: a caller starts or stops a
    monitor, the runtime fires the polling interval or the expiry timeout of
    an order. *)
Inductive MonitorEvent : Type :=
| Started (address : string) (expectedAmount : Q) (orderId : string)
          (timeoutMinutes : option Z)
| Stopped (orderId : string)
| Ticked (rpc : DecredService.RpcReplies) (address : string)
         (expectedAmount : Q) (orderId : string)
| TimedOut (orderId : string).

Definition monitor_step (s : DecredService.t) (ev : MonitorEvent)
  : DecredService.t :=
  match ev with
  | Started address expectedAmount orderId timeoutMinutes =>
      (DecredService.startMonitoring address expectedAmount orderId
         timeoutMinutes s).1
  | Stopped orderId => (DecredService.stopMonitoring orderId s).1
  | Ticked rpc address expectedAmount orderId =>
      (DecredService.poll_tick rpc address expectedAmount orderId s).1.1
  | TimedOut orderId => (DecredService.expiry_timeout orderId s).1.1
  end.

Definition monitor_run (events : list MonitorEvent) (s : DecredService.t)
  : DecredService.t :=
  foldl monitor_step s events.

(** The rows the sweep selects at a time, and the table it leaves. *)
Definition expire_selected (now : Z) (p : Payment.t) : Payment.t :=
  if PaymentController.expired_pending now p
  then Payment.set_status "expired" p else p.

(** A second sample order, with its payment, beside the first. *)
Definition other_id : string := "AA-2025-000002".

Definition two_orders_db : Db :=
  mkDb (<[other_id := Order.mk other_id "other@example.com" "confirmed"
                        "production" None (Some "pf-9") None]>
          {[ sample_id := sample_order "pending" "pending_payment" None ]})
       [Payment.mk other_id "DCR" "DsOtherAddress" 2 (Num 2) None (Some 3%Z)
                   "confirmed" 1800000 None (Some 1000%Z);
        sample_payment "pending" Absent].

(* ===================================================================== *)
(** * Tactics for traces *)
(* ===================================================================== *)

(** [e ∈ trace] for an explicit trace. *)
Ltac in_trace :=
  repeat (rewrite elem_of_cons); repeat first [left; reflexivity | right];
  fail.

(** [e ∉ trace] for an explicit trace whose entries differ from [e] by
    their constructor or a literal. *)
Ltac not_in_trace :=
  let H := fresh "Hin" in
  intros H;
  repeat (apply elem_of_cons in H as [H|H]; [discriminate H|]);
  by apply elem_of_nil in H.

(* ===================================================================== *)
(** * Properties of the rounding *)
(* ===================================================================== *)

Section DoubleFacts.
Import Double.
Local Open Scope Q_scope.

Lemma pow2_pos e : 0 < pow2 e.
Proof. apply Qpower_0_lt. reflexivity. Qed.

Lemma pow2_add a b : pow2 (a + b) == pow2 a * pow2 b.
Proof. apply Qpower_plus. discriminate. Qed.

Lemma pow2_le a b : (a <= b)%Z -> pow2 a <= pow2 b.
Proof. intros H. apply Qpower_le_compat_l; [exact H | discriminate]. Qed.

Lemma pow2_lt_inv a b : pow2 a < pow2 b -> (a < b)%Z.
Proof. intros H. apply (Qpower_lt_compat_l_inv 2); [exact H | reflexivity]. Qed.

Lemma pow2_Z e : (0 <= e)%Z -> pow2 e == inject_Z (2 ^ e).
Proof. intros H. unfold pow2. by rewrite Zpower_Qpower. Qed.

(** [2 ^ log2 n <= n < 2 ^ (log2 n + 1)], in Q. *)
Lemma log2_bounds (n : Z) :
  (0 < n)%Z ->
  pow2 (Z.log2 n) <= inject_Z n /\ inject_Z n < pow2 (Z.log2 n + 1).
Proof.
  intros H. destruct (Z.log2_spec n H) as [H1 H2].
  pose proof (Z.log2_nonneg n) as H0.
  rewrite !pow2_Z by lia. rewrite <- Zle_Qle, <- Zlt_Qlt.
  split; [exact H1 | by rewrite <- Z.add_1_r in H2].
Qed.

Lemma exponent_spec x :
  0 < x -> pow2 (exponent x) <= x /\ x < pow2 (exponent x + 1).
Proof.
  intros Hx. unfold exponent.
  set (e := (Z.log2 (Qnum x) - Z.log2 (Z.pos (Qden x)))%Z).
  assert (Hn : (0 < Qnum x)%Z).
  { destruct x as [n d]. unfold Qlt in Hx. simpl in *. lia. }
  destruct (log2_bounds (Qnum x) Hn) as [Hn1 Hn2].
  destruct (log2_bounds (Z.pos (Qden x)) eq_refl) as [Hd1 Hd2].
  assert (Hx' : x == inject_Z (Qnum x) / inject_Z (Z.pos (Qden x))).
  { destruct x as [n d]. simpl. rewrite Qmake_Qdiv. reflexivity. }
  set (a := Z.log2 (Qnum x)) in *. set (b := Z.log2 (Z.pos (Qden x))) in *.
  set (N := inject_Z (Qnum x)) in *. set (D := inject_Z (Z.pos (Qden x))) in *.
  assert (HD : 0 < D) by (pose proof (pow2_pos b); lra).
  assert (Hup : x < pow2 (e + 1)).
  { rewrite Hx'. apply Qlt_shift_div_r; [exact HD|].
    replace (e + 1)%Z with ((a + 1) + (- b))%Z by lia.
    rewrite pow2_add. 
    assert (Hb : pow2 (- b) * pow2 b == 1).
    { rewrite <- pow2_add. replace (- b + b)%Z with 0%Z by lia. reflexivity. }
    pose proof (pow2_pos (a + 1)). pose proof (pow2_pos (- b)).
    assert (Hm : 0 < pow2 (a + 1) * pow2 (- b)) by (apply Qmult_lt_0_compat; assumption).
    nra. }
  assert (Hlow : pow2 (e - 1) <= x).
  { rewrite Hx'. apply Qle_shift_div_l; [exact HD|].
    replace (e - 1)%Z with (a + (- (b + 1)))%Z by lia.
    rewrite pow2_add.
    assert (Hb : pow2 (- (b + 1)) * pow2 (b + 1) == 1).
    { rewrite <- pow2_add. replace (- (b + 1) + (b + 1))%Z with 0%Z by lia.
      reflexivity. }
    pose proof (pow2_pos a). pose proof (pow2_pos (- (b + 1))).
    assert (Hm : 0 < pow2 a * pow2 (- (b + 1))) by (apply Qmult_lt_0_compat; assumption).
    nra. }
  destruct (Qle_bool (pow2 e) x) eqn:E.
  - apply Qle_bool_iff in E. split; assumption.
  - split; [exact Hlow|]. replace (e - 1 + 1)%Z with e by lia.
    apply Qnot_le_lt. intros H. apply Qle_bool_iff in H. congruence.
Qed.

Lemma exponent_mono x y : 0 < x -> x <= y -> (exponent x <= exponent y)%Z.
Proof.
  intros Hx Hxy. destruct (exponent_spec x Hx) as [H1 _].
  destruct (exponent_spec y) as [_ H2]; [lra|].
  assert (exponent x < exponent y + 1)%Z by (apply pow2_lt_inv; lra).
  lia.
Qed.

(** Rounding to the nearest integer, ties to even. *)
Lemma nearest_even_spec q :
  let f := Qfloor q in
  (nearest_even q = f
   /\ (q - inject_Z f < 1 # 2
       \/ (q - inject_Z f == 1 # 2 /\ Z.even f = true)))
  \/ (nearest_even q = (f + 1)%Z
      /\ (1 # 2 < q - inject_Z f
          \/ (q - inject_Z f == 1 # 2 /\ Z.even f = false))).
Proof.
  intros f. unfold nearest_even. fold f.
  destruct (Qcompare_spec (q - inject_Z f) (1 # 2)) as [H|H|H].
  - destruct (Z.even f) eqn:E; [left|right]; split; auto.
  - left. split; auto.
  - right. split; auto.
Qed.

Lemma nearest_even_mono p q : p <= q -> (nearest_even p <= nearest_even q)%Z.
Proof.
  intros Hpq. pose proof (Qfloor_resp_le _ _ Hpq) as Hf.
  pose proof (Qfloor_le p) as Hp1. pose proof (Qlt_floor p) as Hp2.
  pose proof (Qfloor_le q) as Hq1. pose proof (Qlt_floor q) as Hq2.
  destruct (nearest_even_spec p) as [[-> Hp]|[-> Hp]];
    destruct (nearest_even_spec q) as [[-> Hq]|[-> Hq]]; try lia.
  destruct (Z.eq_dec (Qfloor p) (Qfloor q)) as [E|E]; [|lia].
  exfalso. rewrite E in Hp.
  destruct Hp as [Hp|[Hp Ep]], Hq as [Hq|[Hq Eq]]; try lra.
  congruence.
Qed.

Lemma nearest_even_Z k : nearest_even (inject_Z k) = k.
Proof.
  unfold nearest_even. rewrite Qfloor_Z.
  destruct (Qcompare_spec (inject_Z k - inject_Z k) (1 # 2)) as [H|H|H];
    [exfalso; lra | reflexivity | exfalso; lra].
Qed.

Lemma nearest_even_comp p q : p == q -> nearest_even p = nearest_even q.
Proof.
  intros H. apply Z.le_antisymm; apply nearest_even_mono; lra.
Qed.

Lemma nearest_even_ge k q : inject_Z k <= q -> (k <= nearest_even q)%Z.
Proof.
  intros H. rewrite <- (nearest_even_Z k). by apply nearest_even_mono.
Qed.

Lemma nearest_even_le k q : q <= inject_Z k -> (nearest_even q <= k)%Z.
Proof.
  intros H. rewrite <- (nearest_even_Z k). by apply nearest_even_mono.
Qed.

(** The significand of a positive number lies between [2^52] and [2^53]. *)
Lemma pow2_52 e : pow2 e == inject_Z (2 ^ 52) * pow2 (e - 52).
Proof.
  rewrite <- pow2_Z by lia. rewrite <- pow2_add. by replace (52 + (e - 52))%Z with e by lia.
Qed.

Lemma pow2_53 e : pow2 (e + 1) == inject_Z (2 ^ 53) * pow2 (e - 52).
Proof.
  rewrite <- pow2_Z by lia. rewrite <- pow2_add.
  by replace (53 + (e - 52))%Z with (e + 1)%Z by lia.
Qed.

Lemma div_ulp x u : 0 < u -> x == x / u * u.
Proof. intros H. field. lra. Qed.

Lemma significand_bounds x :
  0 < x ->
  let m := nearest_even (x / pow2 (exponent x - 52)) in
  (2 ^ 52 <= m <= 2 ^ 53)%Z.
Proof.
  intros Hx m. destruct (exponent_spec x Hx) as [H1 H2].
  rewrite pow2_52 in H1. rewrite pow2_53 in H2.
  pose proof (pow2_pos (exponent x - 52)) as Hu.
  pose proof (div_ulp x _ Hu) as Hq.
  set (u := pow2 (exponent x - 52)) in *. set (q := x / u) in *.
  split.
  - apply nearest_even_ge. set (c := inject_Z (2 ^ 52)) in *. clearbody c. nra.
  - apply nearest_even_le. set (c := inject_Z (2 ^ 53)) in *. clearbody c. nra.
Qed.

Lemma round_pos_bounds x :
  0 < x ->
  pow2 (exponent x) <= round_pos x /\ round_pos x <= pow2 (exponent x + 1).
Proof.
  intros Hx. destruct (significand_bounds x Hx) as [H1 H2].
  unfold round_pos. rewrite pow2_52, pow2_53.
  pose proof (pow2_pos (exponent x - 52)) as Hu.
  set (u := pow2 (exponent x - 52)) in *.
  set (m := nearest_even (x / u)) in *.
  rewrite Zle_Qle in H1, H2.
  set (c := inject_Z (2 ^ 52)) in *. set (d := inject_Z (2 ^ 53)) in *.
  set (M := inject_Z m) in *. clearbody c d M. split; nra.
Qed.

Lemma round_pos_pos x : 0 < x -> 0 < round_pos x.
Proof.
  intros Hx. destruct (round_pos_bounds x Hx) as [H _].
  pose proof (pow2_pos (exponent x)). lra.
Qed.

Lemma round_pos_mono x y : 0 < x -> x <= y -> round_pos x <= round_pos y.
Proof.
  intros Hx Hxy. assert (Hy : 0 < y) by lra.
  pose proof (exponent_mono x y Hx Hxy) as He.
  destruct (Z.eq_dec (exponent x) (exponent y)) as [E|E].
  - unfold round_pos. rewrite E.
    pose proof (pow2_pos (exponent y - 52)) as Hu.
    set (u := pow2 (exponent y - 52)) in *.
    assert (Hq : x / u <= y / u).
    { apply Qle_shift_div_l; [exact Hu|]. rewrite <- div_ulp by exact Hu. exact Hxy. }
    apply nearest_even_mono in Hq. rewrite Zle_Qle in Hq.
    set (a := inject_Z (nearest_even (x / u))) in *.
    set (b := inject_Z (nearest_even (y / u))) in *. clearbody a b. nra.
  - destruct (round_pos_bounds x Hx) as [_ H1].
    destruct (round_pos_bounds y Hy) as [H2 _].
    assert (pow2 (exponent x + 1) <= pow2 (exponent y)) by (apply pow2_le; lia).
    lra.
Qed.

(** A number with a significand of at most 53 bits is not changed. *)
Lemma round_pos_fixed y k j :
  0 < y -> y == inject_Z k * pow2 j -> (k <= 2 ^ 53)%Z -> round_pos y == y.
Proof.
  intros Hy Hk Hb.
  destruct (exponent_spec y Hy) as [H1 H2].
  pose proof (pow2_pos (exponent y - 52)) as Hu.
  assert (Hint : exists z, y == inject_Z z * pow2 (exponent y - 52)).
  { destruct (Z_le_gt_dec (exponent y - 52) j) as [Hj|Hj].
    - exists (k * 2 ^ (j - (exponent y - 52)))%Z.
      rewrite inject_Z_mult, <- pow2_Z by lia.
      rewrite <- Qmult_assoc, <- pow2_add.
      by replace (j - (exponent y - 52) + (exponent y - 52))%Z with j by lia.
    - exists (2 ^ 52)%Z. rewrite <- pow2_52.
      apply Qle_antisym; [|exact H1].
      assert (Hle : pow2 (j + 53) <= pow2 (exponent y)) by (apply pow2_le; lia).
      replace (j + 53)%Z with (53 + j)%Z in Hle by lia.
      rewrite pow2_add, pow2_Z in Hle by lia.
      rewrite Zle_Qle in Hb. pose proof (pow2_pos j).
      set (c := inject_Z (2 ^ 53)) in *. set (K := inject_Z k) in *.
      clearbody c K. nra. }
  destruct Hint as [z Hz]. unfold round_pos.
  assert (Hq : y / pow2 (exponent y - 52) == inject_Z z).
  { rewrite Hz at 1. apply Qdiv_mult_l. lra. }
  rewrite (nearest_even_comp _ _ Hq), nearest_even_Z. by rewrite <- Hz.
Qed.

Lemma round_pos_idempotent x y :
  0 < x -> y == round_pos x -> round_pos y == y.
Proof.
  intros Hx Hy. pose proof (round_pos_pos x Hx).
  apply (round_pos_fixed y (nearest_even (x / pow2 (exponent x - 52)))
           (exponent x - 52)); [lra | exact Hy |].
  apply (significand_bounds x Hx).
Qed.

(** ** Rounding, with its sign *)

Lemma Qnum_Qred_pos x : 0 < x -> exists p, Qnum (Qred x) = Z.pos p.
Proof.
  intros H. apply Qred_lt in H. change (Qred 0) with 0 in H.
  destruct (Qred x) as [[|p|p] d]; try (unfold Qlt in H; simpl in H; lia).
  by exists p.
Qed.

Lemma Qnum_Qred_neg x : x < 0 -> exists p, Qnum (Qred x) = Z.neg p.
Proof.
  intros H. apply Qred_lt in H. change (Qred 0) with 0 in H.
  destruct (Qred x) as [[|p|p] d]; try (unfold Qlt in H; simpl in H; lia).
  by exists p.
Qed.

Lemma round_of_pos x : 0 < x -> round x == round_pos (Qred x).
Proof.
  intros H. unfold round. destruct (Qnum_Qred_pos x H) as [p ->].
  apply Qred_correct.
Qed.

Lemma round_of_neg x : x < 0 -> round x == - round_pos (- Qred x).
Proof.
  intros H. unfold round. destruct (Qnum_Qred_neg x H) as [p ->].
  apply Qred_correct.
Qed.

Lemma round_of_zero x : x == 0 -> round x = 0.
Proof.
  intros H. unfold round. apply Qred_complete in H. rewrite H. reflexivity.
Qed.

Lemma round_comp x y : x == y -> round x = round y.
Proof. intros H. unfold round. by rewrite (Qred_complete _ _ H). Qed.

Lemma round_pos_lt x : 0 < x -> 0 < round x.
Proof.
  intros H. rewrite (round_of_pos x H). apply round_pos_pos.
  by rewrite Qred_correct.
Qed.

Lemma round_neg_lt x : x < 0 -> round x < 0.
Proof.
  intros H. rewrite (round_of_neg x H).
  assert (0 < round_pos (- Qred x)).
  { apply round_pos_pos. rewrite Qred_correct. lra. }
  lra.
Qed.

Lemma round_mono x y : x <= y -> round x <= round y.
Proof.
  intros Hxy.
  destruct (Q_dec x 0) as [[Hx|Hx]|Hx]; destruct (Q_dec y 0) as [[Hy|Hy]|Hy];
    try (exfalso; lra).
  - rewrite (round_of_neg x Hx), (round_of_neg y Hy).
    assert (round_pos (- Qred y) <= round_pos (- Qred x)).
    { apply round_pos_mono; rewrite !Qred_correct; lra. }
    lra.
  - pose proof (round_neg_lt x Hx). pose proof (round_pos_lt y Hy). lra.
  - pose proof (round_neg_lt x Hx). rewrite (round_of_zero y Hy). lra.
  - rewrite (round_of_pos x Hx), (round_of_pos y Hy).
    apply round_pos_mono; rewrite !Qred_correct; lra.
  - rewrite (round_of_zero x Hx). pose proof (round_pos_lt y Hy). lra.
  - rewrite (round_of_zero x Hx), (round_of_zero y Hy). lra.
Qed.

Lemma round_idempotent x : round (round x) == round x.
Proof.
  destruct (Q_dec x 0) as [[Hx|Hx]|Hx].
  - pose proof (round_neg_lt x Hx) as Hr.
    rewrite (round_of_neg (round x) Hr).
    assert (Hp : 0 < - Qred x) by (rewrite Qred_correct; lra).
    rewrite (round_pos_idempotent (- Qred x) (- Qred (round x)) Hp).
    + rewrite Qred_correct. lra.
    + rewrite Qred_correct, (round_of_neg x Hx). lra.
  - pose proof (round_pos_lt x Hx) as Hr.
    rewrite (round_of_pos (round x) Hr).
    assert (Hp : 0 < Qred x) by (rewrite Qred_correct; lra).
    rewrite (round_pos_idempotent (Qred x) (Qred (round x)) Hp).
    + apply Qred_correct.
    + rewrite Qred_correct. apply (round_of_pos x Hx).
  - by rewrite (round_of_zero x Hx).
Qed.

(** The sign of a number survives rounding. *)
Lemma round_sign x : (0 <= round x <-> 0 <= x) /\ (0 < round x <-> 0 < x).
Proof.
  destruct (Q_dec x 0) as [[Hx|Hx]|Hx].
  - pose proof (round_neg_lt x Hx). split; split; lra.
  - pose proof (round_pos_lt x Hx). split; split; lra.
  - rewrite (round_of_zero x Hx). split; split; lra.
Qed.

End DoubleFacts.

(* ===================================================================== *)
(** * Properties of [handlePaymentUpdate] *)
(* ===================================================================== *)

Section HandlePaymentUpdate.

Import OrderController.

Variables (now : Z) (orderId : string) (db : Db).

Lemma on_payment_orders f : orders (on_payment orderId db f) = orders db.
Proof. unfold on_payment. by destruct (Payment_findOne orderId db) as [[]|]. Qed.

(** The four branches, each as one equation. *)
Lemma handlePaymentUpdate_not_found printful pd :
  orders db !! orderId = None ->
  handlePaymentUpdate now printful orderId pd db
  = (db, [LogError "Order not found for payment update" orderId]).
Proof. intros H. unfold handlePaymentUpdate, Order_findOne. by rewrite H. Qed.

Lemma handlePaymentUpdate_confirmed printful pd o :
  orders db !! orderId = Some o ->
  pd_status pd = "confirmed" ->
  update_accepted orderId pd db = true ->
  handlePaymentUpdate now printful orderId pd db
  = let db2 := Order_update orderId (pay_order pd)
                 (on_payment orderId db (confirm_payment now pd)) in
    match printful with
    | Some printfulId =>
        (Order_update orderId
           (fun o => Order.set_order_status "production"
                       (Order.set_printful_order_id (Some printfulId) o)) db2,
         [PrintfulCreateOrder orderId;
          LogOrder "printful_order_created" orderId;
          SendOrderConfirmation orderId;
          LogPayment "payment_confirmed" orderId])
    | None =>
        (db2,
         [PrintfulCreateOrder orderId;
          LogError "Printful order creation failed" orderId;
          LogError "Payment update handling failed" orderId])
    end.
Proof.
  intros Ho Hs Ha. unfold handlePaymentUpdate, Order_findOne, on_payment.
  unfold update_accepted in Ha. rewrite Ho, Hs. simpl.
  destruct (Payment_findOne orderId db) as [[i p]|];
    [rewrite Ha|]; destruct printful; reflexivity.
Qed.

(** A [confirmed] observation whose confirmations the validator refuses:
    [payment.update] throws, nothing is stored and nothing is requested. *)
Lemma handlePaymentUpdate_rejected printful pd o :
  orders db !! orderId = Some o ->
  pd_status pd = "confirmed" ->
  update_accepted orderId pd db = false ->
  handlePaymentUpdate now printful orderId pd db
  = (db, [LogError "Payment update handling failed" orderId]).
Proof.
  intros Ho Hs Ha. unfold handlePaymentUpdate, Order_findOne.
  unfold update_accepted in Ha. rewrite Ho, Hs. simpl.
  destruct (Payment_findOne orderId db) as [[i p]|]; [|discriminate].
  by rewrite Ha.
Qed.

Lemma handlePaymentUpdate_confirming printful pd o :
  orders db !! orderId = Some o ->
  pd_status pd = "confirming" ->
  handlePaymentUpdate now printful orderId pd db
  = (Order_update orderId (Order.set_payment_status "confirming")
       (on_payment orderId db (fun p => Payment.set_detected_at (Some now)
                               (Payment.set_status "confirming" p))),
     [LogPayment "payment_detecting" orderId]).
Proof.
  intros Ho Hs. unfold handlePaymentUpdate, Order_findOne, on_payment.
  rewrite Ho, Hs. simpl.
  destruct (Payment_findOne orderId db) as [[i p]|]; reflexivity.
Qed.

Lemma handlePaymentUpdate_expired printful pd o :
  orders db !! orderId = Some o ->
  pd_status pd = "expired" ->
  handlePaymentUpdate now printful orderId pd db
  = (Order_update orderId cancel_order
       (on_payment orderId db (Payment.set_status "expired")),
     [SendOrderCancellation orderId "Payment not received within time limit";
      LogPayment "payment_expired" orderId]).
Proof.
  intros Ho Hs. unfold handlePaymentUpdate, Order_findOne, on_payment.
  rewrite Ho, Hs. simpl.
  destruct (Payment_findOne orderId db) as [[i p]|]; reflexivity.
Qed.

Lemma handlePaymentUpdate_other printful pd o :
  orders db !! orderId = Some o ->
  pd_status pd <> "confirmed" ->
  pd_status pd <> "confirming" ->
  pd_status pd <> "expired" ->
  handlePaymentUpdate now printful orderId pd db = (db, []).
Proof.
  intros Ho H1 H2 H3. unfold handlePaymentUpdate, Order_findOne.
  rewrite Ho.
  apply String.eqb_neq in H1, H2, H3. by rewrite H1, H2, H3.
Qed.

End HandlePaymentUpdate.

(** Reading one order back after an update of that order. *)
Lemma Order_update_lookup orderId f db :
  orders (Order_update orderId f db) !! orderId = f <$> orders db !! orderId.
Proof. unfold Order_update. simpl. by rewrite lookup_alter_eq. Qed.

Lemma Order_update_lookup_ne orderId k f db :
  orderId <> k ->
  orders (Order_update orderId f db) !! k = orders db !! k.
Proof. intros. unfold Order_update. simpl. by rewrite lookup_alter_ne. Qed.

Lemma Payment_findOne_Some orderId db i p :
  Payment_findOne orderId db = Some (i, p) ->
  payments db !! i = Some p /\ Payment.order_id p = orderId.
Proof.
  unfold Payment_findOne. intros H.
  apply list_find_Some in H. tauto.
Qed.

Lemma payment_row_status_on_payment orderId db f i p :
  Payment_findOne orderId db = Some (i, p) ->
  payment_row_status i (on_payment orderId db f) = Some (Payment.status (f p)).
Proof.
  intros H. unfold on_payment, payment_row_status. rewrite H.
  apply Payment_findOne_Some in H as [H _].
  unfold Payment_update. simpl. by rewrite list_lookup_alter_eq, H.
Qed.

Lemma payment_row_status_Order_update orderId f i db :
  payment_row_status i (Order_update orderId f db) = payment_row_status i db.
Proof. reflexivity. Qed.

Lemma on_payment_lookup_order orderId db f k :
  orders (on_payment orderId db f) !! k = orders db !! k.
Proof. by rewrite on_payment_orders. Qed.

(** An order that exists still exists after any observation. *)
Lemma handlePaymentUpdate_keeps_order now printful orderId pd db :
  is_Some (orders db !! orderId) ->
  is_Some (orders (OrderController.handlePaymentUpdate now printful orderId pd db).1
             !! orderId).
Proof.
  intros [o Ho].
  destruct (String.eqb_spec (pd_status pd) "confirmed") as [H1|H1].
  { destruct (update_accepted orderId pd db) eqn:Ha.
    - rewrite (handlePaymentUpdate_confirmed _ _ _ _ _ o Ho H1 Ha).
      destruct printful; cbn [fst];
        rewrite !Order_update_lookup, on_payment_lookup_order, Ho; simpl; eauto.
    - rewrite (handlePaymentUpdate_rejected _ _ _ _ _ o Ho H1 Ha). simpl. eauto. }
  destruct (String.eqb_spec (pd_status pd) "confirming") as [H2|H2].
  { rewrite (handlePaymentUpdate_confirming _ _ _ _ _ o Ho H2).
    cbn [fst]. rewrite Order_update_lookup, on_payment_lookup_order, Ho.
    simpl; eauto. }
  destruct (String.eqb_spec (pd_status pd) "expired") as [H3|H3].
  { rewrite (handlePaymentUpdate_expired _ _ _ _ _ o Ho H3).
    cbn [fst]. rewrite Order_update_lookup, on_payment_lookup_order, Ho.
    simpl; eauto. }
  rewrite (handlePaymentUpdate_other _ _ _ _ _ o Ho H1 H2 H3). simpl. eauto.
Qed.

(** The update is accepted when the confirmations pass the validator. *)
Lemma update_accepted_valid orderId pd db :
  Payment.valid_confirmations (pd_confirmations pd) = true ->
  update_accepted orderId pd db = true.
Proof.
  intros H. unfold update_accepted. by destruct (Payment_findOne orderId db).
Qed.

(** Every application of a [confirmed] observation that gets past the
    payment update asks the fulfillment provider once, whatever the provider
    answers; one that does not asks nothing. *)
Lemma handlePaymentUpdate_confirmed_requests now printful orderId pd db o :
  orders db !! orderId = Some o ->
  pd_status pd = "confirmed" ->
  count is_fulfillment_request
    (OrderController.handlePaymentUpdate now printful orderId pd db).2
  = if update_accepted orderId pd db then 1 else 0.
Proof.
  intros Ho Hs. destruct (update_accepted orderId pd db) eqn:Ha.
  - rewrite (handlePaymentUpdate_confirmed _ _ _ _ _ o Ho Hs Ha).
    by destruct printful.
  - by rewrite (handlePaymentUpdate_rejected _ _ _ _ _ o Ho Hs Ha).
Qed.

Lemma count_cons kind (x : Effect) (e : list Effect) :
  count kind (x :: e) = (if kind x then 1 else 0) + count kind e.
Proof. unfold count. cbn [List.filter]. by destruct (kind x). Qed.

Lemma count_app kind (e1 e2 : list Effect) :
  count kind (e1 ++ e2) = count kind e1 + count kind e2.
Proof. unfold count. by rewrite List.filter_app, length_app. Qed.

(** The fields the [confirmed] branch sets, and those it keeps. *)
Lemma pay_order_fields pd o :
  Order.payment_status (pay_order pd o) = "confirmed"
  /\ Order.order_status (pay_order pd o) = "paid"
  /\ Order.order_id (pay_order pd o) = Order.order_id o
  /\ Order.customer_email (pay_order pd o) = Order.customer_email o
  /\ Order.printful_order_id (pay_order pd o) = Order.printful_order_id o
  /\ Order.notes (pay_order pd o) = Order.notes o.
Proof. unfold pay_order. by destruct (pd_txHash pd). Qed.

Lemma confirm_payment_fields now pd p :
  Payment.status (confirm_payment now pd p) = "confirmed"
  /\ Payment.confirmed_at (confirm_payment now pd p) = Some now
  /\ Payment.detected_at (confirm_payment now pd p) = Payment.detected_at p
  /\ Payment.order_id (confirm_payment now pd p) = Payment.order_id p
  /\ Payment.cryptocurrency (confirm_payment now pd p) = Payment.cryptocurrency p
  /\ Payment.payment_address (confirm_payment now pd p)
     = Payment.payment_address p
  /\ Payment.expected_amount (confirm_payment now pd p)
     = Payment.expected_amount p
  /\ Payment.expires_at (confirm_payment now pd p) = Payment.expires_at p.
Proof.
  unfold confirm_payment.
  by destruct (pd_confirmations pd), (pd_txHash pd), (pd_received pd).
Qed.

(** The three columns the [confirmed] branch writes when the observation
    carries a value for them, and keeps when it does not. *)
Lemma confirm_payment_written now pd p :
  Payment.received_amount (confirm_payment now pd p)
  = match pd_received pd with
    | Absent => Payment.received_amount p
    | a => a
    end
  /\ Payment.transaction_hash (confirm_payment now pd p)
     = match pd_txHash pd with
       | Some h => Some h
       | None => Payment.transaction_hash p
       end
  /\ Payment.confirmations (confirm_payment now pd p)
     = match pd_confirmations pd with
       | Some n => Some n
       | None => Payment.confirmations p
       end.
Proof.
  unfold confirm_payment.
  by destruct (pd_confirmations pd), (pd_txHash pd), (pd_received pd).
Qed.

Lemma pay_order_transaction_hash pd o :
  Order.transaction_hash (pay_order pd o)
  = match pd_txHash pd with
    | Some h => Some h
    | None => Order.transaction_hash o
    end.
Proof. unfold pay_order. by destruct (pd_txHash pd). Qed.

(* --------------------------------------------------------------------- *)
(** ** Observations after confirmation *)
(* --------------------------------------------------------------------- *)

(** C1 (as the code has it).  For an order whose payment_status is
    [confirmed], [handlePaymentUpdate] applies a further observation
    without looking at the stored status: a [confirmed] observation leaves
    payment_status [confirmed], a [confirming] observation sets it to
    [confirming], and an [expired] observation sets payment_status to
    [expired] and order_status to [cancelled]. *)
Theorem handlePaymentUpdate_after_confirmed now printful orderId pd db o :
  orders db !! orderId = Some o ->
  Order.payment_status o = "confirmed" ->
  let db' := (OrderController.handlePaymentUpdate now printful orderId pd db).1 in
  (pd_status pd = "confirmed" ->
     payment_status_of orderId db' = Some "confirmed") /\
  (pd_status pd = "confirming" ->
     payment_status_of orderId db' = Some "confirming") /\
  (pd_status pd = "expired" ->
     payment_status_of orderId db' = Some "expired"
     /\ order_status_of orderId db' = Some "cancelled").
Proof.
  intros Ho Hp. cbv zeta. split; [|split]; intros Hs; [| |split].
  - destruct (update_accepted orderId pd db) eqn:Ha.
    + rewrite (handlePaymentUpdate_confirmed _ _ _ _ _ o Ho Hs Ha).
      unfold payment_status_of.
      destruct printful; cbn [fst];
        rewrite !Order_update_lookup, on_payment_lookup_order, Ho;
        cbn [fmap option_fmap option_map Order.payment_status
             Order.set_order_status Order.set_printful_order_id];
        by rewrite (proj1 (pay_order_fields pd o)).
    + rewrite (handlePaymentUpdate_rejected _ _ _ _ _ o Ho Hs Ha).
      unfold payment_status_of. cbn [fst]. by rewrite Ho, <- Hp.
  - rewrite (handlePaymentUpdate_confirming _ _ _ _ _ o Ho Hs).
    unfold payment_status_of. cbn [fst].
    by rewrite Order_update_lookup, on_payment_lookup_order, Ho.
  - rewrite (handlePaymentUpdate_expired _ _ _ _ _ o Ho Hs).
    unfold payment_status_of. cbn [fst].
    by rewrite Order_update_lookup, on_payment_lookup_order, Ho.
  - rewrite (handlePaymentUpdate_expired _ _ _ _ _ o Ho Hs).
    unfold order_status_of. cbn [fst].
    by rewrite Order_update_lookup, on_payment_lookup_order, Ho.
Qed.

Lemma handlePaymentUpdate_after_confirmed_witness :
  let db := sample_db "confirmed" "production" (Some "pf-1") (Num 5) in
  let db' := (OrderController.handlePaymentUpdate 0 None sample_id
                (observation "confirming" Absent) db).1 in
  (pd_status (observation "confirming" Absent) = "confirmed" ->
     payment_status_of sample_id db' = Some "confirmed") /\
  (pd_status (observation "confirming" Absent) = "confirming" ->
     payment_status_of sample_id db' = Some "confirming") /\
  (pd_status (observation "confirming" Absent) = "expired" ->
     payment_status_of sample_id db' = Some "expired"
     /\ order_status_of sample_id db' = Some "cancelled").
Proof.
  apply (handlePaymentUpdate_after_confirmed 0 None sample_id
           (observation "confirming" Absent)
           (sample_db "confirmed" "production" (Some "pf-1") (Num 5))
           (sample_order "confirmed" "production" (Some "pf-1")));
    reflexivity.
Defined.

(** C1 (as stated) fails: a late [expired] observation on a confirmed order
    moves the payment to [expired] and the order to [cancelled]; a late
    [confirming] observation moves payment_status back to [confirming]. *)
Lemma confirmed_is_reverted_by_late_observations :
  let db := sample_db "confirmed" "production" (Some "pf-1") (Num 5) in
  let after status :=
    (OrderController.handlePaymentUpdate 0 None sample_id
       (observation status Absent) db).1 in
  payment_status_of sample_id db = Some "confirmed"
  /\ payment_status_of sample_id (after "expired") = Some "expired"
  /\ order_status_of sample_id (after "expired") = Some "cancelled"
  /\ payment_row_status 0 (after "expired") = Some "expired"
  /\ payment_status_of sample_id (after "confirming") = Some "confirming"
  /\ payment_status_of sample_id (after "expired") <> Some "confirmed".
Proof. vm_compute. repeat split; congruence. Qed.

(* --------------------------------------------------------------------- *)
(** ** Redelivery of a [confirmed] observation *)
(* --------------------------------------------------------------------- *)

Lemma deliver_keeps_order now orderId deliveries : forall db,
  is_Some (orders db !! orderId) ->
  is_Some (orders (OrderController.deliver now orderId deliveries db).1 !! orderId).
Proof.
  induction deliveries as [|[pd printful] rest IH]; intros db Ho; [done|].
  simpl.
  pose proof (handlePaymentUpdate_keeps_order now printful orderId pd db Ho) as H1.
  destruct (OrderController.handlePaymentUpdate now printful orderId pd db)
    as [db1 e1]. simpl in H1.
  specialize (IH db1 H1).
  by destruct (OrderController.deliver now orderId rest db1) as [db2 e2].
Qed.

(** C2 (as the code has it).  [handlePaymentUpdate] does not look at
    printful_order_id: every application of a [confirmed] observation that
    the payment update accepts (its confirmations are not negative) submits
    the fulfillment-order creation once more, so [n] such deliveries submit
    it [n] times; when the provider answers, the application overwrites
    printful_order_id with the new id, sets order_status to [production]
    and requests another confirmation notification.  A [confirmed]
    observation with negative confirmations, for an order that has a
    payment row, is refused by the payment update: nothing is stored and
    nothing is submitted. *)
Theorem confirmed_redelivery_resubmits_fulfillment now orderId deliveries :
  forall db,
  is_Some (orders db !! orderId) ->
  Forall (fun d => pd_status d.1 = "confirmed"
                   /\ Payment.valid_confirmations (pd_confirmations d.1) = true)
         deliveries ->
  count is_fulfillment_request
    (OrderController.deliver now orderId deliveries db).2 = length deliveries
  /\ (forall pd printfulId,
        pd_status pd = "confirmed" ->
        Payment.valid_confirmations (pd_confirmations pd) = true ->
        let r := OrderController.handlePaymentUpdate now (Some printfulId)
                   orderId pd db in
        printful_id_of orderId r.1 = Some printfulId
        /\ order_status_of orderId r.1 = Some "production"
        /\ payment_status_of orderId r.1 = Some "confirmed"
        /\ count is_fulfillment_request r.2 = 1
        /\ SendOrderConfirmation orderId ∈ r.2)
  /\ (forall pd printful,
        pd_status pd = "confirmed" ->
        is_Some (Payment_findOne orderId db) ->
        Payment.valid_confirmations (pd_confirmations pd) = false ->
        OrderController.handlePaymentUpdate now printful orderId pd db
        = (db, [LogError "Payment update handling failed" orderId])).
Proof.
  induction deliveries as [|[pd printful] rest IH]; intros db Ho Hall.
  - split; [done|]. destruct Ho as [o Ho]. split.
    + intros pd printfulId Hs Hv.
      rewrite (handlePaymentUpdate_confirmed _ _ _ _ _ o Ho Hs
                 (update_accepted_valid _ _ _ Hv)).
      cbv zeta. cbn [fst snd].
      unfold printful_id_of, order_status_of, payment_status_of.
      rewrite !Order_update_lookup, on_payment_lookup_order, Ho.
      cbn [fmap option_fmap option_map mbind option_bind
           Order.printful_order_id Order.order_status Order.payment_status
           Order.set_order_status Order.set_printful_order_id].
      rewrite (proj1 (pay_order_fields pd o)).
      split; [done|]. split; [done|]. split; [done|]. split; [done|]. in_trace.
    + intros pd printful Hs [ip Hp] Hv.
      apply (handlePaymentUpdate_rejected _ _ _ _ _ o Ho Hs).
      unfold update_accepted. by rewrite Hp.
  - apply Forall_cons in Hall as [[Hs Hv] Hall]. simpl in Hs, Hv.
    split; [|by apply (IH db Ho Hall)].
    simpl.
    pose proof (handlePaymentUpdate_keeps_order now printful orderId pd db Ho) as H1.
    destruct Ho as [o Ho].
    pose proof (handlePaymentUpdate_confirmed_requests now printful _ _ _ o Ho Hs)
      as Hc.
    rewrite (update_accepted_valid _ _ _ Hv) in Hc.
    destruct (OrderController.handlePaymentUpdate now printful orderId pd db)
      as [db1 e1]. simpl in H1, Hc.
    destruct (IH db1 H1 Hall) as [IH1 _].
    destruct (OrderController.deliver now orderId rest db1) as [db2 e2].
    simpl in *. rewrite count_app. lia.
Qed.

Lemma confirmed_redelivery_resubmits_fulfillment_witness :
  count is_fulfillment_request
    (OrderController.deliver 0 sample_id
       [(observation "confirmed" (Num 5), Some "pf-1");
        (observation "confirmed" (Num 5), Some "pf-2")]
       (sample_db "pending" "pending_payment" None Absent)).2 = 2.
Proof.
  apply (confirmed_redelivery_resubmits_fulfillment 0 sample_id
           [(observation "confirmed" (Num 5), Some "pf-1");
            (observation "confirmed" (Num 5), Some "pf-2")]
           (sample_db "pending" "pending_payment" None Absent)).
  - vm_compute. eauto.
  - repeat constructor.
Defined.

(** C2 (as stated) fails: the second delivery of the same [confirmed]
    observation, to an order that already has a fulfillment reference,
    submits the creation again, replaces the reference and sends another
    confirmation. *)
Lemma redelivery_submits_fulfillment_twice :
  let pd := observation "confirmed" (Num 5) in
  let first := OrderController.handlePaymentUpdate 0 (Some "pf-1") sample_id pd
                 (sample_db "pending" "pending_payment" None Absent) in
  let second := OrderController.handlePaymentUpdate 0 (Some "pf-2") sample_id pd
                  first.1 in
  printful_id_of sample_id first.1 = Some "pf-1"
  /\ count is_fulfillment_request second.2 = 1
  /\ count is_fulfillment_request (first.2 ++ second.2) = 2
  /\ printful_id_of sample_id second.1 = Some "pf-2"
  /\ second.2 <> [].
Proof. vm_compute. repeat split; congruence. Qed.

(* --------------------------------------------------------------------- *)
(** ** Observations after expiry *)
(* --------------------------------------------------------------------- *)

(** C3 (as the code has it).  [handlePaymentUpdate] applies observations
    to an expired payment as to any other.  [confirming] moves the payment
    and the order's payment_status to [confirming].  [confirmed], when the
    payment update accepts it (its confirmations are not negative), moves
    the payment and the order's payment_status to [confirmed] and the order
    to [paid], and on to [production] when the fulfillment provider
    answers; with negative confirmations the update is refused and nothing
    changes.  [expired] leaves the payment [expired].  The admin's
    [verifyPayment] moves the payment to [confirmed] as well, and the order
    to [paid] (unless the order already reads [confirmed] and [force] is
    off). *)
Theorem handlePaymentUpdate_after_expired now printful orderId pd db o i p :
  orders db !! orderId = Some o ->
  Payment_findOne orderId db = Some (i, p) ->
  Payment.status p = "expired" ->
  let db' := (OrderController.handlePaymentUpdate now printful orderId pd db).1 in
  (pd_status pd = "confirming" ->
     payment_row_status i db' = Some "confirming"
     /\ payment_status_of orderId db' = Some "confirming")
  /\ (pd_status pd = "confirmed" ->
      Payment.valid_confirmations (pd_confirmations pd) = true ->
      payment_row_status i db' = Some "confirmed"
      /\ payment_status_of orderId db' = Some "confirmed"
      /\ order_status_of orderId db'
         = Some (match printful with
                 | Some _ => "production"
                 | None => "paid"
                 end))
  /\ (pd_status pd = "confirmed" ->
      Payment.valid_confirmations (pd_confirmations pd) = false ->
      db' = db)
  /\ (pd_status pd = "expired" -> payment_row_status i db' = Some "expired")
  /\ (forall transaction_hash amount force,
        Order.payment_status o <> "confirmed" \/ force = true ->
        let r := PaymentController.verifyPayment now orderId transaction_hash
                   amount force db in
        r.1.2 = PaymentController.Ok200
        /\ payment_row_status i r.1.1 = Some "confirmed"
        /\ payment_status_of orderId r.1.1 = Some "confirmed"
        /\ order_status_of orderId r.1.1 = Some "paid").
Proof.
  intros Ho Hp _. cbv zeta. split; [|split; [|split; [|split]]].
  - intros Hs. rewrite (handlePaymentUpdate_confirming _ _ _ _ _ o Ho Hs).
    cbn [fst]. rewrite payment_row_status_Order_update.
    rewrite (payment_row_status_on_payment _ _ _ i p Hp). split; [done|].
    unfold payment_status_of.
    by rewrite Order_update_lookup, on_payment_lookup_order, Ho.
  - intros Hs Hv.
    rewrite (handlePaymentUpdate_confirmed _ _ _ _ _ o Ho Hs
               (update_accepted_valid _ _ _ Hv)).
    unfold payment_status_of, order_status_of.
    destruct printful; cbn [fst]; rewrite !payment_row_status_Order_update;
      rewrite (payment_row_status_on_payment _ _ _ i p Hp);
      rewrite !Order_update_lookup, on_payment_lookup_order, Ho;
      cbn [fmap option_fmap option_map Order.payment_status Order.order_status
           Order.set_order_status Order.set_printful_order_id];
      rewrite (proj1 (confirm_payment_fields now pd p));
      rewrite ?(proj1 (pay_order_fields pd o));
      rewrite ?(proj1 (proj2 (pay_order_fields pd o))); done.
  - intros Hs Hv.
    rewrite (handlePaymentUpdate_rejected _ _ _ _ _ o Ho Hs); [done|].
    unfold update_accepted. by rewrite Hp.
  - intros Hs. rewrite (handlePaymentUpdate_expired _ _ _ _ _ o Ho Hs).
    cbn [fst]. rewrite payment_row_status_Order_update.
    by rewrite (payment_row_status_on_payment _ _ _ i p Hp).
  - intros tx amount force Hforce.
    unfold PaymentController.verifyPayment, Order_findOne. rewrite Ho, Hp.
    assert (String.eqb (Order.payment_status o) "confirmed" && negb force = false)
      as ->.
    { destruct Hforce as [H| ->]; [|by rewrite andb_false_r].
      apply String.eqb_neq in H. by rewrite H. }
    cbn [fst snd]. split; [done|].
    rewrite payment_row_status_Order_update.
    unfold payment_status_of, order_status_of. rewrite !Order_update_lookup.
    cbn [Payment_update orders]. rewrite Ho.
    apply Payment_findOne_Some in Hp as [Hp _].
    unfold payment_row_status, Payment_update. cbn [payments].
    by rewrite list_lookup_alter_eq, Hp.
Qed.

Lemma handlePaymentUpdate_after_expired_witness :
  payment_row_status 0
    (OrderController.handlePaymentUpdate 0 (Some "pf-1") sample_id
       (observation "confirmed" (Num 5))
       (sample_db "expired" "cancelled" None Absent)).1 = Some "confirmed".
Proof.
  refine (proj1 (proj1 (proj2
    (handlePaymentUpdate_after_expired 0 (Some "pf-1") sample_id
       (observation "confirmed" (Num 5))
       (sample_db "expired" "cancelled" None Absent)
       (sample_order "expired" "cancelled" None) 0
       (sample_payment "expired" Absent) _ _ _)) _ _));
    reflexivity.
Defined.

(** C3 (as stated) fails: a [confirmed] observation delivered after expiry
    is applied; the payment leaves [expired] and the cancelled order is
    reopened and sent to production. *)
Lemma expired_payment_is_reopened_by_late_confirmation :
  let db := sample_db "expired" "cancelled" None Absent in
  let r := OrderController.handlePaymentUpdate 0 (Some "pf-1") sample_id
             (observation "confirmed" (Num 5)) db in
  payment_row_status 0 db = Some "expired"
  /\ payment_row_status 0 r.1 = Some "confirmed"
  /\ payment_status_of sample_id r.1 = Some "confirmed"
  /\ order_status_of sample_id r.1 = Some "production"
  /\ count is_fulfillment_request r.2 = 1
  /\ payment_row_status 0 r.1 <> Some "expired".
Proof. vm_compute. repeat split; congruence. Qed.

(* --------------------------------------------------------------------- *)
(** ** A failing fulfillment provider *)
(* --------------------------------------------------------------------- *)

(** C6.  When a [confirmed] observation has been applied - the payment
    update went through, which it does unless the confirmations it carries
    are negative - and the fulfillment provider fails, the tables stay
    exactly as the two updates left them: the order reads payment_status
    [confirmed] and order_status [paid], the payment row reads [confirmed],
    the failure is logged, and no confirmation notification is sent. *)
Theorem fulfillment_failure_keeps_payment_confirmed now orderId pd db o :
  orders db !! orderId = Some o ->
  pd_status pd = "confirmed" ->
  Payment.valid_confirmations (pd_confirmations pd) = true ->
  let r := OrderController.handlePaymentUpdate now None orderId pd db in
  r.1 = Order_update orderId (pay_order pd)
          (on_payment orderId db (confirm_payment now pd))
  /\ payment_status_of orderId r.1 = Some "confirmed"
  /\ order_status_of orderId r.1 = Some "paid"
  /\ (forall i p, Payment_findOne orderId db = Some (i, p) ->
        payment_row_status i r.1 = Some "confirmed")
  /\ LogError "Printful order creation failed" orderId ∈ r.2
  /\ SendOrderConfirmation orderId ∉ r.2.
Proof.
  intros Ho Hs Hv. cbv zeta.
  rewrite (handlePaymentUpdate_confirmed _ _ _ _ _ o Ho Hs
             (update_accepted_valid _ _ _ Hv)). cbn [fst snd].
  split; [done|]. split; [|split; [|split; [|split]]].
  - unfold payment_status_of.
    rewrite Order_update_lookup, on_payment_lookup_order, Ho.
    cbn [fmap option_fmap option_map].
    by rewrite (proj1 (pay_order_fields pd o)).
  - unfold order_status_of.
    rewrite Order_update_lookup, on_payment_lookup_order, Ho.
    cbn [fmap option_fmap option_map].
    by rewrite (proj1 (proj2 (pay_order_fields pd o))).
  - intros i p Hp. rewrite payment_row_status_Order_update.
    rewrite (payment_row_status_on_payment _ _ _ i p Hp).
    by rewrite (proj1 (confirm_payment_fields now pd p)).
  - in_trace.
  - not_in_trace.
Qed.

Lemma fulfillment_failure_keeps_payment_confirmed_witness :
  let r := OrderController.handlePaymentUpdate 0 None sample_id
             (observation "confirmed" (Num 5))
             (sample_db "pending" "pending_payment" None Absent) in
  payment_status_of sample_id r.1 = Some "confirmed"
  /\ order_status_of sample_id r.1 = Some "paid".
Proof.
  pose proof (fulfillment_failure_keeps_payment_confirmed 0 sample_id
                (observation "confirmed" (Num 5))
                (sample_db "pending" "pending_payment" None Absent)
                (sample_order "pending" "pending_payment" None)
                eq_refl eq_refl eq_refl) as H.
  cbv zeta in *. tauto.
Defined.

(* --------------------------------------------------------------------- *)
(** ** Observations with an unknown status *)
(* --------------------------------------------------------------------- *)

(** C10.  An observation whose status is none of [confirmed],
    [confirming], [expired] changes neither table and requests nothing:
    the trace is empty when the order exists, and holds only the
    not-found log line when it does not. *)
Theorem handlePaymentUpdate_unknown_status now printful orderId pd db :
  pd_status pd <> "confirmed" ->
  pd_status pd <> "confirming" ->
  pd_status pd <> "expired" ->
  let r := OrderController.handlePaymentUpdate now printful orderId pd db in
  r.1 = db
  /\ (is_Some (orders db !! orderId) -> r.2 = [])
  /\ Forall (fun e => is_log e = true) r.2
  /\ count is_fulfillment_request r.2 = 0
  /\ count is_cancellation_notice r.2 = 0
  /\ count is_monitor_stop r.2 = 0
  /\ SendOrderConfirmation orderId ∉ r.2.
Proof.
  intros H1 H2 H3. cbv zeta.
  destruct (orders db !! orderId) as [o|] eqn:Ho.
  - rewrite (handlePaymentUpdate_other _ _ _ _ _ o Ho H1 H2 H3). cbn [fst snd].
    split; [done|]. split; [done|]. split; [constructor|].
    repeat (split; [done|]). not_in_trace.
  - rewrite (handlePaymentUpdate_not_found _ _ _ _ _ Ho). cbn [fst snd].
    split; [done|]. split; [by intros [? ?]|].
    split; [by repeat constructor|].
    repeat (split; [done|]). not_in_trace.
Qed.

Lemma handlePaymentUpdate_unknown_status_witness :
  (OrderController.handlePaymentUpdate 0 (Some "pf-1") sample_id
     (observation "detected" (Num 5))
     (sample_db "pending" "pending_payment" None Absent)).1
  = sample_db "pending" "pending_payment" None Absent.
Proof.
  apply (handlePaymentUpdate_unknown_status 0 (Some "pf-1") sample_id
           (observation "detected" (Num 5))
           (sample_db "pending" "pending_payment" None Absent));
    vm_compute; congruence.
Defined.

(* ===================================================================== *)
(** * Properties of [Payment.isAmountSufficient] *)
(* ===================================================================== *)

Lemma truthy_spec a :
  truthy a = true <->
  a <> Absent /\ (forall q, a = Num q -> ~ (q == 0)%Q).
Proof.
  destruct a as [|q|q]; simpl.
  - split; [discriminate|]. intros [H _]. by destruct H.
  - rewrite negb_true_iff. split.
    + intros Hq. split; [discriminate|]. intros q' [= <-] Hz.
      apply Qeq_bool_iff in Hz. congruence.
    + intros [_ H]. destruct (Qeq_bool q 0) eqn:E; [|done].
      apply Qeq_bool_iff in E. by destruct (H q eq_refl).
  - split; [|done]. intros _. split; discriminate.
Qed.

(** C9 (as the code has it).  [isAmountSufficient(t)] is true exactly
    when received_amount is truthy, that is neither null nor the number
    zero, and received_amount, as a number, is at least the bound the
    method computes: expected_amount * (1 - t/100) in the arithmetic of
    doubles, each of the three operations rounding its result.  The
    tolerance is the argument, 1 when it is left out. *)
Theorem isAmountSufficient_iff tolerance p :
  (Payment.isAmountSufficient tolerance p = true <->
   Payment.received_amount p <> Absent
   /\ (forall q, Payment.received_amount p = Num q -> ~ (q == 0)%Q)
   /\ (Double.mul (Double.round (Payment.expected_amount p))
         (Double.sub 1 (Double.div (default 1%Q tolerance) 100))
       <= parseFloat (Payment.received_amount p))%Q)
  /\ Payment.isAmountSufficient None p = Payment.isAmountSufficient (Some 1%Q) p.
Proof.
  split; [|reflexivity].
  unfold Payment.isAmountSufficient.
  destruct (truthy (Payment.received_amount p)) eqn:E; simpl.
  - apply truthy_spec in E. rewrite Qle_bool_iff. tauto.
  - split; [discriminate|]. intros (H1 & H2 & _).
    assert (truthy (Payment.received_amount p) = true) by by apply truthy_spec.
    congruence.
Qed.

(** The factor [1 - t/100] as computed lies between 0 and 1 for a
    tolerance between 0 and 100. *)
Lemma tolerance_factor_bounds t :
  (0 <= t)%Q -> (t <= 100)%Q ->
  (0 <= Double.sub 1 (Double.div t 100))%Q
  /\ (Double.sub 1 (Double.div t 100) <= 1)%Q.
Proof.
  intros H0 H1. unfold Double.sub, Double.div.
  assert (0 <= Double.round (t / 100) <= 1)%Q as [Ha Hb].
  { split.
    - apply round_sign. apply Qle_shift_div_l; [reflexivity|]. lra.
    - change 1%Q with (Double.round 1). apply round_mono.
      apply Qle_shift_div_r; [reflexivity|]. lra. }
  split.
  - apply round_sign. lra.
  - change 1%Q with (Double.round 1) at 2. apply round_mono. lra.
Qed.

(** Whatever the rounding does to the bound, a payment of the full
    expected amount is sufficient for every tolerance between 0 and 100
    percent. *)
Lemma isAmountSufficient_full_amount tolerance p :
  (0 <= Payment.expected_amount p)%Q ->
  (0 <= default 1%Q tolerance)%Q -> (default 1%Q tolerance <= 100)%Q ->
  truthy (Payment.received_amount p) = true ->
  (Double.round (Payment.expected_amount p)
   <= parseFloat (Payment.received_amount p))%Q ->
  Payment.isAmountSufficient tolerance p = true.
Proof.
  intros He H0 H1 Ht Hr. unfold Payment.isAmountSufficient. rewrite Ht.
  cbn [negb]. apply Qle_bool_iff.
  destruct (tolerance_factor_bounds _ H0 H1) as [Hf0 Hf1].
  set (f := Double.sub 1 (Double.div (default 1%Q tolerance) 100)) in *.
  assert (0 <= Double.round (Payment.expected_amount p))%Q as HE
    by by apply round_sign.
  pose proof (round_idempotent (Payment.expected_amount p)) as Hi.
  set (E := Double.round (Payment.expected_amount p)) in *.
  apply Qle_trans with E; [|exact Hr].
  apply Qle_trans with (Double.round E); [|lra].
  unfold Double.mul. apply round_mono. clearbody E f. nra.
Qed.

(** The computed bound is not the exact product: with 3.7 expected and the
    default tolerance the bound is 3.6630000000000003, so a received amount
    of 3.663, which meets the exact bound 3.7 * 0.99, is refused. *)
Lemma exact_threshold_is_refused :
  let p := Payment.mk sample_id "DCR" "DsSampleAddress" (37 # 10)
             (Dec (3663 # 1000)) None None "pending" 3600000 None None in
  (Payment.expected_amount p * (1 - 1 / 100) <= 3663 # 1000)%Q
  /\ Payment.isAmountSufficient None p = false
  /\ (Double.round (3663 # 1000)
      < Double.mul (Double.round (37 # 10)) (Double.sub 1 (Double.div 1 100)))%Q.
Proof.
  cbv zeta. split; [by apply Qle_bool_iff|]. split; [by vm_compute|].
  apply Qnot_le_lt. intros H. apply Qle_bool_iff in H. by vm_compute in H.
Qed.

(** C9 (as stated) fails at a received amount that is the number zero:
    it is non-null and meets the bound when the tolerance is 100 percent,
    yet the method answers [false]. *)
Lemma zero_received_amount_is_not_sufficient :
  let p := sample_payment "pending" (Num 0) in
  Payment.received_amount p <> Absent
  /\ (Payment.expected_amount p * (1 - 100 / 100)
      <= parseFloat (Payment.received_amount p))%Q
  /\ Payment.isAmountSufficient (Some 100%Q) p = false.
Proof.
  cbv zeta. split; [discriminate|]. split; [|reflexivity].
  apply Qle_bool_iff. reflexivity.
Qed.

(* ===================================================================== *)
(** * Properties of the polling monitor *)
(* ===================================================================== *)

Lemma or_zero_eq q : (DecredService.or_zero q == q)%Q.
Proof.
  unfold DecredService.or_zero. destruct (Qeq_bool q 0) eqn:E; [|reflexivity].
  apply Qeq_bool_iff in E. by rewrite E.
Qed.

Lemma Qgt_bool_iff a b : DecredService.Qgt_bool a b = true <-> (b < a)%Q.
Proof.
  unfold DecredService.Qgt_bool. rewrite negb_true_iff.
  rewrite <- not_true_iff_false, Qle_bool_iff. split.
  - apply Qnot_le_lt.
  - apply Qlt_not_le.
Qed.

Lemma Qlt_bool_iff a b : DecredService.Qlt_bool a b = true <-> (a < b)%Q.
Proof. apply Qgt_bool_iff. Qed.

Lemma flag_cases (b : bool) (P : Prop) :
  (b = true <-> P) -> (b = true /\ P) \/ (b = false /\ ~ P).
Proof. destruct b; intros H; [left|right]; split; try done; [tauto|]. intros HP. apply H in HP. discriminate. Qed.

(** What [checkPayment] computes when both RPC calls answer. *)
Lemma checkPayment_flags address expected r u txs :
  exists status,
    DecredService.checkPayment
      (DecredService.mkRpc (Some r) (Some u) txs) address expected
    = (Some status, [])
    /\ (DecredService.isComplete status = true <-> (expected <= r)%Q)
    /\ (DecredService.isPending status = true <-> (0 < u - r)%Q)
    /\ (DecredService.isUnderpaid status = true <-> (0 < u)%Q /\ (u < expected)%Q).
Proof.
  eexists. split; [reflexivity|].
  cbn [DecredService.isComplete DecredService.isPending
       DecredService.isUnderpaid].
  split; [|split].
  - rewrite Qle_bool_iff. by rewrite or_zero_eq.
  - rewrite Qgt_bool_iff. unfold Double.sub.
    rewrite (proj2 (round_sign _)). by rewrite !or_zero_eq.
  - rewrite andb_true_iff, Qgt_bool_iff, Qlt_bool_iff. by rewrite !or_zero_eq.
Qed.

(** The observation of a tick, from the flags. *)
Lemma poll_tick_observation address expected orderId r u txs s status :
  DecredService.checkPayment
    (DecredService.mkRpc (Some r) (Some u) txs) address expected
  = (Some status, []) ->
  pd_status <$> (DecredService.poll_tick
                   (DecredService.mkRpc (Some r) (Some u) txs)
                   address expected orderId s).1.2
  = if DecredService.isComplete status
    then (match txs with Some _ => Some "confirmed" | None => None end)
    else if DecredService.isPending status then Some "confirming"
    else None.
Proof.
  intros Hc. unfold DecredService.poll_tick. rewrite Hc.
  destruct (DecredService.isComplete status).
  - destruct (DecredService.stopMonitoring orderId s) as [s1 e1].
    by destruct txs.
  - by destruct (DecredService.isPending status).
Qed.

(** C8 (as the code has it).  On a tick whose amount queries answer, with
    [r] the confirmed amount and [u] the amount including unconfirmed
    funds: isComplete is [r >= expected]; a [confirmed] observation is
    emitted exactly when [r >= expected] and the transaction listing that
    follows answers, and when the listing fails nothing is emitted; a
    [confirming] observation is emitted exactly when the payment is not
    complete and the pending amount, the double [u - r], is positive, which
    it is exactly when [u > r]; and none is emitted when nothing has been
    received against a positive expected amount. *)
Theorem poll_tick_classification address expected orderId r u txs s :
  let rpc := DecredService.mkRpc (Some r) (Some u) txs in
  let emitted :=
    pd_status <$> (DecredService.poll_tick rpc address expected orderId s).1.2 in
  let pending :=
    Double.sub (DecredService.or_zero u) (DecredService.or_zero r) in
  (DecredService.isComplete <$> (DecredService.checkPayment rpc address expected).1
   = Some (Qle_bool expected (DecredService.or_zero r)))
  /\ (emitted = Some "confirmed" <-> (expected <= r)%Q /\ is_Some txs)
  /\ ((expected <= r)%Q -> txs = None -> emitted = None)
  /\ (emitted = Some "confirming" <-> ~ (expected <= r)%Q /\ (0 < pending)%Q)
  /\ ((0 < pending)%Q <-> (r < u)%Q)
  /\ (~ (expected <= r)%Q /\ ~ (r < u)%Q -> emitted = None)
  /\ ((0 < expected)%Q -> (r == 0)%Q -> (u == 0)%Q -> emitted = None).
Proof.
  cbv zeta. split; [reflexivity|].
  assert ((0 < Double.sub (DecredService.or_zero u) (DecredService.or_zero r))%Q
          <-> (r < u)%Q) as Hsign.
  { unfold Double.sub. rewrite (proj2 (round_sign _)), !or_zero_eq.
    split; intros; lra. }
  destruct (checkPayment_flags address expected r u txs)
    as (status & Hc & Hcomplete & Hpending & _).
  rewrite (poll_tick_observation _ _ _ _ _ _ _ _ Hc).
  assert ((0 < u - r)%Q <-> (r < u)%Q) as Hlt by (split; intros; lra).
  rewrite Hlt in Hpending. rewrite Hsign.
  destruct (flag_cases _ _ Hcomplete) as [[Ec Pc]|[Ec Pc]];
    destruct (flag_cases _ _ Hpending) as [[Ep Pp]|[Ep Pp]];
    rewrite ?Ec, ?Ep; destruct txs as [l|].
  all: split_and!; try (split; intros); try intros.
  all: try solve [done | discriminate | tauto | (split; [done|by eexists])].
  all: try by match goal with H : _ /\ is_Some None |- _ =>
                destruct H as [_ [? ?]] end.
  all: exfalso.
  all: try (match goal with H : (_ == 0)%Q |- _ => rewrite H in Pc end;
            by apply Qle_not_lt in Pc).
  all: repeat match goal with H : (_ == 0)%Q |- _ =>
                rewrite H in Pp; clear H end.
  all: by apply Qlt_irrefl in Pp.
Qed.

Lemma poll_tick_classification_witness :
  pd_status <$> (DecredService.poll_tick
                   (DecredService.mkRpc (Some 5%Q) (Some 5%Q) None)
                   "DsSampleAddress" 5 sample_id sample_service).1.2
  = None
  /\ pd_status <$> (DecredService.poll_tick
                      (DecredService.mkRpc (Some 0%Q) (Some 0%Q) (Some []))
                      "DsSampleAddress" 5 sample_id sample_service).1.2
     = None.
Proof.
  split.
  - refine (proj1 (proj2 (proj2
      (poll_tick_classification "DsSampleAddress" 5 sample_id 5 5 None
         sample_service))) _ _); [|reflexivity].
    apply Qle_bool_iff. reflexivity.
  - refine (proj2 (proj2 (proj2 (proj2 (proj2 (proj2
      (poll_tick_classification "DsSampleAddress" 5 sample_id 0 0 (Some [])
         sample_service)))))) _ _ _); reflexivity.
Defined.

(** C8 (as stated) fails on a tick whose transaction listing fails: the
    confirmed amount has reached the expected one and isComplete holds, yet
    no observation is emitted; the monitor of the order has been stopped
    by then, so no later tick will emit one either. *)
Lemma complete_payment_without_observation :
  let rpc := DecredService.mkRpc (Some 5%Q) (Some 5%Q) None in
  let tick := DecredService.poll_tick rpc "DsSampleAddress" 5 sample_id
                sample_service in
  (5 <= 5)%Q
  /\ DecredService.isComplete
       <$> (DecredService.checkPayment rpc "DsSampleAddress" 5).1 = Some true
  /\ tick.1.2 = None
  /\ DecredService.monitoredAddresses sample_service !! sample_id
     = Some (DecredService.mkMonitor 0 1)
  /\ DecredService.monitoredAddresses tick.1.1 !! sample_id = None.
Proof. cbv zeta. split; [by apply Qle_bool_iff|]. by vm_compute. Qed.

(* --------------------------------------------------------------------- *)
(** ** Insufficient funds *)
(* --------------------------------------------------------------------- *)

Lemma on_payment_row_status orderId db f i st :
  payment_row_status i (on_payment orderId db f) = Some st ->
  (exists p, st = Payment.status (f p)) \/ payment_row_status i db = Some st.
Proof.
  unfold on_payment.
  destruct (Payment_findOne orderId db) as [[j p]|]; [|by right].
  unfold Payment_update, payment_row_status. cbn [payments].
  destruct (decide (j = i)) as [->|Hne].
  - rewrite list_lookup_alter_eq.
    destruct (payments db !! i) as [p'|]; [|discriminate].
    intros [= <-]. left. eauto.
  - rewrite list_lookup_alter_ne by done. by right.
Qed.

(** The statuses [handlePaymentUpdate] can write into a payment row. *)
Lemma handlePaymentUpdate_row_status now printful orderId pd db i st :
  payment_row_status i
    (OrderController.handlePaymentUpdate now printful orderId pd db).1 = Some st ->
  st = "confirmed" \/ st = "confirming" \/ st = "expired"
  \/ payment_row_status i db = Some st.
Proof.
  destruct (orders db !! orderId) as [o|] eqn:Ho;
    [|rewrite (handlePaymentUpdate_not_found _ _ _ _ _ Ho); tauto].
  destruct (String.eqb_spec (pd_status pd) "confirmed") as [H1|H1].
  { destruct (update_accepted orderId pd db) eqn:Ha;
      [|rewrite (handlePaymentUpdate_rejected _ _ _ _ _ o Ho H1 Ha); tauto].
    rewrite (handlePaymentUpdate_confirmed _ _ _ _ _ o Ho H1 Ha).
    destruct printful; cbn [fst]; rewrite !payment_row_status_Order_update;
      intros [[p ->]| H]%on_payment_row_status;
      rewrite ?(proj1 (confirm_payment_fields now pd p)); tauto. }
  destruct (String.eqb_spec (pd_status pd) "confirming") as [H2|H2].
  { rewrite (handlePaymentUpdate_confirming _ _ _ _ _ o Ho H2).
    cbn [fst]. rewrite payment_row_status_Order_update.
    intros [[p ->]| H]%on_payment_row_status; tauto. }
  destruct (String.eqb_spec (pd_status pd) "expired") as [H3|H3].
  { rewrite (handlePaymentUpdate_expired _ _ _ _ _ o Ho H3).
    cbn [fst]. rewrite payment_row_status_Order_update.
    intros [[p ->]| H]%on_payment_row_status; tauto. }
  rewrite (handlePaymentUpdate_other _ _ _ _ _ o Ho H1 H2 H3). tauto.
Qed.

Lemma on_payment_row_cases orderId db f i :
  payment_row_status i (on_payment orderId db f) = payment_row_status i db
  \/ exists p, payment_row_status i (on_payment orderId db f)
               = Some (Payment.status (f p)).
Proof.
  destruct (payment_row_status i (on_payment orderId db f)) as [st|] eqn:E.
  - apply on_payment_row_status in E as [[p ->]|E]; [right; eauto|by left].
  - left. symmetry. revert E. unfold on_payment.
    destruct (Payment_findOne orderId db) as [[j p]|]; [|done].
    unfold payment_row_status, Payment_update. cbn [payments].
    destruct (decide (j = i)) as [->|Hne].
    + rewrite list_lookup_alter_eq. by destruct (payments db !! i).
    + by rewrite list_lookup_alter_ne.
Qed.

(** What a [confirming] observation does to the tables and the trace. *)
Lemma handlePaymentUpdate_confirming_frame now printful orderId pd db :
  pd_status pd = "confirming" ->
  let r := OrderController.handlePaymentUpdate now printful orderId pd db in
  order_status_of orderId r.1 = order_status_of orderId db
  /\ count is_fulfillment_request r.2 = 0
  /\ (forall i, payment_row_status i r.1 = payment_row_status i db
                \/ payment_row_status i r.1 = Some "confirming").
Proof.
  intros Hs. cbv zeta.
  destruct (orders db !! orderId) as [o|] eqn:Ho.
  - rewrite (handlePaymentUpdate_confirming _ _ _ _ _ o Ho Hs). cbn [fst snd].
    split; [|split; [done|]].
    + unfold order_status_of.
      by rewrite Order_update_lookup, on_payment_lookup_order, Ho.
    + intros i. rewrite payment_row_status_Order_update.
      destruct (on_payment_row_cases orderId db
                  (fun p => Payment.set_detected_at (Some now)
                              (Payment.set_status "confirming" p)) i)
        as [H|[p H]]; [by left|by right].
  - rewrite (handlePaymentUpdate_not_found _ _ _ _ _ Ho). cbn [fst snd].
    split; [done|]. split; [done|]. by left.
Qed.

(** C7 (as the code has it).  When the wallet reports a confirmed amount
    below the expected one (4.0 against 5.0), the payment never becomes
    [underpaid]: the poll tick emits no observation, or a [confirming] one
    while funds are unconfirmed, so the payment's status stays as it was or
    becomes [confirming]; order_status is unchanged (it remains
    [pending_payment]) and no fulfillment-order creation is requested.
    [checkPayment] computes isUnderpaid, the tick does not read it, and no
    observation makes [handlePaymentUpdate] write [underpaid]. *)
Theorem insufficient_amount_is_not_underpaid
    now printful address orderId s db expected received unconfirmed txs :
  (received < expected)%Q ->
  let rpc := DecredService.mkRpc (Some received) (Some unconfirmed) txs in
  let result := monitor_tick now printful rpc address expected orderId s db in
  order_status_of orderId result.1.2 = order_status_of orderId db
  /\ count is_fulfillment_request result.2 = 0
  /\ (forall i, payment_row_status i result.1.2 = payment_row_status i db
                \/ payment_row_status i result.1.2 = Some "confirming")
  /\ ((0 < unconfirmed)%Q -> (unconfirmed < expected)%Q ->
      DecredService.isUnderpaid
        <$> (DecredService.checkPayment rpc address expected).1 = Some true)
  /\ (~ (received < unconfirmed)%Q -> result = (s, db, []))
  /\ (forall pd i,
        payment_row_status i
          (OrderController.handlePaymentUpdate now printful orderId pd db).1
        = Some "underpaid" ->
        payment_row_status i db = Some "underpaid").
Proof.
  intros Hlt. cbv zeta.
  destruct (checkPayment_flags address expected received unconfirmed txs)
    as (status & Hc & Hcomplete & Hpending & Hunder).
  assert (DecredService.isComplete status = false) as Ec.
  { apply not_true_iff_false. rewrite Hcomplete. by apply Qlt_not_le. }
  assert (Hlast : forall pd i,
    payment_row_status i
      (OrderController.handlePaymentUpdate now printful orderId pd db).1
    = Some "underpaid" -> payment_row_status i db = Some "underpaid").
  { intros pd i H.
    apply handlePaymentUpdate_row_status in H as [H|[H|[H|H]]];
      [discriminate..|done]. }
  assert (Hflag : (0 < unconfirmed)%Q -> (unconfirmed < expected)%Q ->
    DecredService.isUnderpaid <$> Some status = Some true).
  { intros H1 H2. cbn. f_equal. by apply Hunder. }
  unfold monitor_tick, DecredService.poll_tick. rewrite Hc, Ec. cbn [fst].
  destruct (flag_cases _ _ Hpending) as [[Ep Pp]|[Ep Pp]]; rewrite Ep.
  - set (pd := mkPaymentData "confirming" _ _ _ _).
    pose proof (handlePaymentUpdate_confirming_frame now printful orderId pd db
                  eq_refl) as (H1 & H2 & H3).
    destruct (OrderController.handlePaymentUpdate now printful orderId pd db)
      as [db1 e1]. cbn [fst snd app] in *.
    split; [exact H1|]. split; [exact H2|]. split; [exact H3|].
    split; [exact Hflag|]. split; [|exact Hlast].
    intros H. destruct H. by rewrite <- (Qlt_minus_iff received unconfirmed) in Pp.
  - cbn [fst snd app]. split; [done|]. split; [done|].
    split; [by left|]. split; [exact Hflag|]. split; [done|exact Hlast].
Qed.

Lemma insufficient_amount_is_not_underpaid_witness :
  let result :=
    monitor_tick 0 (Some "pf-1")
      (DecredService.mkRpc (Some 4%Q) (Some 4%Q) (Some []))
      "DsSampleAddress" 5 sample_id sample_service
      (sample_db "pending" "pending_payment" None Absent) in
  order_status_of sample_id result.1.2
  = order_status_of sample_id (sample_db "pending" "pending_payment" None Absent).
Proof.
  refine (proj1 (insufficient_amount_is_not_underpaid 0 (Some "pf-1")
                   "DsSampleAddress" sample_id sample_service
                   (sample_db "pending" "pending_payment" None Absent)
                   5 4 4 (Some []) _)).
  reflexivity.
Defined.

(** C7 (as stated) fails: with 4.0 received against 5.0 expected the
    payment never reads [underpaid].  Confirmed funds of 4.0 leave it
    [pending]; unconfirmed funds of 4.0 make it [confirming]; and a
    [confirmed] observation carrying 4.0, as a webhook may deliver it, is
    accepted without looking at the amount: the payment reads [confirmed]
    and the fulfillment order is requested. *)
Lemma underpaid_is_never_recorded :
  let db := sample_db "pending" "pending_payment" None Absent in
  let tick confirmed unconfirmed :=
    monitor_tick 0 (Some "pf-1")
      (DecredService.mkRpc (Some confirmed) (Some unconfirmed) (Some []))
      "DsSampleAddress" 5 sample_id sample_service db in
  let webhook :=
    OrderController.handlePaymentUpdate 0 (Some "pf-1") sample_id
      (observation "confirmed" (Num 4)) db in
  payment_row_status 0 (tick 4%Q 4%Q).1.2 = Some "pending"
  /\ payment_row_status 0 (tick 4%Q 4%Q).1.2 <> Some "underpaid"
  /\ payment_row_status 0 (tick 0%Q 4%Q).1.2 = Some "confirming"
  /\ order_status_of sample_id (tick 0%Q 4%Q).1.2 = Some "pending_payment"
  /\ payment_row_status 0 webhook.1 = Some "confirmed"
  /\ order_status_of sample_id webhook.1 = Some "production"
  /\ count is_fulfillment_request webhook.2 = 1.
Proof. vm_compute. repeat split; congruence. Qed.

(* ===================================================================== *)
(** * The monitor registry *)
(* ===================================================================== *)

Section Registry.

Import DecredService.

Lemma registered_spec s orderId h :
  registered s orderId h = true <->
  exists m, monitoredAddresses s !! orderId = Some m
            /\ (h = checkInterval m \/ h = timeout m).
Proof.
  unfold registered. destruct (monitoredAddresses s !! orderId) as [m|].
  - rewrite orb_true_iff, !Nat.eqb_eq. split.
    + intros H. exists m. tauto.
    + intros (m' & [= <-] & H). tauto.
  - split; [discriminate|]. intros (m & H & _). discriminate.
Qed.

Lemma stopMonitoring_state orderId s :
  (stopMonitoring orderId s).1
  = mk (minConfirmations s) (delete orderId (monitoredAddresses s))
       (timers_after_stop orderId s) (next_timer s).
Proof.
  unfold stopMonitoring, timers_after_stop.
  destruct (monitoredAddresses s !! orderId) as [m|] eqn:E; [reflexivity|].
  cbn [fst]. rewrite delete_id by done. by destruct s.
Qed.

Lemma startMonitoring_state address expected orderId tm s :
  (startMonitoring address expected orderId tm s).1
  = mk (minConfirmations s)
       (<[orderId := mkMonitor (next_timer s) (S (next_timer s))]>
          (delete orderId (monitoredAddresses s)))
       (<[S (next_timer s) :=
            TimeoutTimer orderId (default 60%Z tm * 60 * 1000)]>
          (<[next_timer s := IntervalTimer address expected orderId 30000]>
             (timers_after_stop orderId s)))
       (S (S (next_timer s))).
Proof.
  unfold startMonitoring.
  pose proof (stopMonitoring_state orderId s) as H.
  destruct (stopMonitoring orderId s) as [s1 e1]. cbn [fst] in H. subst s1.
  reflexivity.
Qed.

Lemma timers_after_stop_Some orderId s h tmr :
  timers_after_stop orderId s !! h = Some tmr ->
  timers s !! h = Some tmr /\ registered s orderId h = false.
Proof.
  unfold timers_after_stop, registered.
  destruct (monitoredAddresses s !! orderId) as [m|]; [|done].
  intros H. apply lookup_delete_Some in H as [H1 H].
  apply lookup_delete_Some in H as [H2 H].
  split; [done|]. apply orb_false_iff. rewrite !Nat.eqb_neq. split; congruence.
Qed.

End Registry.

Section RegistryInvariant.

Import DecredService.

Lemma wf_new_service minConf : wf (new_service minConf).
Proof. split; apply map_Forall_empty. Qed.

Lemma wf_stopMonitoring orderId s : wf s -> wf (stopMonitoring orderId s).1.
Proof.
  intros [Ht Hr]. rewrite stopMonitoring_state.
  split; cbn [timers monitoredAddresses next_timer].
  - intros h tmr Hh.
    apply timers_after_stop_Some in Hh as [Hh Hnot].
    destruct (Ht h tmr Hh) as [Hlt Hreg]. split; [done|].
    destruct (decide (timer_owner tmr = orderId)) as [Heq|Hne];
      [rewrite Heq in Hreg; congruence|].
    unfold registered in *. cbn [monitoredAddresses].
    by rewrite lookup_delete_ne.
  - by apply map_Forall_delete.
Qed.

Lemma wf_startMonitoring address expected orderId tm s :
  wf s -> wf (startMonitoring address expected orderId tm s).1.
Proof.
  intros Hwf. pose proof (wf_stopMonitoring orderId s Hwf) as [Ht Hr].
  rewrite stopMonitoring_state in Ht, Hr.
  cbn [timers monitoredAddresses next_timer] in Ht, Hr.
  rewrite startMonitoring_state.
  split; cbn [timers monitoredAddresses next_timer].
  - intros h tmr Hh. unfold registered. cbn [monitoredAddresses].
    apply lookup_insert_Some in Hh as [[<- <-]|[Hne1 Hh]].
    { split; [lia|]. cbn [timer_owner]. rewrite lookup_insert_eq.
      cbn [checkInterval timeout]. by rewrite Nat.eqb_refl, orb_true_r. }
    apply lookup_insert_Some in Hh as [[<- <-]|[Hne2 Hh]].
    { split; [lia|]. cbn [timer_owner]. rewrite lookup_insert_eq.
      cbn [checkInterval timeout]. by rewrite Nat.eqb_refl. }
    destruct (Ht h tmr Hh) as [Hlt Hreg]. split; [lia|].
    unfold registered in Hreg. cbn [monitoredAddresses] in Hreg.
    destruct (decide (timer_owner tmr = orderId)) as [Heq|Hne].
    + by rewrite Heq, lookup_delete_eq in Hreg.
    + rewrite lookup_insert_ne by done. exact Hreg.
  - apply map_Forall_insert_2; [cbn [checkInterval timeout]; lia|].
    eapply map_Forall_impl; [exact Hr|]. cbn beta. lia.
Qed.

End RegistryInvariant.

(** C5.  In a service whose registry and timer table agree, after
    [startMonitoring] the registry holds one entry for the order, made of
    two new live timers; these two are the only pending timers of the
    order, the handles of a prior monitor are cancelled, and other orders
    keep their entries.  [stopMonitoring] removes the entry of the order
    and cancels both its polling interval and its expiry timeout. *)
Theorem startMonitoring_singleton address expected orderId tm s :
  wf s ->
  let s' := (DecredService.startMonitoring address expected orderId tm s).1 in
  let m := DecredService.mkMonitor (DecredService.next_timer s)
                                   (S (DecredService.next_timer s)) in
  DecredService.monitoredAddresses s' !! orderId = Some m
  /\ (forall k, k <> orderId ->
        DecredService.monitoredAddresses s' !! k
        = DecredService.monitoredAddresses s !! k)
  /\ DecredService.timers s' !! DecredService.checkInterval m
     = Some (DecredService.IntervalTimer address expected orderId 30000)
  /\ DecredService.timers s' !! DecredService.timeout m
     = Some (DecredService.TimeoutTimer orderId (default 60%Z tm * 60 * 1000))
  /\ (forall h tmr,
        DecredService.timers s' !! h = Some tmr ->
        timer_owner tmr = orderId ->
        h = DecredService.checkInterval m \/ h = DecredService.timeout m)
  /\ (forall m0,
        DecredService.monitoredAddresses s !! orderId = Some m0 ->
        DecredService.timers s' !! DecredService.checkInterval m0 = None
        /\ DecredService.timers s' !! DecredService.timeout m0 = None)
  /\ (forall m0,
        DecredService.monitoredAddresses s !! orderId = Some m0 ->
        let s2 := (DecredService.stopMonitoring orderId s).1 in
        DecredService.monitoredAddresses s2 !! orderId = None
        /\ DecredService.timers s2 !! DecredService.checkInterval m0 = None
        /\ DecredService.timers s2 !! DecredService.timeout m0 = None
        /\ (forall k, k <> orderId ->
              DecredService.monitoredAddresses s2 !! k
              = DecredService.monitoredAddresses s !! k)).
Proof.
  intros [Ht Hr]. cbv zeta. rewrite startMonitoring_state.
  cbn [DecredService.timers DecredService.monitoredAddresses
       DecredService.next_timer DecredService.checkInterval
       DecredService.timeout].
  split; [by rewrite lookup_insert_eq|].
  split; [intros k Hk; by rewrite lookup_insert_ne, lookup_delete_ne|].
  split; [rewrite lookup_insert_ne by lia; by rewrite lookup_insert_eq|].
  split; [by rewrite lookup_insert_eq|].
  split; [|split].
  - intros h tmr Hh Ho.
    apply lookup_insert_Some in Hh as [[<- _]|[Hne1 Hh]]; [by right|].
    apply lookup_insert_Some in Hh as [[<- _]|[Hne2 Hh]]; [by left|].
    apply timers_after_stop_Some in Hh as [Hh Hnot].
    destruct (Ht h tmr Hh) as [_ Hreg]. congruence.
  - intros m0 Hm0. destruct (Hr orderId m0 Hm0) as [H1 H2].
    unfold timers_after_stop. rewrite Hm0.
    rewrite !lookup_insert_ne by lia. split.
    + destruct (decide (DecredService.timeout m0 = DecredService.checkInterval m0))
        as [->|Hne]; [by rewrite lookup_delete_eq|].
      by rewrite lookup_delete_ne, lookup_delete_eq.
    + by rewrite lookup_delete_eq.
  - intros m0 Hm0. rewrite stopMonitoring_state.
    cbn [DecredService.timers DecredService.monitoredAddresses].
    unfold timers_after_stop. rewrite Hm0.
    split; [by rewrite lookup_delete_eq|]. split; [|split].
    + destruct (decide (DecredService.timeout m0 = DecredService.checkInterval m0))
        as [->|Hne]; [by rewrite lookup_delete_eq|].
      by rewrite lookup_delete_ne, lookup_delete_eq.
    + by rewrite lookup_delete_eq.
    + intros k Hk. by rewrite lookup_delete_ne.
Qed.

Lemma startMonitoring_singleton_witness :
  DecredService.monitoredAddresses
    (DecredService.startMonitoring "DsSampleAddress" 5 sample_id (Some 30%Z)
       sample_service).1 !! sample_id
  = Some (DecredService.mkMonitor 2 3).
Proof.
  refine (proj1 (startMonitoring_singleton "DsSampleAddress" 5 sample_id
                   (Some 30%Z) sample_service _)).
  change (wf sample_service).
  apply (bool_decide_unpack (wf sample_service)). vm_compute. exact I.
Defined.

(* ===================================================================== *)
(** * The expiry sweep *)
(* ===================================================================== *)

Section Sweep.

Import PaymentController.

Lemma stopMonitoring_trace kind orderId svc :
  kind (LogPayment "monitoring_stopped" orderId) = false ->
  count kind (DecredService.stopMonitoring orderId svc).2 = 0.
Proof.
  intros Hk. unfold DecredService.stopMonitoring, count.
  destruct (DecredService.monitoredAddresses svc !! orderId); [|done].
  cbn. by rewrite Hk.
Qed.

(** One iteration of the loop, as one equation. *)
Lemma sweep_step_eq svc db e ip :
  sweep_step (svc, db, e) ip
  = ((DecredService.stopMonitoring (Payment.order_id ip.2) svc).1,
     Order_update (Payment.order_id ip.2) cancel_order
       (Payment_update ip.1 (Payment.set_status "expired") db),
     e ++ [CallStopMonitoring (Payment.order_id ip.2)]
       ++ (DecredService.stopMonitoring (Payment.order_id ip.2) svc).2
       ++ [LogPayment "payment_expired_cleanup" (Payment.order_id ip.2)]).
Proof.
  unfold sweep_step.
  by destruct (DecredService.stopMonitoring (Payment.order_id ip.2) svc).
Qed.

(** A payment row after the loop: expired when it was selected. *)
Lemma sweep_payments l : forall svc db e i,
  payments (foldl sweep_step (svc, db, e) l).1.2 !! i
  = if decide (i ∈ l.*1)
    then Payment.set_status "expired" <$> payments db !! i
    else payments db !! i.
Proof.
  induction l as [|ip l IH]; intros svc db e i.
  - cbn [foldl fst snd]. by rewrite decide_False by apply not_elem_of_nil.
  - cbn [foldl]. rewrite sweep_step_eq, IH.
    cbn [Order_update Payment_update payments fmap list_fmap].
    destruct (decide (ip.1 = i)) as [<-|Hne].
    + rewrite list_lookup_alter_eq, (decide_True _ _ (list_elem_of_here _ _)).
      case_decide; [|done].
      by destruct (payments db !! ip.1).
    + rewrite list_lookup_alter_ne by done.
      apply decide_ext. rewrite elem_of_cons.
      split; [tauto|]. intros [H|H]; [congruence|done].
Qed.

(** An order after the loop: cancelled when one of its payments was
    selected. *)
Lemma sweep_orders l : forall svc db e k,
  orders (foldl sweep_step (svc, db, e) l).1.2 !! k
  = if decide (k ∈ (fun ip => Payment.order_id ip.2) <$> l)
    then cancel_order <$> orders db !! k
    else orders db !! k.
Proof.
  induction l as [|ip l IH]; intros svc db e k.
  - cbn [foldl fst snd]. by rewrite decide_False by apply not_elem_of_nil.
  - cbn [foldl]. rewrite sweep_step_eq, IH.
    cbn [fmap list_fmap].
    destruct (decide (Payment.order_id ip.2 = k)) as [<-|Hne].
    + rewrite Order_update_lookup, (decide_True _ _ (list_elem_of_here _ _)).
      cbn [Payment_update orders].
      case_decide; [|done].
      by destruct (orders db !! _).
    + rewrite Order_update_lookup_ne by done.
      apply decide_ext. rewrite elem_of_cons.
      split; [tauto|]. intros [H|H]; [congruence|done].
Qed.

(** The trace of the loop: one stop request per selected payment, and
    no request of a kind the loop does not make. *)
Lemma sweep_trace kind l : forall svc db e,
  kind (LogPayment "monitoring_stopped" "") = false ->
  (forall a b, kind (LogPayment a b) = kind (LogPayment "monitoring_stopped" "")) ->
  count kind (foldl sweep_step (svc, db, e) l).2
  = count kind e
    + count kind ((fun ip => CallStopMonitoring (Payment.order_id ip.2)) <$> l).
Proof.
  intros svc db e Hk Hlog. revert svc db e.
  induction l as [|ip l IH]; intros svc db e.
  - cbn [foldl snd fmap list_fmap]. change (count kind []) with 0. lia.
  - cbn [foldl]. rewrite sweep_step_eq, IH, !count_app.
    rewrite stopMonitoring_trace by (by rewrite Hlog).
    cbn [fmap list_fmap]. rewrite !count_cons, Hlog, Hk.
    change (count kind []) with 0. lia.
Qed.

Lemma sweep_stop_requested l : forall svc db e ip,
  ip ∈ l ->
  CallStopMonitoring (Payment.order_id ip.2)
    ∈ (foldl sweep_step (svc, db, e) l).2.
Proof.
  assert (grows : forall l svc db e x,
            x ∈ e -> x ∈ (foldl sweep_step (svc, db, e) l).2).
  { clear. induction l as [|ip l IH]; intros svc db e x Hx; [done|].
    cbn [foldl]. rewrite sweep_step_eq. apply IH.
    apply elem_of_app. by left. }
  induction l as [|ip' l IH]; intros svc db e ip Hin.
  - by apply elem_of_nil in Hin.
  - cbn [foldl]. rewrite sweep_step_eq.
    apply elem_of_cons in Hin as [->|Hin]; [|by apply IH].
    apply grows. apply elem_of_app. right. apply list_elem_of_here.
Qed.

Lemma Payment_findAll_elem sel db i p :
  payments db !! i = Some p ->
  sel p = true ->
  (i, p) ∈ Payment_findAll sel db.
Proof.
  intros Hi Hsel. unfold Payment_findAll.
  apply list_elem_of_In, filter_In. split; [|done].
  apply list_elem_of_In. by apply (elem_of_lookup_imap_2 pair).
Qed.

End Sweep.

Lemma stop_requests_hold_no_notice (l : list (nat * Payment.t)) :
  count is_cancellation_notice
    ((fun ip => CallStopMonitoring (Payment.order_id ip.2)) <$> l) = 0.
Proof.
  induction l as [|ip l IH]; [done|].
  cbn [fmap list_fmap]. rewrite count_cons. exact IH.
Qed.

Lemma cleanupExpiredPayments_eq now svc db :
  PaymentController.cleanupExpiredPayments now svc db
  = let expiredPayments :=
      PaymentController.Payment_findAll
        (PaymentController.expired_pending now) db in
    let r := foldl PaymentController.sweep_step (svc, db, []) expiredPayments in
    (r.1.1, r.1.2,
     r.2 ++ [CryptoRateCleanup 24; LogInfo "Payment cleanup complete"],
     length expiredPayments).
Proof.
  unfold PaymentController.cleanupExpiredPayments. cbv zeta.
  by destruct (foldl PaymentController.sweep_step (svc, db, []) _) as [[? ?] ?].
Qed.

(** C4 (as the code has it).  For a pending payment past its expiry, the
    sweep and an [expired] observation through [handlePaymentUpdate] leave
    the same payment row and the same order record: payment [expired],
    order payment_status [expired] and order_status [cancelled].  Their
    requests differ: the sweep asks the monitor to stop, which
    [handlePaymentUpdate] does not; [handlePaymentUpdate] requests the
    cancellation notification. *)
Theorem sweep_and_expired_observation now printful svc db orderId o i p :
  orders db !! orderId = Some o ->
  Payment_findOne orderId db = Some (i, p) ->
  PaymentController.expired_pending now p = true ->
  let sweep := PaymentController.cleanupExpiredPayments now svc db in
  let live := OrderController.handlePaymentUpdate now printful orderId
                (observation "expired" Absent) db in
  payments sweep.1.1.2 !! i = payments live.1 !! i
  /\ orders sweep.1.1.2 !! orderId = orders live.1 !! orderId
  /\ payment_row_status i live.1 = Some "expired"
  /\ payment_status_of orderId live.1 = Some "expired"
  /\ order_status_of orderId live.1 = Some "cancelled"
  /\ CallStopMonitoring orderId ∈ sweep.1.2
  /\ count is_cancellation_notice live.2 = 1
  /\ count is_monitor_stop live.2 = 0.
Proof.
  intros Ho Hp Hsel. cbv zeta.
  rewrite cleanupExpiredPayments_eq. cbv zeta. cbn [fst snd].
  rewrite (handlePaymentUpdate_expired now orderId db printful
             (observation "expired" Absent) o Ho eq_refl).
  cbn [fst snd].
  pose proof (Payment_findOne_Some _ _ _ _ Hp) as [Hi Hoid].
  pose proof (Payment_findAll_elem _ _ _ _ Hi Hsel) as Hin.
  split; [|split; [|split; [|split; [|split; [|split; [|split]]]]]].
  - rewrite sweep_payments.
    rewrite decide_True by (by apply (list_elem_of_fmap_2 fst) in Hin).
    unfold on_payment. rewrite Hp. cbn [Order_update Payment_update payments].
    by rewrite list_lookup_alter_eq.
  - rewrite sweep_orders, decide_True.
    + by rewrite Order_update_lookup, on_payment_lookup_order.
    + apply (list_elem_of_fmap_2 (fun ip => Payment.order_id ip.2)) in Hin.
      cbn [snd] in Hin. by rewrite Hoid in Hin.
  - rewrite payment_row_status_Order_update.
    by rewrite (payment_row_status_on_payment _ _ _ i p Hp).
  - unfold payment_status_of.
    by rewrite Order_update_lookup, on_payment_lookup_order, Ho.
  - unfold order_status_of.
    by rewrite Order_update_lookup, on_payment_lookup_order, Ho.
  - apply elem_of_app. left. rewrite <- Hoid.
    by apply (sweep_stop_requested _ svc db [] (i, p)).
  - reflexivity.
  - reflexivity.
Qed.

(** The loop of the sweep sends no cancellation notification. *)
Lemma sweep_sends_no_cancellation_notice now svc db :
  count is_cancellation_notice
    (PaymentController.cleanupExpiredPayments now svc db).1.2 = 0.
Proof.
  rewrite cleanupExpiredPayments_eq. cbv zeta. cbn [fst snd].
  rewrite count_app, sweep_trace by done.
  by rewrite stop_requests_hold_no_notice.
Qed.

Lemma sweep_and_expired_observation_witness :
  let db := sample_db "pending" "pending_payment" None Absent in
  payments (PaymentController.cleanupExpiredPayments 3600001 sample_service db).1.1.2
    !! 0
  = payments (OrderController.handlePaymentUpdate 3600001 None sample_id
                (observation "expired" Absent) db).1 !! 0.
Proof.
  refine (proj1 (sweep_and_expired_observation 3600001 None sample_service
                   (sample_db "pending" "pending_payment" None Absent)
                   sample_id (sample_order "pending" "pending_payment" None)
                   0 (sample_payment "pending" Absent) _ _ _));
    reflexivity.
Defined.

(** C4 (as stated) fails on the requests: for the sample order, pending
    and past its expiry, the sweep asks the monitor to stop and sends no
    cancellation notification, while the [expired] observation through
    [handlePaymentUpdate] sends the notification and makes no stop request;
    the monitor's own timeout path sends the notification too.  The
    payment and order statuses agree. *)
Lemma sweep_requests_differ_from_expired_observation :
  let db := sample_db "pending" "pending_payment" None Absent in
  let sweep := PaymentController.cleanupExpiredPayments 3600001 sample_service db in
  let live := OrderController.handlePaymentUpdate 3600001 None sample_id
                (observation "expired" Absent) db in
  let timeout := monitor_timeout 3600001 None sample_id sample_service db in
  PaymentController.expired_pending 3600001 (sample_payment "pending" Absent) = true
  /\ count is_cancellation_notice sweep.1.2 = 0
  /\ count is_cancellation_notice live.2 = 1
  /\ count is_cancellation_notice timeout.2 = 1
  /\ count is_monitor_stop sweep.1.2 = 1
  /\ count is_monitor_stop live.2 = 0
  /\ payment_row_status 0 sweep.1.1.2 = payment_row_status 0 live.1
  /\ order_status_of sample_id sweep.1.1.2 = order_status_of sample_id live.1.
Proof. vm_compute. repeat split. Qed.

(* ===================================================================== *)
(** * More on the Payment model *)
(* ===================================================================== *)

(** A larger tolerance accepts every payment a smaller one accepts: for a
    non-negative expected amount, [isAmountSufficient(t)] implies
    [isAmountSufficient(t')] whenever [t <= t']. *)
Theorem isAmountSufficient_monotone t t' p :
  (0 <= Payment.expected_amount p)%Q ->
  (t <= t')%Q ->
  Payment.isAmountSufficient (Some t) p = true ->
  Payment.isAmountSufficient (Some t') p = true.
Proof.
  intros He Ht. unfold Payment.isAmountSufficient.
  cbn [default from_option id].
  destruct (negb (truthy (Payment.received_amount p))); [done|].
  rewrite !Qle_bool_iff. intros H.
  eapply Qle_trans; [|exact H].
  assert (0 <= Double.round (Payment.expected_amount p))%Q as HE
    by by apply round_sign.
  assert (Double.sub 1 (Double.div t' 100) <= Double.sub 1 (Double.div t 100))%Q
    as Hf.
  { unfold Double.sub, Double.div. apply round_mono.
    assert (Double.round (t / 100) <= Double.round (t' / 100))%Q.
    { apply round_mono. unfold Qdiv.
      apply Qmult_le_compat_r; [exact Ht|]. discriminate. }
    lra. }
  unfold Double.mul. apply round_mono.
  set (E := Double.round (Payment.expected_amount p)) in *.
  set (f := Double.sub 1 (Double.div t 100)) in *.
  set (f' := Double.sub 1 (Double.div t' 100)) in *.
  clearbody E f f'. nra.
Qed.

Lemma isAmountSufficient_monotone_witness :
  Payment.isAmountSufficient (Some 25%Q) (sample_payment "pending" (Num 4)) = true.
Proof.
  apply (isAmountSufficient_monotone 20 25 (sample_payment "pending" (Num 4)));
    [discriminate|discriminate|reflexivity].
Defined.

(** With no tolerance, sufficiency is the sign of the difference: for a
    positive expected amount, [isAmountSufficient(0)] holds exactly when
    [getPaymentDifference()] is not negative. *)
Theorem isAmountSufficient_zero_tolerance p :
  (0 < Payment.expected_amount p)%Q ->
  Payment.isAmountSufficient (Some 0%Q) p = true <->
  (0 <= Payment.getPaymentDifference p)%Q.
Proof.
  intros He. unfold Payment.isAmountSufficient, Payment.getPaymentDifference.
  cbn [default from_option id parseFloat].
  assert (0 < Double.round (Payment.expected_amount p))%Q as HE
    by by apply round_sign.
  destruct (negb (truthy (Payment.received_amount p))).
  - split; [discriminate|]. intros H. exfalso. lra.
  - rewrite Qle_bool_iff.
    assert (Double.sub 1 (Double.div 0 100) = 1%Q) as -> by reflexivity.
    unfold Double.mul, Double.sub.
    rewrite (round_comp _ (Double.round (Payment.expected_amount p)))
      by apply Qmult_1_r.
    rewrite round_idempotent, (proj1 (round_sign _)).
    split; intros; lra.
Qed.

Lemma isAmountSufficient_zero_tolerance_witness :
  Payment.isAmountSufficient (Some 0%Q) (sample_payment "pending" (Num 4)) = true
  <-> (0 <= Payment.getPaymentDifference (sample_payment "pending" (Num 4)))%Q.
Proof.
  apply (isAmountSufficient_zero_tolerance (sample_payment "pending" (Num 4))).
  reflexivity.
Defined.

(* ===================================================================== *)
(** * More on [checkPayment] *)
(* ===================================================================== *)

(** The report of [checkPayment] is consistent.  Its pending amount is the
    double [total - received]; it is positive, zero or negative as the
    total is above, equal to or below the confirmed amount, and isPending
    says that it is positive.  When the wallet's confirmed amount is part
    of its total, a payment is never both complete and underpaid. *)
Theorem checkPayment_consistent address expected r u txs :
  exists status,
    (DecredService.checkPayment
       (DecredService.mkRpc (Some r) (Some u) txs) address expected).1
    = Some status
    /\ DecredService.pending status
       = Double.sub (DecredService.total status) (DecredService.received status)
    /\ ((0 < DecredService.pending status)%Q
        <-> (DecredService.received status < DecredService.total status)%Q)
    /\ ((DecredService.pending status == 0)%Q
        <-> (DecredService.received status == DecredService.total status)%Q)
    /\ (DecredService.isPending status = true
        <-> (DecredService.received status < DecredService.total status)%Q)
    /\ ((r <= u)%Q ->
        ~ (DecredService.isComplete status = true
           /\ DecredService.isUnderpaid status = true))
    /\ DecredService.expected status = expected.
Proof.
  eexists. split; [reflexivity|].
  cbn [DecredService.received DecredService.pending DecredService.total
       DecredService.isPending DecredService.isComplete
       DecredService.isUnderpaid DecredService.expected].
  set (R := DecredService.or_zero r). set (U := DecredService.or_zero u).
  assert ((0 < Double.sub U R)%Q <-> (R < U)%Q) as Hpos.
  { unfold Double.sub. rewrite (proj2 (round_sign _)). split; intros; lra. }
  assert ((0 <= Double.sub U R)%Q <-> (R <= U)%Q) as Hnn.
  { unfold Double.sub. rewrite (proj1 (round_sign _)). split; intros; lra. }
  split; [reflexivity|]. split; [exact Hpos|]. split; [|split; [|split]].
  - split; intros H.
    + apply Qle_antisym; [apply Hnn; lra|].
      apply Qnot_lt_le. intros H'. apply Hpos in H'. lra.
    + unfold Double.sub. apply Qeq_bool_iff.
      rewrite (round_of_zero (U - R)) by lra. reflexivity.
  - by rewrite Qgt_bool_iff.
  - intros Hru. rewrite Qle_bool_iff, andb_true_iff, Qgt_bool_iff, Qlt_bool_iff.
    unfold R, U. rewrite !or_zero_eq. intros [H1 [_ H2]]. lra.
  - reflexivity.
Qed.

Lemma checkPayment_consistent_witness :
  exists status,
    (DecredService.checkPayment
       (DecredService.mkRpc (Some 4%Q) (Some 5%Q) None) "DsSampleAddress" 5).1
    = Some status
    /\ DecredService.isPending status = true
    /\ ~ (DecredService.isComplete status = true
          /\ DecredService.isUnderpaid status = true).
Proof.
  destruct (checkPayment_consistent "DsSampleAddress" 5 4 5 None)
    as (status & H1 & _ & _ & _ & H2 & H3 & _).
  exists status. split; [exact H1|]. split.
  - apply H2. injection H1 as <-. reflexivity.
  - apply H3. discriminate.
Defined.

(* ===================================================================== *)
(** * More on the monitor *)
(* ===================================================================== *)

Lemma stopMonitoring_unmonitored orderId s :
  DecredService.monitoredAddresses s !! orderId = None ->
  DecredService.stopMonitoring orderId s = (s, []).
Proof. intros H. unfold DecredService.stopMonitoring. by rewrite H. Qed.

(** Stopping twice is stopping once: after [stopMonitoring] the order has no
    entry, and a further [stopMonitoring] for it changes nothing and logs
    nothing; the same holds for an order that was never monitored. *)
Theorem stopMonitoring_idempotent orderId s :
  DecredService.monitoredAddresses
    (DecredService.stopMonitoring orderId s).1 !! orderId = None
  /\ DecredService.stopMonitoring orderId
       (DecredService.stopMonitoring orderId s).1
     = ((DecredService.stopMonitoring orderId s).1, [])
  /\ (DecredService.monitoredAddresses s !! orderId = None ->
      DecredService.stopMonitoring orderId s = (s, [])).
Proof.
  assert (DecredService.monitoredAddresses
            (DecredService.stopMonitoring orderId s).1 !! orderId = None) as H.
  { rewrite stopMonitoring_state. cbn [DecredService.monitoredAddresses].
    apply lookup_delete_eq. }
  split; [exact H|]. split; [|apply stopMonitoring_unmonitored].
  by apply stopMonitoring_unmonitored.
Qed.

Lemma stopMonitoring_idempotent_witness :
  DecredService.stopMonitoring sample_id (new_service 2) = (new_service 2, []).
Proof.
  apply (stopMonitoring_idempotent sample_id (new_service 2)). reflexivity.
Defined.

(** Start then stop is a round trip: for an order without a monitor,
    [stopMonitoring] after [startMonitoring] gives back the registry and
    the timer table of before; only the handle counter has moved on by
    two. *)
Theorem start_stop_round_trip address expected orderId tm s :
  wf s ->
  DecredService.monitoredAddresses s !! orderId = None ->
  let s' := (DecredService.stopMonitoring orderId
               (DecredService.startMonitoring address expected orderId tm s).1).1 in
  DecredService.monitoredAddresses s' = DecredService.monitoredAddresses s
  /\ DecredService.timers s' = DecredService.timers s
  /\ DecredService.next_timer s' = S (S (DecredService.next_timer s))
  /\ DecredService.minConfirmations s' = DecredService.minConfirmations s.
Proof.
  intros [Ht _] Hnone. cbv zeta.
  rewrite stopMonitoring_state, startMonitoring_state.
  cbn [DecredService.monitoredAddresses DecredService.timers
       DecredService.next_timer DecredService.minConfirmations].
  split; [|split; [|done]].
  - rewrite delete_insert_eq, delete_delete_eq. by apply delete_id.
  - unfold timers_after_stop at 1. cbn [DecredService.monitoredAddresses].
    rewrite lookup_insert_eq.
    cbn [DecredService.checkInterval DecredService.timeout DecredService.timers].
    unfold timers_after_stop. rewrite Hnone.
    assert (forall h, DecredService.next_timer s <= h ->
                      DecredService.timers s !! h = None) as Hfresh.
    { intros h Hh. destruct (DecredService.timers s !! h) as [tmr|] eqn:E; [|done].
      destruct (Ht h tmr E) as [Hlt _]. lia. }
    rewrite delete_insert_ne by lia.
    rewrite (delete_insert_id (DecredService.timers s) (DecredService.next_timer s))
      by (apply Hfresh; lia).
    by rewrite delete_insert_id by (apply Hfresh; lia).
Qed.

Lemma start_stop_round_trip_witness :
  DecredService.timers
    (DecredService.stopMonitoring other_id
       (DecredService.startMonitoring "DsOtherAddress" 2 other_id None
          sample_service).1).1
  = DecredService.timers sample_service.
Proof.
  refine (proj1 (proj2 (start_stop_round_trip "DsOtherAddress" 2 other_id None
                          sample_service _ _))).
  - apply (bool_decide_unpack (wf sample_service)). vm_compute. exact I.
  - reflexivity.
Defined.

Lemma poll_tick_service rpc address expected orderId s :
  (DecredService.poll_tick rpc address expected orderId s).1.1 = s
  \/ (DecredService.poll_tick rpc address expected orderId s).1.1
     = (DecredService.stopMonitoring orderId s).1.
Proof.
  unfold DecredService.poll_tick.
  destruct (DecredService.checkPayment rpc address expected) as [[status|] e0];
    [|by left].
  destruct (DecredService.isComplete status).
  - right. destruct (DecredService.stopMonitoring orderId s) as [s1 e1].
    by destruct (DecredService.listTransactions rpc orderId) as [[?|] ?].
  - left. by destruct (DecredService.isPending status).
Qed.

Lemma expiry_timeout_service orderId s :
  (DecredService.expiry_timeout orderId s).1.1
  = (DecredService.stopMonitoring orderId s).1.
Proof.
  unfold DecredService.expiry_timeout.
  by destruct (DecredService.stopMonitoring orderId s).
Qed.

Lemma wf_monitor_step s ev : wf s -> wf (monitor_step s ev).
Proof.
  intros Hwf. destruct ev as [a e o tm|o|rpc a e o|o]; cbn [monitor_step].
  - by apply wf_startMonitoring.
  - by apply wf_stopMonitoring.
  - destruct (poll_tick_service rpc a e o s) as [-> | ->];
      [done|by apply wf_stopMonitoring].
  - rewrite expiry_timeout_service. by apply wf_stopMonitoring.
Qed.

(** No timer is ever leaked.  Whatever sequence of starts, stops, poll
    ticks and timeouts a new service goes through, every pending timer is
    one of the two handles its order has in the registry; an order without
    a registry entry has no pending timer. *)
Theorem monitor_run_no_leak events minConf :
  let s := monitor_run events (new_service minConf) in
  wf s
  /\ (forall h tmr,
        DecredService.timers s !! h = Some tmr ->
        exists m,
          DecredService.monitoredAddresses s !! timer_owner tmr = Some m
          /\ (h = DecredService.checkInterval m \/ h = DecredService.timeout m))
  /\ (forall orderId h tmr,
        DecredService.monitoredAddresses s !! orderId = None ->
        DecredService.timers s !! h = Some tmr ->
        timer_owner tmr <> orderId).
Proof.
  cbv zeta.
  assert (wf (monitor_run events (new_service minConf))) as Hwf.
  { unfold monitor_run. generalize (wf_new_service minConf).
    generalize (new_service minConf).
    induction events as [|ev events IH]; intros s Hs; [done|].
    cbn [foldl]. apply IH. by apply wf_monitor_step. }
  split; [exact Hwf|]. destruct Hwf as [Ht _].
  assert (forall h tmr,
    DecredService.timers (monitor_run events (new_service minConf)) !! h
    = Some tmr ->
    exists m,
      DecredService.monitoredAddresses (monitor_run events (new_service minConf))
        !! timer_owner tmr = Some m
      /\ (h = DecredService.checkInterval m \/ h = DecredService.timeout m)) as H.
  { intros h tmr Hh. destruct (Ht h tmr Hh) as [_ Hreg].
    by apply registered_spec in Hreg. }
  split; [exact H|].
  intros orderId h tmr Hnone Hh Ho. destruct (H h tmr Hh) as (m & Hm & _).
  congruence.
Qed.

(** A failed amount query changes nothing.  When one of the two
    [getreceivedbyaddress] calls of a tick fails, the tick emits no
    observation, the monitor stays as it was (it will poll again), the
    tables are untouched and the trace holds only log lines. *)
Theorem poll_tick_rpc_failure now printful rpc address expected orderId s db :
  DecredService.received_confirmed rpc = None
  \/ DecredService.received_unconfirmed rpc = None ->
  let r := monitor_tick now printful rpc address expected orderId s db in
  (DecredService.poll_tick rpc address expected orderId s).1.2 = None
  /\ r.1.1 = s
  /\ r.1.2 = db
  /\ Forall (fun e => is_log e = true) r.2.
Proof.
  intros Hfail. cbv zeta.
  assert (DecredService.poll_tick rpc address expected orderId s
          = (s, None,
             [LogError "Decred RPC call failed" "getreceivedbyaddress";
              LogError "Failed to check Decred payment" address;
              LogError "Payment monitoring error" orderId])) as Htick.
  { unfold DecredService.poll_tick, DecredService.checkPayment.
    destruct Hfail as [-> | H]; [done|].
    destruct (DecredService.received_confirmed rpc); by rewrite ?H. }
  unfold monitor_tick. rewrite Htick. cbn [fst snd].
  repeat split; try done. by repeat constructor.
Qed.

Lemma poll_tick_rpc_failure_witness :
  (monitor_tick 0 (Some "pf-1") (DecredService.mkRpc (Some 5%Q) None (Some []))
     "DsSampleAddress" 5 sample_id sample_service
     (sample_db "pending" "pending_payment" None Absent)).1.1
  = sample_service.
Proof.
  refine (proj1 (proj2 (poll_tick_rpc_failure 0 (Some "pf-1")
                          (DecredService.mkRpc (Some 5%Q) None (Some []))
                          "DsSampleAddress" 5 sample_id sample_service
                          (sample_db "pending" "pending_payment" None Absent) _))).
  by right.
Defined.

(** A complete payment whose transaction listing fails loses its monitor.
    When the confirmed amount reaches the expected one but the
    [listtransactions] call of the same tick fails, [stopMonitoring] has
    already run: the registry entry is gone and both timers are cancelled,
    yet no observation is emitted and the tables are untouched. *)
Theorem poll_tick_listing_failure now printful address expected orderId r u s db :
  (expected <= r)%Q ->
  let rpc := DecredService.mkRpc (Some r) (Some u) None in
  let res := monitor_tick now printful rpc address expected orderId s db in
  (DecredService.poll_tick rpc address expected orderId s).1.2 = None
  /\ res.1.2 = db
  /\ count is_fulfillment_request res.2 = 0
  /\ DecredService.monitoredAddresses res.1.1 !! orderId = None
  /\ (forall m, DecredService.monitoredAddresses s !! orderId = Some m ->
        DecredService.timers res.1.1 !! DecredService.checkInterval m = None
        /\ DecredService.timers res.1.1 !! DecredService.timeout m = None).
Proof.
  intros Hle. cbv zeta.
  destruct (checkPayment_flags address expected r u None)
    as (status & Hc & Hcomplete & _).
  assert (DecredService.isComplete status = true) as Ec by by apply Hcomplete.
  pose proof (stopMonitoring_state orderId s) as Hstop.
  pose proof (stopMonitoring_trace is_fulfillment_request orderId s eq_refl)
    as Htrace.
  unfold monitor_tick, DecredService.poll_tick. rewrite Hc, Ec.
  destruct (DecredService.stopMonitoring orderId s) as [s1 e1].
  cbn [fst snd DecredService.listTransactions DecredService.listtransactions
       app] in *.
  subst s1. cbn [DecredService.monitoredAddresses DecredService.timers].
  split; [done|]. split; [done|]. split; [|split].
  - rewrite count_app, Htrace. reflexivity.
  - apply lookup_delete_eq.
  - intros m Hm. unfold timers_after_stop. rewrite Hm. split.
    + destruct (decide (DecredService.timeout m = DecredService.checkInterval m))
        as [->|Hne]; [by rewrite lookup_delete_eq|].
      by rewrite lookup_delete_ne, lookup_delete_eq.
    + by rewrite lookup_delete_eq.
Qed.

Lemma poll_tick_listing_failure_witness :
  DecredService.monitoredAddresses
    (monitor_tick 0 (Some "pf-1") (DecredService.mkRpc (Some 5%Q) (Some 5%Q) None)
       "DsSampleAddress" 5 sample_id sample_service
       (sample_db "pending" "pending_payment" None Absent)).1.1 !! sample_id
  = None.
Proof.
  refine (proj1 (proj2 (proj2 (proj2
            (poll_tick_listing_failure 0 (Some "pf-1") "DsSampleAddress" 5
               sample_id 5 5 sample_service
               (sample_db "pending" "pending_payment" None Absent) _))))).
  discriminate.
Defined.

(** What the monitor can say.  An observation emitted by a poll tick is
    [confirmed], carrying the confirmed amount, which has reached the
    expected one, or [confirming], carrying the total while the confirmed
    amount is still short; the expiry timeout always says [expired],
    without an amount.  No other status comes out of the monitor. *)
Theorem monitor_observations rpc address expected orderId s pd :
  (DecredService.poll_tick rpc address expected orderId s).1.2 = Some pd ->
  (exists r u,
     DecredService.received_confirmed rpc = Some r
     /\ DecredService.received_unconfirmed rpc = Some u
     /\ ((pd_status pd = "confirmed"
          /\ pd_received pd = Num (DecredService.or_zero r)
          /\ (expected <= r)%Q
          /\ is_Some (DecredService.listtransactions rpc))
         \/ (pd_status pd = "confirming"
             /\ pd_received pd = Num (DecredService.or_zero u)
             /\ ~ (expected <= r)%Q /\ (r < u)%Q)))
  /\ pd_status (DecredService.expiry_timeout orderId s).1.2 = "expired"
  /\ pd_received (DecredService.expiry_timeout orderId s).1.2 = Absent.
Proof.
  intros Hobs. split.
  - destruct rpc as [[r|] [u|] txs];
      try (unfold DecredService.poll_tick, DecredService.checkPayment in Hobs;
           cbn in Hobs; discriminate).
    exists r, u. split; [done|]. split; [done|].
    destruct (checkPayment_flags address expected r u txs)
      as (status & Hc & Hcomplete & Hpending & _).
    assert (DecredService.received status = DecredService.or_zero r
            /\ DecredService.total status = DecredService.or_zero u) as [Hr Hu].
    { cbn in Hc. by injection Hc as <-. }
    unfold DecredService.poll_tick in Hobs. rewrite Hc in Hobs.
    destruct (flag_cases _ _ Hcomplete) as [[Ec Pc]|[Ec Pc]]; rewrite Ec in Hobs.
    + left. destruct (DecredService.stopMonitoring orderId s) as [s1 e1].
      destruct txs as [l|]; cbn in Hobs; [|discriminate].
      injection Hobs as <-. cbn. rewrite Hr. eauto.
    + right. destruct (flag_cases _ _ Hpending) as [[Ep Pp]|[Ep Pp]];
        rewrite Ep in Hobs; cbn in Hobs; [|discriminate].
      injection Hobs as <-. cbn. rewrite Hu. repeat split; try done.
      unfold Qminus in Pp. by rewrite <- Qlt_minus_iff in Pp.
  - unfold DecredService.expiry_timeout.
    by destruct (DecredService.stopMonitoring orderId s).
Qed.

Lemma monitor_observations_witness :
  exists r u,
    Some 0%Q = Some r /\ Some 4%Q = Some u
    /\ (("confirming" = "confirmed"
         /\ Num (DecredService.or_zero 4) = Num (DecredService.or_zero r)
         /\ (5 <= r)%Q /\ is_Some (Some (@nil DecredService.Tx)))
        \/ ("confirming" = "confirming"
            /\ Num (DecredService.or_zero 4) = Num (DecredService.or_zero u)
            /\ ~ (5 <= r)%Q /\ (r < u)%Q)).
Proof.
  refine (proj1 (monitor_observations
                   (DecredService.mkRpc (Some 0%Q) (Some 4%Q) (Some []))
                   "DsSampleAddress" 5 sample_id sample_service
                   (mkPaymentData "confirming" (Num (DecredService.or_zero 4))
                      None None
                      (Num (Double.sub (DecredService.or_zero 4)
                              (DecredService.or_zero 0))))
                   _)).
  reflexivity.
Defined.

(** A confirmed tick, end to end.  When a tick finds the confirmed amount at
    or above the expected one, the transaction listing answers with
    confirmations that are not negative and the provider answers, the
    monitor of the order is gone, its first payment row reads [confirmed]
    with the confirmed amount as received amount, the order is in
    [production] with the new fulfillment reference, the fulfillment order
    is requested once and the confirmation notification is requested.
    When the listing reports negative confirmations, the monitor is gone
    all the same, but the payment update is refused: the tables are
    unchanged and nothing is requested. *)
Theorem confirmed_tick_end_to_end
    now printfulId address expected orderId r u txs s db o i p :
  orders db !! orderId = Some o ->
  Payment_findOne orderId db = Some (i, p) ->
  (expected <= r)%Q ->
  let res := monitor_tick now (Some printfulId)
               (DecredService.mkRpc (Some r) (Some u) (Some txs))
               address expected orderId s db in
  ((0 <= reported_confirmations txs s)%Z ->
   payment_row_status i res.1.2 = Some "confirmed"
   /\ Payment.received_amount <$> payments res.1.2 !! i
      = Some (Num (DecredService.or_zero r))
   /\ payment_status_of orderId res.1.2 = Some "confirmed"
   /\ order_status_of orderId res.1.2 = Some "production"
   /\ printful_id_of orderId res.1.2 = Some printfulId
   /\ count is_fulfillment_request res.2 = 1
   /\ SendOrderConfirmation orderId ∈ res.2)
  /\ ((reported_confirmations txs s < 0)%Z ->
      res.1.2 = db
      /\ count is_fulfillment_request res.2 = 0
      /\ SendOrderConfirmation orderId ∉ res.2)
  /\ DecredService.monitoredAddresses res.1.1 !! orderId = None.
Proof.
  intros Ho Hp Hle. cbv zeta.
  destruct (checkPayment_flags address expected r u (Some txs))
    as (status & Hc & Hcomplete & _).
  assert (DecredService.received status = DecredService.or_zero r) as Hr.
  { injection Hc as <-. reflexivity. }
  assert (DecredService.isComplete status = true) as Ec by by apply Hcomplete.
  pose proof (stopMonitoring_state orderId s) as Hstop.
  pose proof (stopMonitoring_trace is_fulfillment_request orderId s eq_refl)
    as Htrace.
  assert (SendOrderConfirmation orderId
            ∉ (DecredService.stopMonitoring orderId s).2) as Hquiet.
  { unfold DecredService.stopMonitoring.
    destruct (DecredService.monitoredAddresses s !! orderId);
      cbn [snd]; not_in_trace. }
  unfold monitor_tick, DecredService.poll_tick. rewrite Hc, Ec.
  destruct (DecredService.stopMonitoring orderId s) as [s1 e1].
  cbn [fst snd DecredService.listTransactions DecredService.listtransactions
       app] in *.
  fold (reported_confirmations txs s).
  set (pd := mkPaymentData "confirmed" _ _ _ _).
  split; [|split].
  - intros Hv.
    rewrite (handlePaymentUpdate_confirmed now orderId db (Some printfulId) pd o
               Ho eq_refl).
    2:{ apply update_accepted_valid. by apply Z.leb_le. }
    cbn [fst snd].
    pose proof (Payment_findOne_Some _ _ _ _ Hp) as [Hi _].
    split; [|split; [|split; [|split; [|split; [|split]]]]].
    + rewrite !payment_row_status_Order_update.
      rewrite (payment_row_status_on_payment _ _ _ i p Hp).
      by rewrite (proj1 (confirm_payment_fields now pd p)).
    + unfold on_payment. rewrite Hp.
      cbn [Order_update Payment_update payments].
      rewrite list_lookup_alter_eq, Hi. cbn [fmap option_fmap option_map].
      rewrite (proj1 (confirm_payment_written now pd p)). cbn. by rewrite Hr.
    + unfold payment_status_of.
      rewrite !Order_update_lookup, on_payment_lookup_order, Ho.
      cbn [fmap option_fmap option_map Order.payment_status
           Order.set_order_status Order.set_printful_order_id].
      by rewrite (proj1 (pay_order_fields pd o)).
    + unfold order_status_of.
      by rewrite !Order_update_lookup, on_payment_lookup_order, Ho.
    + unfold printful_id_of.
      by rewrite !Order_update_lookup, on_payment_lookup_order, Ho.
    + rewrite !count_app, Htrace. reflexivity.
    + apply elem_of_app. right. in_trace.
  - intros Hv.
    rewrite (handlePaymentUpdate_rejected now orderId db (Some printfulId) pd o
               Ho eq_refl).
    2:{ unfold update_accepted. rewrite Hp. by apply Z.leb_gt. }
    cbn [fst snd]. split; [done|]. split.
    + rewrite !count_app, Htrace. reflexivity.
    + rewrite !elem_of_app. intros [[H|H]|H]; [by apply Hquiet| |].
      * by apply elem_of_nil in H.
      * revert H. not_in_trace.
  - destruct (OrderController.handlePaymentUpdate now (Some printfulId) orderId
                pd db) as [db1 e2].
    subst s1. cbn [fst DecredService.monitoredAddresses].
    apply lookup_delete_eq.
Qed.

Lemma confirmed_tick_end_to_end_witness :
  order_status_of sample_id
    (monitor_tick 0 (Some "pf-1")
       (DecredService.mkRpc (Some 5%Q) (Some 5%Q) (Some []))
       "DsSampleAddress" 5 sample_id sample_service
       (sample_db "pending" "pending_payment" None Absent)).1.2
  = Some "production".
Proof.
  refine (proj1 (proj2 (proj2 (proj2
            (proj1 (confirmed_tick_end_to_end 0 "pf-1" "DsSampleAddress" 5
                      sample_id 5 5 [] sample_service
                      (sample_db "pending" "pending_payment" None Absent)
                      (sample_order "pending" "pending_payment" None) 0
                      (sample_payment "pending" Absent) _ _ _) _))))).
  - reflexivity.
  - reflexivity.
  - discriminate.
  - discriminate.
Defined.

(** The expiry timeout, end to end.  When the timeout of an existing order
    fires, its monitor is removed, the order reads payment_status [expired]
    and order_status [cancelled], its first payment row reads [expired],
    one cancellation notification is requested and no fulfillment order. *)
Theorem timeout_end_to_end now printful orderId s db o :
  orders db !! orderId = Some o ->
  let res := monitor_timeout now printful orderId s db in
  payment_status_of orderId res.1.2 = Some "expired"
  /\ order_status_of orderId res.1.2 = Some "cancelled"
  /\ (forall i p, Payment_findOne orderId db = Some (i, p) ->
        payment_row_status i res.1.2 = Some "expired")
  /\ DecredService.monitoredAddresses res.1.1 !! orderId = None
  /\ count is_cancellation_notice res.2 = 1
  /\ count is_fulfillment_request res.2 = 0.
Proof.
  intros Ho. cbv zeta.
  pose proof (stopMonitoring_state orderId s) as Hstop.
  pose proof (stopMonitoring_trace is_cancellation_notice orderId s eq_refl)
    as Hn.
  pose proof (stopMonitoring_trace is_fulfillment_request orderId s eq_refl)
    as Hf.
  unfold monitor_timeout, DecredService.expiry_timeout.
  destruct (DecredService.stopMonitoring orderId s) as [s1 e1].
  cbn [fst snd] in *.
  set (pd := mkPaymentData "expired" _ _ _ _).
  rewrite (handlePaymentUpdate_expired now orderId db printful pd o Ho eq_refl).
  cbn [fst snd]. subst s1.
  split; [|split; [|split; [|split; [|split]]]].
  - unfold payment_status_of.
    by rewrite Order_update_lookup, on_payment_lookup_order, Ho.
  - unfold order_status_of.
    by rewrite Order_update_lookup, on_payment_lookup_order, Ho.
  - intros i p Hp. rewrite payment_row_status_Order_update.
    by rewrite (payment_row_status_on_payment _ _ _ i p Hp).
  - cbn [DecredService.monitoredAddresses]. apply lookup_delete_eq.
  - rewrite count_app, Hn. reflexivity.
  - rewrite count_app, Hf. reflexivity.
Qed.

Lemma timeout_end_to_end_witness :
  order_status_of sample_id
    (monitor_timeout 3600000 None sample_id sample_service
       (sample_db "pending" "pending_payment" None Absent)).1.2
  = Some "cancelled".
Proof.
  refine (proj1 (proj2 (timeout_end_to_end 3600000 None sample_id sample_service
                          (sample_db "pending" "pending_payment" None Absent)
                          (sample_order "pending" "pending_payment" None) _))).
  reflexivity.
Defined.

(* ===================================================================== *)
(** * More on [handlePaymentUpdate] *)
(* ===================================================================== *)

(** Every result of [handlePaymentUpdate] is the old tables, or the old
    tables with the order and its first payment row rewritten by functions
    that keep the row's order id. *)
Lemma handlePaymentUpdate_shape now printful orderId pd db :
  (OrderController.handlePaymentUpdate now printful orderId pd db).1 = db
  \/ exists f g,
       (OrderController.handlePaymentUpdate now printful orderId pd db).1
       = Order_update orderId f (on_payment orderId db g)
       /\ (forall p, Payment.order_id (g p) = Payment.order_id p).
Proof.
  destruct (orders db !! orderId) as [o|] eqn:Ho;
    [|rewrite (handlePaymentUpdate_not_found _ _ _ _ _ Ho); by left].
  destruct (String.eqb_spec (pd_status pd) "confirmed") as [H1|H1].
  { destruct (update_accepted orderId pd db) eqn:Ha;
      [|left; by rewrite (handlePaymentUpdate_rejected _ _ _ _ _ o Ho H1 Ha)].
    right. rewrite (handlePaymentUpdate_confirmed _ _ _ _ _ o Ho H1 Ha).
    assert (forall p, Payment.order_id (confirm_payment now pd p)
                      = Payment.order_id p) as Hid
      by (intros p; apply confirm_payment_fields).
    destruct printful as [printfulId|]; cbn [fst].
    - exists ((fun o => Order.set_order_status "production"
                          (Order.set_printful_order_id (Some printfulId) o))
              ∘ pay_order pd), (confirm_payment now pd).
      split; [|exact Hid]. unfold Order_update. cbn [orders payments].
      by rewrite alter_alter_eq.
    - by exists (pay_order pd), (confirm_payment now pd). }
  destruct (String.eqb_spec (pd_status pd) "confirming") as [H2|H2].
  { right. rewrite (handlePaymentUpdate_confirming _ _ _ _ _ o Ho H2).
    by eexists _, _. }
  destruct (String.eqb_spec (pd_status pd) "expired") as [H3|H3].
  { right. rewrite (handlePaymentUpdate_expired _ _ _ _ _ o Ho H3).
    by eexists _, _. }
  left. by rewrite (handlePaymentUpdate_other _ _ _ _ _ o Ho H1 H2 H3).
Qed.

Lemma on_payment_lookup_other orderId db g j :
  (forall p, Payment_findOne orderId db <> Some (j, p)) ->
  payments (on_payment orderId db g) !! j = payments db !! j.
Proof.
  intros Hj. unfold on_payment.
  destruct (Payment_findOne orderId db) as [[i p]|] eqn:E; [|done].
  unfold Payment_update. cbn [payments].
  destruct (decide (i = j)) as [->|Hne]; [by destruct (Hj p)|].
  by rewrite list_lookup_alter_ne.
Qed.

Lemma on_payment_length orderId db g :
  length (payments (on_payment orderId db g)) = length (payments db).
Proof.
  unfold on_payment. destruct (Payment_findOne orderId db) as [[i p]|]; [|done].
  apply length_alter.
Qed.

(** One order at a time.  [handlePaymentUpdate] for an order leaves every
    other order record as it was, and every payment row except the first
    row of that order; in particular it never touches a payment of another
    order. *)
Theorem handlePaymentUpdate_isolation now printful orderId pd db :
  let db' := (OrderController.handlePaymentUpdate now printful orderId pd db).1 in
  (forall k, k <> orderId -> orders db' !! k = orders db !! k)
  /\ (forall j, (forall p, Payment_findOne orderId db <> Some (j, p)) ->
        payments db' !! j = payments db !! j)
  /\ (forall j p, payments db !! j = Some p ->
        Payment.order_id p <> orderId ->
        payments db' !! j = Some p).
Proof.
  cbv zeta.
  assert (Hrows : forall j, (forall p, Payment_findOne orderId db <> Some (j, p)) ->
    payments (OrderController.handlePaymentUpdate now printful orderId pd db).1
      !! j = payments db !! j).
  { intros j Hj.
    destruct (handlePaymentUpdate_shape now printful orderId pd db)
      as [-> | (f & g & -> & _)]; [done|].
    cbn [Order_update payments]. by apply on_payment_lookup_other. }
  split; [|split; [exact Hrows|]].
  - intros k Hk.
    destruct (handlePaymentUpdate_shape now printful orderId pd db)
      as [-> | (f & g & -> & _)]; [done|].
    by rewrite Order_update_lookup_ne, on_payment_lookup_order.
  - intros j p Hj Hne. rewrite Hrows; [done|].
    intros p' Hf. apply Payment_findOne_Some in Hf as [Hf1 Hf2]. congruence.
Qed.

Lemma handlePaymentUpdate_isolation_witness :
  orders (OrderController.handlePaymentUpdate 0 None sample_id
            (observation "expired" Absent) two_orders_db).1 !! other_id
  = orders two_orders_db !! other_id.
Proof.
  refine (proj1 (handlePaymentUpdate_isolation 0 None sample_id
                   (observation "expired" Absent) two_orders_db) other_id _).
  discriminate.
Defined.

(** No record is created or deleted.  After [handlePaymentUpdate] the
    orders table has the same order ids and the payments table the same
    number of rows, each still belonging to the order it belonged to; for
    an order id that is not in the table nothing changes at all and the
    only trace is the not-found log line. *)
Theorem handlePaymentUpdate_keeps_records now printful orderId pd db :
  let r := OrderController.handlePaymentUpdate now printful orderId pd db in
  dom (orders r.1) = dom (orders db)
  /\ length (payments r.1) = length (payments db)
  /\ (Payment.order_id <$> payments r.1) = (Payment.order_id <$> payments db)
  /\ (orders db !! orderId = None ->
      r = (db, [LogError "Order not found for payment update" orderId])).
Proof.
  cbv zeta. split; [|split; [|split]].
  - destruct (handlePaymentUpdate_shape now printful orderId pd db)
      as [-> | (f & g & -> & _)]; [done|].
    unfold Order_update. cbn [orders]. by rewrite dom_alter_L, on_payment_orders.
  - destruct (handlePaymentUpdate_shape now printful orderId pd db)
      as [-> | (f & g & -> & _)]; [done|].
    cbn [Order_update payments]. apply on_payment_length.
  - destruct (handlePaymentUpdate_shape now printful orderId pd db)
      as [-> | (f & g & -> & Hg)]; [done|].
    cbn [Order_update payments]. unfold on_payment.
    destruct (Payment_findOne orderId db) as [[i p]|]; [|done].
    unfold Payment_update. cbn [payments].
    apply list_eq. intros j. rewrite !list_lookup_fmap.
    destruct (decide (i = j)) as [->|Hne].
    + rewrite list_lookup_alter_eq. destruct (payments db !! j); [|done].
      cbn. by rewrite Hg.
    + by rewrite list_lookup_alter_ne.
  - intros Ho. by apply handlePaymentUpdate_not_found.
Qed.

Lemma handlePaymentUpdate_keeps_records_witness :
  OrderController.handlePaymentUpdate 0 (Some "pf-1") "AA-2025-999999"
    (observation "confirmed" (Num 5)) two_orders_db
  = (two_orders_db,
     [LogError "Order not found for payment update" "AA-2025-999999"]).
Proof.
  refine (proj2 (proj2 (proj2 (handlePaymentUpdate_keeps_records 0 (Some "pf-1")
                                 "AA-2025-999999"
                                 (observation "confirmed" (Num 5))
                                 two_orders_db))) _).
  reflexivity.
Defined.

Lemma Payment_findOne_update orderId db i p g :
  Payment_findOne orderId db = Some (i, p) ->
  (forall q, Payment.order_id (g q) = Payment.order_id q) ->
  Payment_findOne orderId (Payment_update i g db) = Some (i, g p).
Proof.
  unfold Payment_findOne, Payment_update. cbn [payments]. intros H Hg.
  apply list_find_Some in H as (Hi & HP & Hlt).
  apply list_find_Some. split; [|split].
  - by rewrite list_lookup_alter_eq, Hi.
  - by rewrite Hg.
  - intros j y Hj Hji. rewrite list_lookup_alter_ne in Hj by lia.
    by apply (Hlt j y).
Qed.

Lemma on_payment_twice orderId db f g :
  (forall q, Payment.order_id (g q) = Payment.order_id q) ->
  on_payment orderId (on_payment orderId db g) f
  = on_payment orderId db (f ∘ g).
Proof.
  intros Hg. unfold on_payment at 2 3.
  destruct (Payment_findOne orderId db) as [[i p]|] eqn:E.
  - unfold on_payment. rewrite (Payment_findOne_update _ _ _ _ _ E Hg).
    unfold Payment_update. cbn [orders payments].
    by rewrite list_alter_alter_eq.
  - unfold on_payment. by rewrite E.
Qed.

Lemma on_payment_Order_update orderId k f d g :
  on_payment orderId (Order_update k f d) g
  = Order_update k f (on_payment orderId d g).
Proof.
  unfold on_payment, Payment_findOne. cbn [Order_update payments].
  by destruct (list_find _ (payments d)) as [[i p]|].
Qed.

(** A repeated [expired] observation leaves the tables as the first one
    left them (whatever the clock and the provider say the second time),
    but it requests the cancellation notification again. *)
Theorem expired_observation_idempotent
    now now' printful printful' orderId pd pd' db :
  pd_status pd = "expired" ->
  pd_status pd' = "expired" ->
  let first := OrderController.handlePaymentUpdate now printful orderId pd db in
  let second := OrderController.handlePaymentUpdate now' printful' orderId pd'
                  first.1 in
  second.1 = first.1
  /\ (is_Some (orders db !! orderId) ->
      count is_cancellation_notice second.2 = 1).
Proof.
  intros Hs Hs'. cbv zeta.
  destruct (orders db !! orderId) as [o|] eqn:Ho.
  - rewrite (handlePaymentUpdate_expired _ _ _ _ _ o Ho Hs). cbn [fst].
    assert (orders (Order_update orderId cancel_order
                      (on_payment orderId db (Payment.set_status "expired")))
              !! orderId = Some (cancel_order o)) as Ho'.
    { by rewrite Order_update_lookup, on_payment_lookup_order, Ho. }
    rewrite (handlePaymentUpdate_expired _ _ _ _ _ _ Ho' Hs'). cbn [fst snd].
    split; [|done].
    rewrite on_payment_Order_update, on_payment_twice by done.
    unfold Order_update. cbn [orders payments]. f_equal.
    rewrite alter_alter_eq, !on_payment_orders. apply alter_ext. by intros [].
  - rewrite (handlePaymentUpdate_not_found _ _ _ _ _ Ho). cbn [fst].
    rewrite (handlePaymentUpdate_not_found _ _ _ _ _ Ho). cbn [fst].
    split; [done|]. by intros [? ?].
Qed.

Lemma expired_observation_idempotent_witness :
  (OrderController.handlePaymentUpdate 7 None sample_id
     (observation "expired" Absent)
     (OrderController.handlePaymentUpdate 0 None sample_id
        (observation "expired" Absent)
        (sample_db "pending" "pending_payment" None Absent)).1).1
  = (OrderController.handlePaymentUpdate 0 None sample_id
       (observation "expired" Absent)
       (sample_db "pending" "pending_payment" None Absent)).1.
Proof.
  refine (proj1 (expired_observation_idempotent 0 7 None None sample_id
                   (observation "expired" Absent) (observation "expired" Absent)
                   (sample_db "pending" "pending_payment" None Absent) _ _));
    reflexivity.
Defined.

(** The terms of a payment are never rewritten.  Whatever the observation,
    [handlePaymentUpdate] leaves the order id, currency, address, expected
    amount and expiry time of every payment row as they were: an expiry is
    never extended and an expected amount never adjusted. *)
Theorem handlePaymentUpdate_keeps_terms now printful orderId pd db j :
  let db' := (OrderController.handlePaymentUpdate now printful orderId pd db).1 in
  (Payment.order_id <$> payments db' !! j) = (Payment.order_id <$> payments db !! j)
  /\ (Payment.cryptocurrency <$> payments db' !! j)
     = (Payment.cryptocurrency <$> payments db !! j)
  /\ (Payment.payment_address <$> payments db' !! j)
     = (Payment.payment_address <$> payments db !! j)
  /\ (Payment.expected_amount <$> payments db' !! j)
     = (Payment.expected_amount <$> payments db !! j)
  /\ (Payment.expires_at <$> payments db' !! j)
     = (Payment.expires_at <$> payments db !! j).
Proof.
  cbv zeta.
  assert (Hrow : forall g,
    (forall p, Payment.order_id (g p) = Payment.order_id p
               /\ Payment.cryptocurrency (g p) = Payment.cryptocurrency p
               /\ Payment.payment_address (g p) = Payment.payment_address p
               /\ Payment.expected_amount (g p) = Payment.expected_amount p
               /\ Payment.expires_at (g p) = Payment.expires_at p) ->
    payments (on_payment orderId db g) !! j = payments db !! j
    \/ exists p, payments db !! j = Some p
                 /\ payments (on_payment orderId db g) !! j = Some (g p)).
  { intros g _. unfold on_payment.
    destruct (Payment_findOne orderId db) as [[i p]|]; [|by left].
    unfold Payment_update. cbn [payments].
    destruct (decide (i = j)) as [->|Hne].
    - rewrite list_lookup_alter_eq.
      destruct (payments db !! j) as [q|]; [right; eauto|by left].
    - left. by rewrite list_lookup_alter_ne. }
  assert (Hkeep : forall f g,
    (forall p, Payment.order_id (g p) = Payment.order_id p
               /\ Payment.cryptocurrency (g p) = Payment.cryptocurrency p
               /\ Payment.payment_address (g p) = Payment.payment_address p
               /\ Payment.expected_amount (g p) = Payment.expected_amount p
               /\ Payment.expires_at (g p) = Payment.expires_at p) ->
    let d := Order_update orderId f (on_payment orderId db g) in
    (Payment.order_id <$> payments d !! j) = (Payment.order_id <$> payments db !! j)
    /\ (Payment.cryptocurrency <$> payments d !! j)
       = (Payment.cryptocurrency <$> payments db !! j)
    /\ (Payment.payment_address <$> payments d !! j)
       = (Payment.payment_address <$> payments db !! j)
    /\ (Payment.expected_amount <$> payments d !! j)
       = (Payment.expected_amount <$> payments db !! j)
    /\ (Payment.expires_at <$> payments d !! j)
       = (Payment.expires_at <$> payments db !! j)).
  { intros f g Hg. cbv zeta. cbn [Order_update payments].
    destruct (Hrow g Hg) as [-> | (p & -> & ->)]; [done|].
    destruct (Hg p) as (E1 & E2 & E3 & E4 & E5). cbn.
    by rewrite E1, E2, E3, E4, E5. }
  destruct (orders db !! orderId) as [o|] eqn:Ho;
    [|by rewrite (handlePaymentUpdate_not_found _ _ _ _ _ Ho)].
  destruct (String.eqb_spec (pd_status pd) "confirmed") as [H1|H1].
  { destruct (update_accepted orderId pd db) eqn:Ha;
      [|by rewrite (handlePaymentUpdate_rejected _ _ _ _ _ o Ho H1 Ha)].
    rewrite (handlePaymentUpdate_confirmed _ _ _ _ _ o Ho H1 Ha).
    assert (forall q,
      Payment.order_id (confirm_payment now pd q) = Payment.order_id q
      /\ Payment.cryptocurrency (confirm_payment now pd q)
         = Payment.cryptocurrency q
      /\ Payment.payment_address (confirm_payment now pd q)
         = Payment.payment_address q
      /\ Payment.expected_amount (confirm_payment now pd q)
         = Payment.expected_amount q
      /\ Payment.expires_at (confirm_payment now pd q) = Payment.expires_at q)
      as Hg.
    { intros q.
      by destruct (confirm_payment_fields now pd q) as (_ & _ & _ & ?). }
    destruct printful; cbn [fst];
      [change (payments (Order_update orderId ?f ?d)) with (payments d)|];
      by apply Hkeep. }
  destruct (String.eqb_spec (pd_status pd) "confirming") as [H2|H2].
  { rewrite (handlePaymentUpdate_confirming _ _ _ _ _ o Ho H2). by apply Hkeep. }
  destruct (String.eqb_spec (pd_status pd) "expired") as [H3|H3].
  { rewrite (handlePaymentUpdate_expired _ _ _ _ _ o Ho H3). by apply Hkeep. }
  by rewrite (handlePaymentUpdate_other _ _ _ _ _ o Ho H1 H2 H3).
Qed.

(** What an observation writes into the payment row.  A [confirmed]
    observation whose confirmations are not negative sets the status and
    stamps confirmed_at with the time of the call, also when the row was
    confirmed before, leaves detected_at, and stores each of the amount,
    the transaction hash and the confirmations when the observation carries
    it and keeps the stored value when it does not; with negative
    confirmations nothing is written.  A [confirming] observation sets the
    status and stamps detected_at, also when it was set before, and stores
    nothing else: the amount it carries is dropped. *)
Theorem observation_recorded now printful orderId pd db o i p :
  orders db !! orderId = Some o ->
  Payment_findOne orderId db = Some (i, p) ->
  let db' := (OrderController.handlePaymentUpdate now printful orderId pd db).1 in
  (pd_status pd = "confirmed" ->
   Payment.valid_confirmations (pd_confirmations pd) = true ->
   exists p', payments db' !! i = Some p'
     /\ Payment.status p' = "confirmed"
     /\ Payment.confirmed_at p' = Some now
     /\ Payment.detected_at p' = Payment.detected_at p
     /\ (pd_received pd <> Absent -> Payment.received_amount p' = pd_received pd)
     /\ (pd_received pd = Absent ->
         Payment.received_amount p' = Payment.received_amount p)
     /\ (is_Some (pd_txHash pd) ->
         Payment.transaction_hash p' = pd_txHash pd
         /\ (orders db' !! orderId ≫= Order.transaction_hash) = pd_txHash pd)
     /\ (pd_txHash pd = None ->
         Payment.transaction_hash p' = Payment.transaction_hash p
         /\ (orders db' !! orderId ≫= Order.transaction_hash)
            = Order.transaction_hash o)
     /\ (is_Some (pd_confirmations pd) ->
         Payment.confirmations p' = pd_confirmations pd)
     /\ (pd_confirmations pd = None ->
         Payment.confirmations p' = Payment.confirmations p))
  /\ (pd_status pd = "confirmed" ->
      Payment.valid_confirmations (pd_confirmations pd) = false ->
      db' = db)
  /\ (pd_status pd = "confirming" ->
      payments db' !! i
      = Some (Payment.set_detected_at (Some now)
                (Payment.set_status "confirming" p))
      /\ Payment.received_amount <$> payments db' !! i
         = Some (Payment.received_amount p)
      /\ orders db' !! orderId = Some (Order.set_payment_status "confirming" o)).
Proof.
  intros Ho Hp. cbv zeta.
  pose proof (Payment_findOne_Some _ _ _ _ Hp) as [Hi _].
  split; [|split]; intros Hs.
  - intros Hv.
    rewrite (handlePaymentUpdate_confirmed _ _ _ _ _ o Ho Hs
               (update_accepted_valid _ _ _ Hv)).
    exists (confirm_payment now pd p).
    assert (payments (on_payment orderId db (confirm_payment now pd)) !! i
            = Some (confirm_payment now pd p)) as Hrow.
    { unfold on_payment. rewrite Hp. unfold Payment_update. cbn [payments].
      by rewrite list_lookup_alter_eq, Hi. }
    destruct (confirm_payment_fields now pd p) as (F1 & F2 & F3 & _).
    destruct (confirm_payment_written now pd p) as (W1 & W2 & W3).
    pose proof (pay_order_transaction_hash pd o) as W4.
    assert (forall printfulId,
      Order.transaction_hash
        (Order.set_order_status "production"
           (Order.set_printful_order_id (Some printfulId) (pay_order pd o)))
      = Order.transaction_hash (pay_order pd o)) as W5 by done.
    assert ((orders
               (OrderController.handlePaymentUpdate now printful orderId pd db).1
               !! orderId ≫= Order.transaction_hash)
            = Order.transaction_hash (pay_order pd o)) as Horder.
    { rewrite (handlePaymentUpdate_confirmed _ _ _ _ _ o Ho Hs
                 (update_accepted_valid _ _ _ Hv)).
      destruct printful; cbn [fst];
        by rewrite !Order_update_lookup, on_payment_lookup_order, Ho. }
    rewrite (handlePaymentUpdate_confirmed _ _ _ _ _ o Ho Hs
               (update_accepted_valid _ _ _ Hv)) in Horder.
    split.
    { by destruct printful; cbn [fst Order_update payments]. }
    split; [exact F1|]. split; [exact F2|]. split; [exact F3|].
    rewrite W1, W2, W3, Horder, W4.
    split; [by destruct (pd_received pd)|].
    split; [by intros ->|].
    split; [by intros [h ->]|].
    split; [by intros ->|].
    split; [by intros [n ->]|by intros ->].
  - intros Hv.
    rewrite (handlePaymentUpdate_rejected _ _ _ _ _ o Ho Hs); [done|].
    unfold update_accepted. by rewrite Hp.
  - rewrite (handlePaymentUpdate_confirming _ _ _ _ _ o Ho Hs).
    cbn [fst].
    assert (payments (on_payment orderId db
                        (fun p => Payment.set_detected_at (Some now)
                                    (Payment.set_status "confirming" p))) !! i
            = Some (Payment.set_detected_at (Some now)
                      (Payment.set_status "confirming" p))) as Hrow.
    { unfold on_payment. rewrite Hp. unfold Payment_update. cbn [payments].
      by rewrite list_lookup_alter_eq, Hi. }
    rewrite Order_update_lookup, on_payment_lookup_order, Ho.
    cbn [Order_update payments]. rewrite Hrow. done.
Qed.

Lemma observation_recorded_witness :
  payments (OrderController.handlePaymentUpdate 42 None sample_id
              (observation "confirming" (Num 4))
              (sample_db "confirming" "pending_payment" None Absent)).1 !! 0
  = Some (Payment.set_detected_at (Some 42%Z)
            (Payment.set_status "confirming"
               (sample_payment "confirming" Absent))).
Proof.
  refine (proj1 (proj2 (proj2 (observation_recorded 42 None sample_id
                          (observation "confirming" (Num 4))
                          (sample_db "confirming" "pending_payment" None Absent)
                          (sample_order "confirming" "pending_payment" None) 0
                          (sample_payment "confirming" Absent) _ _)) _));
    reflexivity.
Defined.

(* ===================================================================== *)
(** * More on [verifyPayment] *)
(* ===================================================================== *)

(** A refused verification changes nothing.  [verifyPayment] answers 404
    when the order or its payment is missing, and 400 when the order
    already reads [confirmed] and [force] is off; whenever the answer is
    not 200, the tables are untouched and nothing is logged. *)
Theorem verifyPayment_refusals now orderId transaction_hash amount force db :
  let r := PaymentController.verifyPayment now orderId transaction_hash amount
             force db in
  (orders db !! orderId = None \/ Payment_findOne orderId db = None ->
   r = (db, PaymentController.NotFound404, []))
  /\ (forall o, orders db !! orderId = Some o ->
        is_Some (Payment_findOne orderId db) ->
        Order.payment_status o = "confirmed" -> force = false ->
        r = (db, PaymentController.BadRequest400, []))
  /\ (r.1.2 <> PaymentController.Ok200 -> r.1.1 = db /\ r.2 = []).
Proof.
  cbv zeta. unfold PaymentController.verifyPayment, Order_findOne.
  split; [|split].
  - intros [-> | H]; [done|]. rewrite H. by destruct (orders db !! orderId).
  - intros o -> [[i p] ->] -> ->. reflexivity.
  - destruct (orders db !! orderId) as [o|]; [|done].
    destruct (Payment_findOne orderId db) as [[i p]|]; [|done].
    by destruct (_ && _).
Qed.

Lemma verifyPayment_refusals_witness :
  PaymentController.verifyPayment 0 sample_id (Some "abc") (Num 5) false
    (sample_db "confirmed" "paid" None (Num 5))
  = (sample_db "confirmed" "paid" None (Num 5), PaymentController.BadRequest400, []).
Proof.
  refine (proj1 (proj2 (verifyPayment_refusals 0 sample_id (Some "abc") (Num 5)
                          false (sample_db "confirmed" "paid" None (Num 5))))
            (sample_order "confirmed" "paid" None) _ _ _ _);
    [reflexivity|by eexists|reflexivity|reflexivity].
Defined.

(** An accepted verification.  The payment becomes [confirmed], stamped
    with the time of the call; the received amount is the one given or,
    when none (or zero) is given, the expected amount; the transaction hash
    is the one given or the one already stored.  The order becomes
    [confirmed] and [paid] and keeps its fulfillment reference as it is:
    [verifyPayment] requests neither a fulfillment order nor a
    notification, its whole trace is one log line. *)
Theorem verifyPayment_accepted now orderId transaction_hash amount force db o i p :
  orders db !! orderId = Some o ->
  Payment_findOne orderId db = Some (i, p) ->
  Order.payment_status o <> "confirmed" \/ force = true ->
  let r := PaymentController.verifyPayment now orderId transaction_hash amount
             force db in
  r.1.2 = PaymentController.Ok200
  /\ r.2 = [LogPayment "payment_manually_verified" orderId]
  /\ payments r.1.1 !! i
     = Some (Payment.mk (Payment.order_id p) (Payment.cryptocurrency p)
               (Payment.payment_address p) (Payment.expected_amount p)
               (if truthy amount then amount else Dec (Payment.expected_amount p))
               (PaymentController.or_string transaction_hash
                  (Payment.transaction_hash p))
               (Payment.confirmations p) "confirmed" (Payment.expires_at p)
               (Payment.detected_at p) (Some now))
  /\ orders r.1.1 !! orderId
     = Some (Order.mk (Order.order_id o) (Order.customer_email o) "confirmed"
               "paid"
               (PaymentController.or_string transaction_hash
                  (Order.transaction_hash o))
               (Order.printful_order_id o) (Order.notes o)).
Proof.
  intros Ho Hp Hforce. cbv zeta.
  unfold PaymentController.verifyPayment, Order_findOne. rewrite Ho, Hp.
  assert (String.eqb (Order.payment_status o) "confirmed" && negb force = false)
    as ->.
  { destruct Hforce as [H| ->]; [|by rewrite andb_false_r].
    apply String.eqb_neq in H. by rewrite H. }
  cbn [fst snd]. split; [done|]. split; [done|].
  apply Payment_findOne_Some in Hp as [Hi _]. split.
  - cbn [Order_update Payment_update payments].
    by rewrite list_lookup_alter_eq, Hi.
  - rewrite Order_update_lookup. cbn [Payment_update orders]. by rewrite Ho.
Qed.

Lemma verifyPayment_accepted_witness :
  (PaymentController.verifyPayment 9 sample_id None Absent false
     (sample_db "expired" "cancelled" None Absent)).2
  = [LogPayment "payment_manually_verified" sample_id].
Proof.
  refine (proj1 (proj2 (verifyPayment_accepted 9 sample_id None Absent false
                          (sample_db "expired" "cancelled" None Absent)
                          (sample_order "expired" "cancelled" None) 0
                          (sample_payment "expired" Absent) _ _ _)));
    [reflexivity|reflexivity|left; discriminate].
Defined.

(** Verifying twice.  After an accepted verification a second one without
    [force] is refused with 400 and changes nothing; with [force] it is
    accepted again. *)
Theorem verifyPayment_twice
    now now' orderId tx tx' amount amount' force force' db o i p :
  orders db !! orderId = Some o ->
  Payment_findOne orderId db = Some (i, p) ->
  Order.payment_status o <> "confirmed" \/ force = true ->
  let first := PaymentController.verifyPayment now orderId tx amount force db in
  let second := PaymentController.verifyPayment now' orderId tx' amount' force'
                  first.1.1 in
  (force' = false ->
   second = (first.1.1, PaymentController.BadRequest400, []))
  /\ (force' = true -> second.1.2 = PaymentController.Ok200).
Proof.
  intros Ho Hp Hforce. cbv zeta.
  assert (String.eqb (Order.payment_status o) "confirmed" && negb force = false)
    as Hguard.
  { destruct Hforce as [H| ->]; [|by rewrite andb_false_r].
    apply String.eqb_neq in H. by rewrite H. }
  assert (exists o', orders
            (PaymentController.verifyPayment now orderId tx amount force db).1.1
            !! orderId = Some o'
          /\ Order.payment_status o' = "confirmed") as (o' & Ho' & Hst).
  { unfold PaymentController.verifyPayment, Order_findOne.
    rewrite Ho, Hp, Hguard. cbn [fst].
    rewrite Order_update_lookup. cbn [Payment_update orders]. rewrite Ho.
    by eexists. }
  assert (exists p', Payment_findOne orderId
            (PaymentController.verifyPayment now orderId tx amount force db).1.1
          = Some (i, p')) as [p' Hp'].
  { unfold PaymentController.verifyPayment, Order_findOne.
    rewrite Ho, Hp, Hguard. cbn [fst].
    change (Payment_findOne orderId (Order_update ?k ?f ?d))
      with (Payment_findOne orderId d).
    eexists. by apply Payment_findOne_update. }
  split; intros ->.
  - unfold PaymentController.verifyPayment at 1. unfold Order_findOne.
    by rewrite Ho', Hp', Hst.
  - unfold PaymentController.verifyPayment at 1. unfold Order_findOne.
    rewrite Ho', Hp'. by rewrite andb_false_r.
Qed.

Lemma verifyPayment_twice_witness :
  PaymentController.verifyPayment 10 sample_id None Absent false
    (PaymentController.verifyPayment 9 sample_id None Absent false
       (sample_db "pending" "pending_payment" None Absent)).1.1
  = ((PaymentController.verifyPayment 9 sample_id None Absent false
        (sample_db "pending" "pending_payment" None Absent)).1.1,
     PaymentController.BadRequest400, []).
Proof.
  refine (proj1 (verifyPayment_twice 9 10 sample_id None None Absent Absent
                   false false
                   (sample_db "pending" "pending_payment" None Absent)
                   (sample_order "pending" "pending_payment" None) 0
                   (sample_payment "pending" Absent) _ _ _) _);
    [reflexivity|reflexivity|left; discriminate|reflexivity].
Defined.

(* ===================================================================== *)
(** * More on the expiry sweep *)
(* ===================================================================== *)

Lemma Payment_findAll_spec sel db i p :
  (i, p) ∈ PaymentController.Payment_findAll sel db
  <-> payments db !! i = Some p /\ sel p = true.
Proof.
  unfold PaymentController.Payment_findAll.
  rewrite list_elem_of_In, filter_In, <- list_elem_of_In.
  rewrite (elem_of_lookup_imap pair). cbn [snd]. split.
  - intros [(j & q & [= -> ->] & H) Hs]. done.
  - intros [H Hs]. split; [|done]. by exists i, p.
Qed.

Lemma Payment_findAll_indices sel db i :
  i ∈ (PaymentController.Payment_findAll sel db).*1
  <-> exists p, payments db !! i = Some p /\ sel p = true.
Proof.
  rewrite list_elem_of_fmap. split.
  - intros ([j p] & -> & H). apply Payment_findAll_spec in H. eauto.
  - intros (p & H). exists (i, p). split; [done|]. by apply Payment_findAll_spec.
Qed.

Lemma Payment_findAll_order_ids sel db k :
  k ∈ (fun ip : nat * Payment.t => Payment.order_id ip.2)
        <$> PaymentController.Payment_findAll sel db
  <-> exists p, p ∈ payments db /\ sel p = true /\ Payment.order_id p = k.
Proof.
  rewrite list_elem_of_fmap. split.
  - intros ([j p] & -> & H). apply Payment_findAll_spec in H as [H Hs].
    exists p. split; [|done]. apply list_elem_of_lookup. eauto.
  - intros (p & Hin & Hs & <-). apply list_elem_of_lookup in Hin as [i Hi].
    exists (i, p). split; [done|]. by apply Payment_findAll_spec.
Qed.

Lemma filter_imap_length (sel : Payment.t -> bool) (l : list Payment.t) :
  forall g : nat -> nat,
  length (List.filter (fun ip : nat * Payment.t => sel ip.2)
            (imap (fun i x => (g i, x)) l))
  = length (List.filter sel l).
Proof.
  induction l as [|x l IH]; intros g; [done|].
  cbn [imap List.filter snd].
  destruct (sel x); cbn [length]; [f_equal|]; apply (IH (g ∘ S)).
Qed.

Lemma cleanupExpiredPayments_payments now svc db :
  payments (PaymentController.cleanupExpiredPayments now svc db).1.1.2
  = expire_selected now <$> payments db.
Proof.
  rewrite cleanupExpiredPayments_eq. cbv zeta. cbn [fst snd].
  apply list_eq. intros i. rewrite sweep_payments, list_lookup_fmap.
  case_decide as Hi.
  - apply Payment_findAll_indices in Hi as (p & Hp & Hs). rewrite Hp. cbn.
    unfold expire_selected. by rewrite Hs.
  - destruct (payments db !! i) as [p|] eqn:Hp; [|done]. cbn.
    unfold expire_selected.
    destruct (PaymentController.expired_pending now p) eqn:Hs; [|done].
    destruct Hi. apply Payment_findAll_indices. eauto.
Qed.

(** What the sweep does to the tables.  It sets to [expired] exactly the
    payment rows that are [pending] and past their expiry and leaves every
    other row as it is, so a [confirming] or [confirmed] payment is never
    expired by the sweep; it returns the number of rows it expired; it
    cancels the orders of those rows and touches no other order. *)
Theorem cleanupExpiredPayments_tables now svc db :
  let r := PaymentController.cleanupExpiredPayments now svc db in
  payments r.1.1.2 = expire_selected now <$> payments db
  /\ r.2 = length (List.filter (PaymentController.expired_pending now)
                     (payments db))
  /\ (forall p, p ∈ payments db ->
        PaymentController.expired_pending now p = true ->
        orders r.1.1.2 !! Payment.order_id p
        = cancel_order <$> orders db !! Payment.order_id p)
  /\ (forall k,
        (forall p, p ∈ payments db -> Payment.order_id p = k ->
                   PaymentController.expired_pending now p = false) ->
        orders r.1.1.2 !! k = orders db !! k).
Proof.
  cbv zeta. split; [apply cleanupExpiredPayments_payments|].
  rewrite cleanupExpiredPayments_eq. cbv zeta. cbn [fst snd].
  split; [|split].
  - unfold PaymentController.Payment_findAll.
    apply (filter_imap_length _ _ id).
  - intros p Hin Hs. rewrite sweep_orders, decide_True; [done|].
    apply Payment_findAll_order_ids. eauto.
  - intros k Hk. rewrite sweep_orders, decide_False; [done|].
    intros (p & Hin & Hs & Hid)%Payment_findAll_order_ids.
    rewrite (Hk p Hin Hid) in Hs. discriminate.
Qed.

Lemma cleanupExpiredPayments_tables_witness :
  orders (PaymentController.cleanupExpiredPayments 3600001 sample_service
            two_orders_db).1.1.2 !! other_id
  = orders two_orders_db !! other_id.
Proof.
  refine (proj2 (proj2 (proj2 (cleanupExpiredPayments_tables 3600001
                                 sample_service two_orders_db))) other_id _).
  intros p Hin Hid.
  repeat (apply elem_of_cons in Hin as [-> | Hin]; [try reflexivity|]).
  - discriminate Hid.
  - by apply elem_of_nil in Hin.
Defined.

Lemma expire_selected_not_selected now p :
  PaymentController.expired_pending now (expire_selected now p) = false.
Proof.
  unfold expire_selected.
  destruct (PaymentController.expired_pending now p) eqn:E; [|done].
  reflexivity.
Qed.

Lemma Payment_findAll_none sel db :
  (forall p, p ∈ payments db -> sel p = false) ->
  PaymentController.Payment_findAll sel db = [].
Proof.
  intros H. apply elem_of_nil_inv. intros [i p] Hin.
  apply Payment_findAll_spec in Hin as [Hi Hs].
  rewrite H in Hs; [discriminate|]. apply list_elem_of_lookup. eauto.
Qed.

(** The sweep is idempotent.  A second sweep at the same time finds no
    row to expire: it returns 0, leaves the tables and the monitors as the
    first sweep left them and requests only the rate-cache cleanup.  The
    same holds for any sweep that finds no pending payment past its
    expiry. *)
Theorem cleanupExpiredPayments_idempotent now svc db :
  let first := PaymentController.cleanupExpiredPayments now svc db in
  PaymentController.cleanupExpiredPayments now first.1.1.1 first.1.1.2
  = (first.1.1.1, first.1.1.2,
     [CryptoRateCleanup 24; LogInfo "Payment cleanup complete"], 0)
  /\ ((forall p, p ∈ payments db ->
         PaymentController.expired_pending now p = false) ->
      first = (svc, db,
               [CryptoRateCleanup 24; LogInfo "Payment cleanup complete"], 0)).
Proof.
  cbv zeta.
  assert (Hnone : forall s d,
    (forall p, p ∈ payments d -> PaymentController.expired_pending now p = false) ->
    PaymentController.cleanupExpiredPayments now s d
    = (s, d, [CryptoRateCleanup 24; LogInfo "Payment cleanup complete"], 0)).
  { intros s d H. rewrite cleanupExpiredPayments_eq. cbv zeta.
    by rewrite (Payment_findAll_none _ _ H). }
  split; [|apply Hnone].
  apply Hnone. intros p Hin.
  rewrite cleanupExpiredPayments_payments in Hin. apply list_elem_of_fmap in Hin as (q & -> & _).
  apply expire_selected_not_selected.
Qed.

Lemma cleanupExpiredPayments_idempotent_witness :
  PaymentController.cleanupExpiredPayments 1000 sample_service two_orders_db
  = (sample_service, two_orders_db,
     [CryptoRateCleanup 24; LogInfo "Payment cleanup complete"], 0).
Proof.
  refine (proj2 (cleanupExpiredPayments_idempotent 1000 sample_service
                   two_orders_db) _).
  intros p Hin.
  repeat (apply elem_of_cons in Hin as [-> | Hin]; [reflexivity|]).
  by apply elem_of_nil in Hin.
Defined.

Lemma sweep_registry l : forall svc db e k,
  DecredService.monitoredAddresses
    (foldl PaymentController.sweep_step (svc, db, e) l).1.1 !! k
  = if decide (k ∈ (fun ip : nat * Payment.t => Payment.order_id ip.2) <$> l)
    then None
    else DecredService.monitoredAddresses svc !! k.
Proof.
  induction l as [|ip l IH]; intros svc db e k.
  - cbn [foldl fst snd]. by rewrite decide_False by apply not_elem_of_nil.
  - cbn [foldl]. rewrite sweep_step_eq, IH, stopMonitoring_state.
    cbn [fmap list_fmap DecredService.monitoredAddresses].
    destruct (decide (Payment.order_id ip.2 = k)) as [<-|Hne].
    + rewrite lookup_delete_eq, (decide_True _ _ (list_elem_of_here _ _)).
      by case_decide.
    + rewrite lookup_delete_ne by done.
      apply decide_ext. rewrite elem_of_cons.
      split; [tauto|]. intros [H|H]; [congruence|done].
Qed.

Lemma wf_sweep l : forall svc db e,
  wf svc -> wf (foldl PaymentController.sweep_step (svc, db, e) l).1.1.
Proof.
  induction l as [|ip l IH]; intros svc db e Hwf; [done|].
  cbn [foldl]. rewrite sweep_step_eq. apply IH. by apply wf_stopMonitoring.
Qed.

(** What the sweep does to the monitors.  Every order with a payment the
    sweep expires has no monitor afterwards; the monitors of all other
    orders stay registered; and the registry and the timer table still
    agree. *)
Theorem cleanupExpiredPayments_monitors now svc db :
  let r := PaymentController.cleanupExpiredPayments now svc db in
  (forall p, p ∈ payments db ->
     PaymentController.expired_pending now p = true ->
     DecredService.monitoredAddresses r.1.1.1 !! Payment.order_id p = None)
  /\ (forall k,
        (forall p, p ∈ payments db -> Payment.order_id p = k ->
                   PaymentController.expired_pending now p = false) ->
        DecredService.monitoredAddresses r.1.1.1 !! k
        = DecredService.monitoredAddresses svc !! k)
  /\ (wf svc -> wf r.1.1.1).
Proof.
  cbv zeta. rewrite cleanupExpiredPayments_eq. cbv zeta. cbn [fst snd].
  split; [|split].
  - intros p Hin Hs. rewrite sweep_registry, decide_True; [done|].
    apply Payment_findAll_order_ids. eauto.
  - intros k Hk. rewrite sweep_registry, decide_False; [done|].
    intros (p & Hin & Hs & Hid)%Payment_findAll_order_ids.
    rewrite (Hk p Hin Hid) in Hs. discriminate.
  - apply wf_sweep.
Qed.

Lemma cleanupExpiredPayments_monitors_witness :
  DecredService.monitoredAddresses
    (PaymentController.cleanupExpiredPayments 3600001 sample_service
       two_orders_db).1.1.1 !! sample_id = None.
Proof.
  refine (proj1 (cleanupExpiredPayments_monitors 3600001 sample_service
                   two_orders_db) (sample_payment "pending" Absent) _ _).
  - apply elem_of_cons. right. apply list_elem_of_here.
  - reflexivity.
Defined.

(* ===================================================================== *)
(** * The admin's cancellation *)
(* ===================================================================== *)

Lemma cancelOrder_accepted_eq orderId reason svc db o :
  orders db !! orderId = Some o ->
  Order.canBeCancelled o = true ->
  Admin.cancelOrder orderId reason svc db
  = ((DecredService.stopMonitoring orderId svc).1,
     Order_update orderId
       (fun o => Order.set_notes
                   (PaymentController.or_string reason (Some "Cancelled by admin"))
                   (Order.set_order_status "cancelled" o)) db,
     PaymentController.Ok200,
     [Admin.Core (CallStopMonitoring orderId)]
       ++ (Admin.Core <$> (DecredService.stopMonitoring orderId svc).2)
       ++ match Order.printful_order_id o with
          | Some printfulId =>
              if String.eqb printfulId "" then []
              else [Admin.PrintfulCancelOrder printfulId]
          | None => []
          end
       ++ [Admin.Core (SendOrderCancellation orderId
                         (default "Payment not received" reason));
           Admin.Core (LogOrder "order_cancelled" orderId)]).
Proof.
  intros Ho Hc. unfold Admin.cancelOrder, Order_findOne. rewrite Ho, Hc.
  cbn [negb]. by destruct (DecredService.stopMonitoring orderId svc).
Qed.

Lemma cancelOrder_refused_eq orderId reason svc db o :
  orders db !! orderId = Some o ->
  Order.canBeCancelled o = false ->
  Admin.cancelOrder orderId reason svc db
  = (svc, db, PaymentController.BadRequest400, []).
Proof.
  intros Ho Hc. unfold Admin.cancelOrder, Order_findOne. by rewrite Ho, Hc.
Qed.

(** A refused cancellation changes nothing.  [cancelOrder] answers 404 for
    an order that is not in the table and 400 for an order whose
    order_status is neither [pending_payment] nor [pending]; whenever the
    answer is not 200, the tables and the monitors are untouched and
    nothing is requested. *)
Theorem cancelOrder_refusals orderId reason svc db :
  let r := Admin.cancelOrder orderId reason svc db in
  (orders db !! orderId = None ->
   r = (svc, db, PaymentController.NotFound404, []))
  /\ (forall o, orders db !! orderId = Some o ->
        Order.order_status o <> "pending_payment" ->
        Order.order_status o <> "pending" ->
        r = (svc, db, PaymentController.BadRequest400, []))
  /\ (r.1.2 <> PaymentController.Ok200 ->
      r.1.1.1 = svc /\ r.1.1.2 = db /\ r.2 = []).
Proof.
  cbv zeta. split; [|split].
  - intros Ho. unfold Admin.cancelOrder, Order_findOne. by rewrite Ho.
  - intros o Ho H1 H2. apply (cancelOrder_refused_eq _ _ _ _ o Ho).
    unfold Order.canBeCancelled.
    apply String.eqb_neq in H1, H2. by rewrite H1, H2.
  - destruct (orders db !! orderId) as [o|] eqn:Ho.
    + destruct (Order.canBeCancelled o) eqn:Hc.
      * rewrite (cancelOrder_accepted_eq _ _ _ _ o Ho Hc). by intros [].
      * by rewrite (cancelOrder_refused_eq _ _ _ _ o Ho Hc).
    + unfold Admin.cancelOrder, Order_findOne. by rewrite Ho.
Qed.

Lemma cancelOrder_refusals_witness :
  Admin.cancelOrder sample_id (Some "changed my mind") sample_service
    (sample_db "confirmed" "shipped" (Some "pf-1") (Num 5))
  = (sample_service, sample_db "confirmed" "shipped" (Some "pf-1") (Num 5),
     PaymentController.BadRequest400, []).
Proof.
  refine (proj1 (proj2 (cancelOrder_refusals sample_id (Some "changed my mind")
                          sample_service
                          (sample_db "confirmed" "shipped" (Some "pf-1") (Num 5))))
            (sample_order "confirmed" "shipped" (Some "pf-1")) _ _ _);
    [reflexivity|discriminate|discriminate].
Defined.

(** A paid order cannot be cancelled.  Once a [confirmed] observation has
    been applied to an order - the payment update accepted it, its
    confirmations not being negative - [cancelOrder] for it answers 400 and
    changes nothing, whether or not the fulfillment provider answered.  A
    [confirmed] observation that the payment update refuses leaves the
    tables as they were, so an order that could be cancelled still can:
    [cancelOrder] answers 200. *)
Theorem cancelOrder_after_confirmation
    now printful orderId pd reason svc db o :
  orders db !! orderId = Some o ->
  pd_status pd = "confirmed" ->
  let db' := (OrderController.handlePaymentUpdate now printful orderId pd db).1 in
  (Payment.valid_confirmations (pd_confirmations pd) = true ->
   Admin.cancelOrder orderId reason svc db'
   = (svc, db', PaymentController.BadRequest400, []))
  /\ (is_Some (Payment_findOne orderId db) ->
      Payment.valid_confirmations (pd_confirmations pd) = false ->
      Order.canBeCancelled o = true ->
      db' = db
      /\ (Admin.cancelOrder orderId reason svc db').1.2 = PaymentController.Ok200).
Proof.
  intros Ho Hs. cbv zeta. split.
  - intros Hv.
    rewrite (handlePaymentUpdate_confirmed _ _ _ _ _ o Ho Hs
               (update_accepted_valid _ _ _ Hv)).
    pose proof (proj1 (proj2 (pay_order_fields pd o))) as Hpaid.
    destruct printful as [printfulId|]; cbn [fst].
    + apply (cancelOrder_refused_eq _ _ _ _
               (Order.set_order_status "production"
                  (Order.set_printful_order_id (Some printfulId)
                     (pay_order pd o)))).
      * by rewrite !Order_update_lookup, on_payment_lookup_order, Ho.
      * reflexivity.
    + apply (cancelOrder_refused_eq _ _ _ _ (pay_order pd o)).
      * by rewrite Order_update_lookup, on_payment_lookup_order, Ho.
      * unfold Order.canBeCancelled. by rewrite Hpaid.
  - intros [ip Hp] Hv Hc.
    rewrite (handlePaymentUpdate_rejected _ _ _ _ _ o Ho Hs).
    2:{ unfold update_accepted. by rewrite Hp. }
    cbn [fst]. split; [done|].
    by rewrite (cancelOrder_accepted_eq _ _ _ _ o Ho Hc).
Qed.

Lemma cancelOrder_after_confirmation_witness :
  (Admin.cancelOrder sample_id None sample_service
     (OrderController.handlePaymentUpdate 0 None sample_id
        (observation "confirmed" (Num 5))
        (sample_db "pending" "pending_payment" None Absent)).1).1.2
  = PaymentController.BadRequest400.
Proof.
  rewrite (proj1 (cancelOrder_after_confirmation 0 None sample_id
                    (observation "confirmed" (Num 5)) None sample_service
                    (sample_db "pending" "pending_payment" None Absent)
                    (sample_order "pending" "pending_payment" None)
                    eq_refl eq_refl) eq_refl).
  reflexivity.
Defined.

(** An accepted cancellation.  For an order that can be cancelled,
    [cancelOrder] answers 200, sets order_status to [cancelled] and the
    notes to the reason (or "Cancelled by admin" when there is none),
    leaves payment_status and every payment row as they were, removes the
    monitor of the order, asks the fulfillment provider to cancel exactly
    when the order has a non-empty fulfillment reference, and requests the
    cancellation notification; when no reason is given the notification
    carries the mail service's default "Payment not received". *)
Theorem cancelOrder_accepted orderId reason svc db o :
  orders db !! orderId = Some o ->
  Order.canBeCancelled o = true ->
  let r := Admin.cancelOrder orderId reason svc db in
  r.1.2 = PaymentController.Ok200
  /\ orders r.1.1.2 !! orderId
     = Some (Order.mk (Order.order_id o) (Order.customer_email o)
               (Order.payment_status o) "cancelled" (Order.transaction_hash o)
               (Order.printful_order_id o)
               (PaymentController.or_string reason (Some "Cancelled by admin")))
  /\ payments r.1.1.2 = payments db
  /\ DecredService.monitoredAddresses r.1.1.1 !! orderId = None
  /\ (forall printfulId,
        Admin.PrintfulCancelOrder printfulId ∈ r.2
        <-> Order.printful_order_id o = Some printfulId /\ printfulId <> "")
  /\ Admin.Core (SendOrderCancellation orderId
                   (default "Payment not received" reason)) ∈ r.2.
Proof.
  intros Ho Hc. cbv zeta. rewrite (cancelOrder_accepted_eq _ _ _ _ o Ho Hc).
  cbn [fst snd]. split; [done|]. split; [|split; [done|split; [|split]]].
  - by rewrite Order_update_lookup, Ho.
  - rewrite stopMonitoring_state. cbn [DecredService.monitoredAddresses].
    apply lookup_delete_eq.
  - intros printfulId. rewrite !elem_of_app, !elem_of_cons, list_elem_of_fmap.
    split.
    + intros [H|[H|[H|H]]].
      * destruct H as [H|H]; [discriminate|by apply elem_of_nil in H].
      * destruct H as (e & H & _). discriminate.
      * destruct (Order.printful_order_id o) as [pid|];
          [|by apply elem_of_nil in H].
        destruct (String.eqb pid "") eqn:E; [by apply elem_of_nil in H|].
        apply String.eqb_neq in E.
        apply list_elem_of_singleton in H as [= ->]. done.
      * destruct H as [H|[H|H]]; [discriminate..|by apply elem_of_nil in H].
    + intros [-> Hne]. right. right. left.
      apply String.eqb_neq in Hne. rewrite Hne. apply list_elem_of_here.
  - rewrite !elem_of_app. do 3 right. apply list_elem_of_here.
Qed.

Lemma cancelOrder_accepted_witness :
  Admin.Core (SendOrderCancellation sample_id "Payment not received")
    ∈ (Admin.cancelOrder sample_id None sample_service
         (sample_db "pending" "pending_payment" None Absent)).2.
Proof.
  refine (proj2 (proj2 (proj2 (proj2 (proj2
            (cancelOrder_accepted sample_id None sample_service
               (sample_db "pending" "pending_payment" None Absent)
               (sample_order "pending" "pending_payment" None) _ _))))));
    reflexivity.
Defined.

(** Cancelling twice.  After an accepted cancellation a second
    [cancelOrder] for the same order answers 400 and changes nothing: the
    notification is not sent twice. *)
Theorem cancelOrder_twice orderId reason reason' svc db o :
  orders db !! orderId = Some o ->
  Order.canBeCancelled o = true ->
  let first := Admin.cancelOrder orderId reason svc db in
  Admin.cancelOrder orderId reason' first.1.1.1 first.1.1.2
  = (first.1.1.1, first.1.1.2, PaymentController.BadRequest400, []).
Proof.
  intros Ho Hc. cbv zeta. rewrite (cancelOrder_accepted_eq _ _ _ _ o Ho Hc).
  cbn [fst snd].
  eapply cancelOrder_refused_eq.
  - by rewrite Order_update_lookup, Ho.
  - reflexivity.
Qed.

Lemma cancelOrder_twice_witness :
  (Admin.cancelOrder sample_id None
     (Admin.cancelOrder sample_id (Some "duplicate") sample_service
        (sample_db "pending" "pending_payment" None Absent)).1.1.1
     (Admin.cancelOrder sample_id (Some "duplicate") sample_service
        (sample_db "pending" "pending_payment" None Absent)).1.1.2).1.2
  = PaymentController.BadRequest400.
Proof.
  rewrite (cancelOrder_twice sample_id (Some "duplicate") None sample_service
             (sample_db "pending" "pending_payment" None Absent)
             (sample_order "pending" "pending_payment" None)
             eq_refl eq_refl).
  reflexivity.
Defined.

(* ===================================================================== *)
(** * utils/crypto.js *)
(* ===================================================================== *)

(** The amount to pay.  For a total and a markup that are not negative and
    a positive rate, [calculateCryptoAmount] is not negative, and it never
    goes down when the total or the markup goes up or the rate goes down:
    the three roundings of the computation keep the order.  In particular
    a markup never lowers the amount below the one without markup. *)
Theorem calculateCryptoAmount_monotone usd usd' rate rate' markup markup' :
  (0 <= usd)%Q -> (usd <= usd')%Q ->
  (0 < rate')%Q -> (rate' <= rate)%Q ->
  (0 <= default 1%Q markup)%Q ->
  (default 1%Q markup <= default 1%Q markup')%Q ->
  (0 <= CryptoUtils.calculateCryptoAmount usd rate markup)%Q
  /\ (CryptoUtils.calculateCryptoAmount usd rate markup
      <= CryptoUtils.calculateCryptoAmount usd' rate' markup')%Q.
Proof.
  intros Hu Huu Hr Hrr Hm Hmm. unfold CryptoUtils.calculateCryptoAmount.
  cbv zeta. set (m := default 1%Q markup) in *.
  set (m' := default 1%Q markup') in *.
  assert (1 <= Double.add 1 (Double.div m 100))%Q as H1.
  { unfold Double.add, Double.div. change 1%Q with (Double.round 1) at 1.
    apply round_mono.
    assert (0 <= Double.round (m / 100))%Q.
    { apply round_sign. apply Qle_shift_div_l; [reflexivity|]. lra. }
    lra. }
  assert (Double.add 1 (Double.div m 100) <= Double.add 1 (Double.div m' 100))%Q
    as H2.
  { unfold Double.add, Double.div. apply round_mono.
    assert (Double.round (m / 100) <= Double.round (m' / 100))%Q.
    { apply round_mono. unfold Qdiv.
      apply Qmult_le_compat_r; [exact Hmm|]. discriminate. }
    lra. }
  set (k := Double.add 1 (Double.div m 100)) in *.
  set (k' := Double.add 1 (Double.div m' 100)) in *.
  assert (0 <= Double.mul usd k)%Q as H3.
  { unfold Double.mul. apply round_sign. clearbody k. nra. }
  assert (Double.mul usd k <= Double.mul usd' k')%Q as H4.
  { unfold Double.mul. apply round_mono. clearbody k k'. nra. }
  set (a := Double.mul usd k) in *. set (a' := Double.mul usd' k') in *.
  assert (0 < rate)%Q as Hr' by lra.
  assert (0 <= a / rate)%Q as H5.
  { apply Qle_shift_div_l; [exact Hr'|]. lra. }
  assert (a / rate <= a' / rate')%Q as H6.
  { apply Qle_shift_div_l; [exact Hr|].
    pose proof (div_ulp a rate Hr') as E.
    set (q := (a / rate)%Q) in *. clearbody q a a'. nra. }
  unfold Double.div. split.
  - by apply round_sign.
  - by apply round_mono.
Qed.

Lemma calculateCryptoAmount_monotone_witness :
  (CryptoUtils.calculateCryptoAmount 100 20 (Some 0%Q)
   <= CryptoUtils.calculateCryptoAmount 100 20 None)%Q.
Proof.
  refine (proj2 (calculateCryptoAmount_monotone 100 100 20 20 (Some 0%Q) None
                   _ _ _ _ _ _));
    solve [reflexivity | discriminate].
Defined.

(* ===================================================================== *)
(** * The webhook routes *)
(* ===================================================================== *)

Lemma mapStatus_quiet s :
  s <> "Processing" -> s <> "Expired" -> s <> "Settled" -> s <> "Complete" ->
  Webhooks.mapStatus s = Some "pending"
  \/ Webhooks.mapStatus s = Some "cancelled"
  \/ Webhooks.mapStatus s = None.
Proof.
  intros H1 H2 H3 H4. unfold Webhooks.mapStatus.
  apply String.eqb_neq in H1, H2, H3, H4. rewrite H1, H2, H3, H4.
  destruct (String.eqb s "New"); [by left|].
  destruct (String.eqb s "Invalid"); [by right; left|].
  destruct (Webhooks.inherited s); [by right; right|by left].
Qed.

Lemma btcpay_without_order now printful body invoice payment db :
  Webhooks.falsy (Webhooks.bp_orderId body) = true
  \/ orders db !! default "" (Webhooks.bp_orderId body) = None ->
  (Webhooks.btcpay now printful body invoice payment db).1.1 = db
  /\ exists m, (Webhooks.btcpay now printful body invoice payment db).2
               = Webhooks.Success (Some m).
Proof.
  intros H. unfold Webhooks.btcpay, Order_findOne.
  destruct (Webhooks.falsy (Webhooks.bp_orderId body)); [by eauto|].
  destruct H as [H|H]; [done|]. rewrite H. by eauto.
Qed.

Lemma btcpay_invoice_failure now printful body payment db :
  (Webhooks.btcpay now printful body None payment db).1.1 = db
  /\ (Webhooks.falsy (Webhooks.bp_orderId body) = false ->
      is_Some (orders db !! default "" (Webhooks.bp_orderId body)) ->
      (Webhooks.btcpay now printful body None payment db).2
      = Webhooks.ProcessingFailed).
Proof.
  unfold Webhooks.btcpay, Order_findOne.
  destruct (Webhooks.falsy (Webhooks.bp_orderId body)); [done|].
  destruct (orders db !! default "" (Webhooks.bp_orderId body)); [done|].
  split; [done|]. by intros _ [? ?].
Qed.

Lemma btcpay_quiet now printful body invoice payment db :
  (Webhooks.mapStatus
     (if Webhooks.falsy (Webhooks.bp_status body) then "New"
      else default "" (Webhooks.bp_status body)) = Some "pending"
   \/ Webhooks.mapStatus
        (if Webhooks.falsy (Webhooks.bp_status body) then "New"
         else default "" (Webhooks.bp_status body)) = Some "cancelled"
   \/ Webhooks.mapStatus
        (if Webhooks.falsy (Webhooks.bp_status body) then "New"
         else default "" (Webhooks.bp_status body)) = None) ->
  (Webhooks.btcpay now printful body invoice payment db).1.1 = db.
Proof.
  intros H. unfold Webhooks.btcpay, Order_findOne.
  destruct (Webhooks.falsy (Webhooks.bp_orderId body)); [done|].
  destruct (orders db !! default "" (Webhooks.bp_orderId body)); [|done].
  destruct invoice; [|done].
  by destruct H as [-> | [-> | ->]].
Qed.

(** The BTCPay route changes the tables for four provider statuses only.
    An event without an order id or for an unknown order is answered with
    success and changes nothing; when the invoice lookup fails the event is
    dropped, whatever its status, and an existing order gets the 500
    answer; and an event whose status is none of Processing, Expired,
    Settled, Complete (New, Invalid, a missing status, anything else)
    changes nothing: an invalidated invoice does not cancel the order. *)
Theorem btcpay_route now printful body invoice payment db :
  let r := Webhooks.btcpay now printful body invoice payment db in
  (Webhooks.falsy (Webhooks.bp_orderId body) = true
   \/ orders db !! default "" (Webhooks.bp_orderId body) = None ->
   r.1.1 = db /\ exists m, r.2 = Webhooks.Success (Some m))
  /\ (invoice = None -> r.1.1 = db)
  /\ (invoice = None ->
      Webhooks.falsy (Webhooks.bp_orderId body) = false ->
      is_Some (orders db !! default "" (Webhooks.bp_orderId body)) ->
      r.2 = Webhooks.ProcessingFailed)
  /\ (forall s, Webhooks.bp_status body = Some s ->
        s <> "Processing" -> s <> "Expired" -> s <> "Settled" ->
        s <> "Complete" -> r.1.1 = db)
  /\ (Webhooks.bp_status body = None -> r.1.1 = db).
Proof.
  cbv zeta. split; [apply btcpay_without_order|].
  split; [intros ->; apply btcpay_invoice_failure|].
  split; [intros ->; apply btcpay_invoice_failure|].
  split.
  - intros s Hs H1 H2 H3 H4. apply btcpay_quiet. rewrite Hs.
    destruct (Webhooks.falsy (Some s)); [by left|]. by apply mapStatus_quiet.
  - intros Hs. apply btcpay_quiet. rewrite Hs. by left.
Qed.

Lemma btcpay_route_witness :
  (Webhooks.btcpay 0 (Some "pf-1")
     (Webhooks.mkBtcPayBody (Some "InvoiceInvalid") (Some "inv-1")
        (Some sample_id) (Some "Invalid"))
     (Some 50%Q) None
     (sample_db "pending" "pending_payment" None Absent)).1.1
  = sample_db "pending" "pending_payment" None Absent.
Proof.
  refine (proj1 (proj2 (proj2 (proj2
            (btcpay_route 0 (Some "pf-1")
               (Webhooks.mkBtcPayBody (Some "InvoiceInvalid") (Some "inv-1")
                  (Some sample_id) (Some "Invalid"))
               (Some 50%Q) None
               (sample_db "pending" "pending_payment" None Absent)))))
            "Invalid" _ _ _ _ _);
    [reflexivity|discriminate..].
Defined.

Lemma coinbase_reply now printful eventType orderId localAmount tx db :
  exists m, (Webhooks.coinbase now printful eventType orderId localAmount tx db).2
            = Webhooks.Success m.
Proof.
  unfold Webhooks.coinbase, Order_findOne.
  destruct (Webhooks.falsy orderId); [by eauto|].
  destruct (orders db !! default "" orderId); [|by eauto].
  repeat case_match; cbn [snd]; eauto.
Qed.

Lemma coinbase_without_order now printful eventType orderId localAmount tx db :
  Webhooks.falsy orderId = true \/ orders db !! default "" orderId = None ->
  (Webhooks.coinbase now printful eventType orderId localAmount tx db).1.1 = db.
Proof.
  intros H. unfold Webhooks.coinbase, Order_findOne.
  destruct (Webhooks.falsy orderId); [done|].
  destruct H as [H|H]; [done|]. by rewrite H.
Qed.

Lemma coinbase_other_event now printful eventType orderId localAmount tx db :
  default "" eventType <> "charge:confirmed" ->
  default "" eventType <> "charge:pending" ->
  default "" eventType <> "charge:failed" ->
  default "" eventType <> "charge:expired" ->
  (Webhooks.coinbase now printful eventType orderId localAmount tx db).1.1 = db.
Proof.
  intros H1 H2 H3 H4. unfold Webhooks.coinbase, Order_findOne.
  destruct (Webhooks.falsy orderId); [done|].
  destruct (orders db !! default "" orderId); [|done].
  apply String.eqb_neq in H1, H2, H3, H4. by rewrite H1, H2, H3, H4.
Qed.

Lemma coinbase_expiry now printful eventType orderId localAmount tx db o :
  Webhooks.falsy orderId = false ->
  orders db !! default "" orderId = Some o ->
  eventType = Some "charge:failed" \/ eventType = Some "charge:expired" ->
  (Webhooks.coinbase now printful eventType orderId localAmount tx db).1.1
  = (OrderController.handlePaymentUpdate now printful (default "" orderId)
       (mkPaymentData "expired" Absent None None Absent) db).1.
Proof.
  intros Hf Ho Het. unfold Webhooks.coinbase, Order_findOne. rewrite Hf, Ho.
  assert (String.eqb (default "" eventType) "charge:confirmed" = false
          /\ String.eqb (default "" eventType) "charge:pending" = false
          /\ String.eqb (default "" eventType) "charge:failed"
             || String.eqb (default "" eventType) "charge:expired" = true)
    as (-> & -> & ->) by by destruct Het as [-> | ->].
  by destruct (OrderController.handlePaymentUpdate _ _ _ _ _).
Qed.

(** The Coinbase route always answers success.  It changes nothing for an
    event without an order id, for an unknown order, and for every event
    type other than charge:confirmed, charge:pending, charge:failed and
    charge:expired; a charge:failed event is handled exactly like
    charge:expired: the order ends with payment_status [expired] and
    order_status [cancelled]. *)
Theorem coinbase_route now printful eventType orderId localAmount tx db :
  let r := Webhooks.coinbase now printful eventType orderId localAmount tx db in
  (exists m, r.2 = Webhooks.Success m)
  /\ (Webhooks.falsy orderId = true \/ orders db !! default "" orderId = None ->
      r.1.1 = db)
  /\ (forall t, eventType = Some t ->
        t <> "charge:confirmed" -> t <> "charge:pending" ->
        t <> "charge:failed" -> t <> "charge:expired" -> r.1.1 = db)
  /\ (eventType = None -> r.1.1 = db)
  /\ (Webhooks.falsy orderId = false ->
      is_Some (orders db !! default "" orderId) ->
      eventType = Some "charge:failed" \/ eventType = Some "charge:expired" ->
      payment_status_of (default "" orderId) r.1.1 = Some "expired"
      /\ order_status_of (default "" orderId) r.1.1 = Some "cancelled").
Proof.
  cbv zeta. split; [apply coinbase_reply|].
  split; [apply coinbase_without_order|]. split; [|split].
  - intros t -> H1 H2 H3 H4. by apply coinbase_other_event.
  - intros ->. by apply coinbase_other_event.
  - intros Hf [o Ho] Het. rewrite (coinbase_expiry _ _ _ _ _ _ _ o Hf Ho Het).
    rewrite (handlePaymentUpdate_expired now (default "" orderId) db printful
               (mkPaymentData "expired" Absent None None Absent) o Ho eq_refl).
    cbn [fst]. unfold payment_status_of, order_status_of.
    by rewrite !Order_update_lookup, on_payment_lookup_order, Ho.
Qed.

Lemma coinbase_route_witness :
  order_status_of sample_id
    (Webhooks.coinbase 0 None (Some "charge:failed") (Some sample_id) Absent None
       (sample_db "pending" "pending_payment" None Absent)).1.1
  = Some "cancelled".
Proof.
  refine (proj2 (proj2 (proj2 (proj2 (proj2
            (coinbase_route 0 None (Some "charge:failed") (Some sample_id)
               Absent None
               (sample_db "pending" "pending_payment" None Absent)))))
            _ _ _));
    [reflexivity|by eexists|by left].
Defined.
